(** * log-analyzer: a shallow embedding of [cmd/log-analyzer/main.go]

    The program reads a log file line by line, parses every line into a
    [LogEntry], aggregates the entries into an [AnalysisReport] and prints
    the report.  Go strings are byte strings and are modelled by [string]
    (one [ascii] per byte); Go's [int] is a 64-bit two's complement integer
    and is modelled by [Z] with the wrap-around written out; [float64] is
    modelled by the primitive binary64 floats, whose operations follow the
    IEEE 754 specification of [SpecFloat]. *)

From Stdlib Require Import ZArith Lia List Ascii String Permutation Sorted.
From Stdlib Require Import PrimFloat FloatOps SpecFloat.
From Stdlib Require FloatAxioms.
From stdpp Require Import base gmap list strings.

Local Open Scope Z_scope.
#[local] Set Warnings "-inexact-float".

(** ** Go's [int] *)

Module GoInt.

Definition MaxInt : Z := 2 ^ 63 - 1.
Definition MinInt : Z := - 2 ^ 63.

(** Two's complement wrap-around of a mathematical integer to 64 bits. *)
Definition wrap (x : Z) : Z := (x + 2 ^ 63) mod 2 ^ 64 - 2 ^ 63.

(** The statement [x++]. *)
Definition incr (x : Z) : Z := wrap (x + 1).

Definition in_range (x : Z) : Prop := MinInt <= x <= MaxInt.

End GoInt.

(** ** Package [strings], for a one-byte separator *)

Module Strings.

(** [cut sep s] is [Some (before, after)] around the first occurrence of the
    byte [sep] in [s], as [strings.Index] followed by the two slices
    [s[:m]] and [s[m+1:]] in [genSplit]. *)
Fixpoint cut (sep : ascii) (s : string) : option (string * string) :=
  match s with
  | EmptyString => None
  | String c s' =>
      if Ascii.eqb c sep then Some (EmptyString, s')
      else match cut sep s' with
           | Some (a, b) => Some (String c a, b)
           | None => None
           end
  end.

(** The loop of [genSplit]: at most [n] cuts, the last element is the
    unsplit remainder. *)
Fixpoint genSplit (sep : ascii) (s : string) (n : nat) : list string :=
  match n with
  | O => [s]
  | S n' =>
      match cut sep s with
      | None => [s]
      | Some (a, rest) => a :: genSplit sep rest n'
      end
  end.

(** [strings.SplitN(s, sep, n)]: [n = 0] gives nil, [n < 0] all the
    substrings, [n > 0] at most [n] substrings. *)
Definition SplitN (s : string) (sep : ascii) (n : Z) : list string :=
  if n =? 0 then []
  else if n <? 0 then genSplit sep s (String.length s)
  else genSplit sep s (Z.to_nat (n - 1)).

(** [strings.Split(s, sep)] is [SplitN(s, sep, -1)]. *)
Definition Split (s : string) (sep : ascii) : list string := SplitN s sep (-1).

(** [strings.HasSuffix]: [len(s) >= len(suffix) && s[len(s)-len(suffix):] == suffix]. *)
Definition HasSuffix (s suffix : string) : bool :=
  (String.length suffix <=? String.length s)%nat &&
  String.eqb (String.substring (String.length s - String.length suffix)
                               (String.length suffix) s) suffix.

(** [strings.TrimSuffix]: [s[:len(s)-len(suffix)]] when [s] has the suffix,
    [s] otherwise. *)
Definition TrimSuffix (s suffix : string) : string :=
  if HasSuffix s suffix
  then String.substring 0 (String.length s - String.length suffix) s
  else s.

(** [strings.Join(elems, sep)]. *)
Fixpoint Join (elems : list string) (sep : ascii) : string :=
  match elems with
  | [] => EmptyString
  | [a] => a
  | a :: rest => a +:+ String sep (Join rest sep)
  end.

(** [strings.IndexByte(s, c) >= 0]. *)
Fixpoint containsByte (s : string) (c : ascii) : bool :=
  match s with
  | EmptyString => false
  | String c' s' => Ascii.eqb c' c || containsByte s' c
  end.

(** A byte below [utf8.RuneSelf] (0x80). *)
Definition isASCIIbyte (c : ascii) : bool := (N_of_ascii c <? 128)%N.

Fixpoint isASCII (s : string) : bool :=
  match s with
  | EmptyString => true
  | String c s' => isASCIIbyte c && isASCII s'
  end.

(** ['A' <= c && c <= 'Z'] then [c += 'a' - 'A']. *)
Definition lowerByte (c : ascii) : ascii :=
  let n := N_of_ascii c in
  if ((65 <=? n) && (n <=? 90))%N then ascii_of_N (n + 32) else c.

Fixpoint lowerASCII (s : string) : string :=
  match s with
  | EmptyString => EmptyString
  | String c s' => String (lowerByte c) (lowerASCII s')
  end.

Section ToLower.
(** [strings.ToLower] lower-cases an ASCII-only string byte by byte and
    hands every other string to [strings.Map(unicode.ToLower, s)], which
    depends on the Unicode tables; that path is a parameter. *)
Variable mapUnicodeToLower : string -> string.

Definition ToLower (s : string) : string :=
  if isASCII s then lowerASCII s else mapUnicodeToLower s.
End ToLower.

End Strings.

(** ** Errors as values *)

Inductive result (E A : Type) : Type :=
| Ok (a : A)
| Err (e : E).
Arguments Ok {E A} a.
Arguments Err {E A} e.

Definition bind {E A B} (r : result E A) (k : A -> result E B) : result E B :=
  match r with
  | Ok a => k a
  | Err e => Err e
  end.

Notation "'let?' x := r 'in' k" := (bind r (fun x => k))
  (at level 10, x pattern, r at level 200, k at level 200, only parsing).

Definition is_ok {E A} (r : result E A) : bool :=
  match r with Ok _ => true | Err _ => false end.

(** ** Decimal digits *)

(** ['0' <= c && c <= '9'] and [c - '0']. *)
Definition isDigitByte (c : ascii) : bool :=
  let n := N_of_ascii c in ((48 <=? n) && (n <=? 57))%N.

Definition digitVal (c : ascii) : Z := Z.of_N (N_of_ascii c) - 48.

Definition digitChar (d : Z) : ascii := ascii_of_N (Z.to_N (48 + d)).

(** The decimal digits of [u >= 0] in front of [acc], most significant
    first; [fuel] bounds the number of digits. *)
Fixpoint utodFuel (fuel : nat) (u : Z) (acc : string) : string :=
  match fuel with
  | O => acc
  | S fuel' =>
      let acc := String (digitChar (u mod 10)) acc in
      if u <? 10 then acc else utodFuel fuel' (u / 10) acc
  end.

Definition utod (u : Z) : string := utodFuel (S (Z.to_nat (Z.log2 u))) u EmptyString.

(** [%d] of an [int]. *)
Definition formatInt (x : Z) : string :=
  if x <? 0 then String "-" (utod (- x)) else utod x.

(** ** Package [time], for the layout [time.DateTime] *)

Module Time.

(** An instant: seconds since January 1, year 1 00:00:00 UTC and the
    nanoseconds within that second.  The zero [Time] is that very instant. *)
Record Time : Type := mkTime { sec : Z; nsec : Z }.

Definition zero : Time := mkTime 0 0.

Definition IsZero (t : Time) : bool := (sec t =? 0) && (nsec t =? 0).

Definition Before (t u : Time) : bool :=
  (sec t <? sec u) || ((sec t =? sec u) && (nsec t <? nsec u)).

Definition After (t u : Time) : bool :=
  (sec t >? sec u) || ((sec t =? sec u) && (nsec t >? nsec u)).

Definition secondsPerDay : Z := 86400.

Definition isLeap (year : Z) : bool :=
  (year mod 4 =? 0) && (negb (year mod 100 =? 0) || (year mod 400 =? 0)).

(** [daysBefore[m]]: days in a non-leap year before month [m+1]. *)
Definition daysBefore (m : Z) : Z :=
  match m with
  | 0 => 0 | 1 => 31 | 2 => 59 | 3 => 90 | 4 => 120 | 5 => 151 | 6 => 181
  | 7 => 212 | 8 => 243 | 9 => 273 | 10 => 304 | 11 => 334 | _ => 365
  end.

Definition daysIn (month year : Z) : Z :=
  if (month =? 2) && isLeap year then 29
  else daysBefore month - daysBefore (month - 1).

(** Days from January 1, year 1 to January 1 of [year]. *)
Definition daysSinceEpoch (year : Z) : Z :=
  let y := year - 1 in
  365 * y + y / 4 - y / 100 + y / 400.

(** [norm(hi, lo, base)]: carry [lo] into [hi] so that [0 <= lo < base]. *)
Definition norm (hi lo base : Z) : Z * Z := (hi + lo / base, lo mod base).

(** [time.Date(year, month, day, hour, min, sec, nsec, time.UTC)]. *)
Definition Date (year month day hour min sec nsec : Z) : Time :=
  let '(year, m) := norm year (month - 1) 12 in
  let month := m + 1 in
  let '(sec, nsec) := norm sec nsec 1000000000 in
  let '(min, sec) := norm min sec 60 in
  let '(hour, min) := norm hour min 60 in
  let '(day, hour) := norm day hour 24 in
  let d := daysSinceEpoch year + daysBefore (month - 1) in
  let d := if isLeap year && (3 <=? month) then d + 1 else d in
  let d := d + (day - 1) in
  mkTime (d * secondsPerDay + (hour * 3600 + min * 60 + sec)) nsec.

(** The first half of [absDate]: the year of a day count and the day within
    that year, by cycles of 400, 100, 4 and 1 years. *)
Definition absYday (days : Z) : Z * Z :=
  let n400 := days / 146097 in
  let d := days - 146097 * n400 in
  let n100 := d / 36524 in
  let n100 := n100 - Z.shiftr n100 2 in
  let d := d - 36524 * n100 in
  let n4 := d / 1461 in
  let d := d - 1461 * n4 in
  let n := d / 365 in
  let n := n - Z.shiftr n 2 in
  let d := d - 365 * n in
  (400 * n400 + 100 * n100 + 4 * n4 + n + 1, d).

(** The second half of [absDate]: month and day of month of a day of the
    year. *)
Definition monthDay (leap : bool) (yday : Z) : Z * Z :=
  if leap && (yday =? 31 + 29 - 1) then (2, 29)
  else
    let day := if leap && (yday >? 31 + 29 - 1) then yday - 1 else yday in
    let month := day / 31 in
    let e := daysBefore (month + 1) in
    if day >=? e then (month + 2, day - e + 1)
    else (month + 1, day - daysBefore month + 1).

(** [absDate]: the year, month and day of month of a day count. *)
Definition absDate (days : Z) : Z * Z * Z :=
  let '(year, yday) := absYday days in
  let '(month, day) := monthDay (isLeap year) yday in
  (year, month, day).

(** [absClock]: hour, minute and second within the day. *)
Definition absClock (abs : Z) : Z * Z * Z :=
  let s := abs mod secondsPerDay in
  (s / 3600, (s mod 3600) / 60, s mod 60).

(** *** Parsing with the layout ["2006-01-02 15:04:05"] *)

Inductive ParseError : Type :=
| errBad (elem : string)          (* cannot parse the value as this layout element *)
| errRange (what : string)        (* "<what> out of range" *)
| errExtraText (rest : string)    (* "extra text" after the last element *)
| errDayOutOfRange.               (* "day out of range" *)

(** [isDigit(s, i)] for [i = 0]. *)
Definition isDigit0 (s : string) : bool :=
  match s with
  | String c _ => isDigitByte c
  | EmptyString => false
  end.

(** [getnum(s, fixed)]: one or two leading digits; two are required when
    [fixed]. *)
Definition getnum (s : string) (fixed : bool) : option (Z * string) :=
  match s with
  | String c0 s1 =>
      if isDigitByte c0 then
        match s1 with
        | String c1 s2 =>
            if isDigitByte c1 then Some (digitVal c0 * 10 + digitVal c1, s2)
            else if fixed then None else Some (digitVal c0, s1)
        | EmptyString => if fixed then None else Some (digitVal c0, s1)
        end
      else None
  | EmptyString => None
  end.

(** The value of a string of decimal digits, [None] when a byte is not a
    digit: [atoi] on a string without sign. *)
Fixpoint leadingDigits (acc : Z) (s : string) : option Z :=
  match s with
  | EmptyString => Some acc
  | String c s' =>
      if isDigitByte c then leadingDigits (acc * 10 + digitVal c) s' else None
  end.

(** The element [2006]: four bytes, the first a digit, all of them digits. *)
Definition getLongYear (s : string) : option (Z * string) :=
  if (String.length s <? 4)%nat || negb (isDigit0 s) then None
  else match leadingDigits 0 (String.substring 0 4 s) with
       | Some y => Some (y, String.substring 4 (String.length s - 4) s)
       | None => None
       end.

(** [cutspace]: drop the leading spaces. *)
Fixpoint cutspace (s : string) : string :=
  match s with
  | String c s' => if Ascii.eqb c " " then cutspace s' else s
  | EmptyString => s
  end.

(** [skip(value, prefix)] for a one-byte [prefix] other than a space. *)
Definition skipByte (value : string) (c : ascii) : option string :=
  match value with
  | String c' rest => if Ascii.eqb c' c then Some rest else None
  | EmptyString => None
  end.

(** [skip(value, " ")]: a space of the layout stands for any run of spaces,
    and for nothing at the end of the value. *)
Definition skipSpace (value : string) : option string :=
  match value with
  | String c _ => if Ascii.eqb c " " then Some (cutspace value) else None
  | EmptyString => Some value
  end.

Definition commaOrPeriod (c : ascii) : bool := Ascii.eqb c "." || Ascii.eqb c ",".

(** The digits at the front of [s] and what follows them. *)
Fixpoint spanDigits (s : string) : string * string :=
  match s with
  | String c s' =>
      if isDigitByte c then let '(d, r) := spanDigits s' in (String c d, r)
      else (EmptyString, s)
  | EmptyString => (EmptyString, s)
  end.

(** [parseNanoseconds(value, n)] on the digits after the separator: at most
    nine digits count, scaled to nanoseconds. *)
Definition parseNanoseconds (digits : string) : Z :=
  let d := String.substring 0 9 digits in
  match leadingDigits 0 d with
  | Some ns => ns * 10 ^ (9 - Z.of_nat (String.length d))
  | None => 0
  end.

(** A fractional second in the value that the layout does not have:
    [",ddd"] or [".ddd"] right after the seconds is read as nanoseconds. *)
Definition fracSecond (value : string) : Z * string :=
  match value with
  | String c0 (String c1 _ as rest) =>
      if commaOrPeriod c0 && isDigitByte c1
      then let '(d, r) := spanDigits rest in (parseNanoseconds d, r)
      else (0, value)
  | _ => (0, value)
  end.

Definition orBad {A} (elem : string) (o : option A) : result ParseError A :=
  match o with
  | Some a => Ok a
  | None => Err (errBad elem)
  end.

Definition checkRange (what : string) (lo x hi : Z) : result ParseError unit :=
  if (x <? lo) || (hi <? x) then Err (errRange what) else Ok tt.

(** [time.Parse(time.DateTime, value)]. *)
Definition Parse (value : string) : result ParseError Time :=
  let? (year, value) := orBad "2006" (getLongYear value) in
  let? value := orBad "-" (skipByte value "-") in
  let? (month, value) := orBad "01" (getnum value true) in
  let? _ := checkRange "month" 1 month 12 in
  let? value := orBad "-" (skipByte value "-") in
  let? (day, value) := orBad "02" (getnum value true) in
  let? value := orBad " " (skipSpace value) in
  let? (hour, value) := orBad "15" (getnum value false) in
  let? _ := checkRange "hour" 0 hour 23 in
  let? value := orBad ":" (skipByte value ":") in
  let? (min, value) := orBad "04" (getnum value true) in
  let? _ := checkRange "minute" 0 min 59 in
  let? value := orBad ":" (skipByte value ":") in
  let? (sec, value) := orBad "05" (getnum value true) in
  let? _ := checkRange "second" 0 sec 59 in
  let '(nsec, value) := fracSecond value in
  match value with
  | String _ _ => Err (errExtraText value)
  | EmptyString =>
      if (day <? 1) || (daysIn month year <? day) then Err errDayOutOfRange
      else Ok (Date year month day hour min sec nsec)
  end.

(** *** Formatting with the layout ["2006-01-02 15:04:05"] *)

Fixpoint zeros (n : nat) : string :=
  match n with
  | O => EmptyString
  | S n' => String "0" (zeros n')
  end.

(** [appendInt(b, x, width)]: a minus sign for a negative [x], then its
    decimal digits padded with zeros to [width]. *)
Definition appendInt (x : Z) (width : nat) : string :=
  let u := Z.abs x in
  let sign := if x <? 0 then "-" else "" in
  let digits :=
    if (width =? 2)%nat && (u <? 100) then
      String (digitChar (u / 10)) (String (digitChar (u mod 10)) EmptyString)
    else if (width =? 4)%nat && (u <? 10000) then
      String (digitChar (u / 100 / 10)) (String (digitChar (u / 100 mod 10))
        (String (digitChar (u mod 100 / 10)) (String (digitChar (u mod 100 mod 10)) EmptyString)))
    else
      let d := utod u in
      zeros (width - String.length d) +:+ d in
  sign +:+ digits.

(** [t.Format(time.DateTime)] for a time in UTC. *)
Definition Format (t : Time) : string :=
  let '(year, month, day) := absDate (sec t / secondsPerDay) in
  let '(hour, min, s) := absClock (sec t) in
  appendInt year 4 +:+ "-" +:+ appendInt month 2 +:+ "-" +:+ appendInt day 2 +:+ " " +:+
  appendInt hour 2 +:+ ":" +:+ appendInt min 2 +:+ ":" +:+ appendInt s 2.

End Time.

(** ** Package [strconv]: [ParseFloat(s, 64)] and the verb [%.2f] *)

Module Strconv.

Inductive NumError : Type := ErrSyntax | ErrRange.

(** [lower(c)] is [c | ('x' - 'X')]. *)
Definition lower (c : ascii) : ascii := ascii_of_N (N.lor (N_of_ascii c) 32).

Fixpoint commonPrefixLenIgnoreCase (s prefix : string) : nat :=
  match s, prefix with
  | String c s', String p prefix' =>
      if Ascii.eqb (Strings.lowerByte c) p
      then S (commonPrefixLenIgnoreCase s' prefix') else O
  | _, _ => O
  end.

(** The case ['i', 'I'] of [special]: ["inf"] or ["infinity"] at the front
    of [s]; anything between the two only consumes ["inf"]. *)
Definition infinityPrefix (neg : bool) (nsign : nat) (s : string) : option (float * nat) :=
  let n := commonPrefixLenIgnoreCase s "infinity" in
  let n := if (3 <? n)%nat && (n <? 8)%nat then 3%nat else n in
  if (n =? 3)%nat || (n =? 8)%nat
  then Some (if neg then neg_infinity else infinity, (nsign + n)%nat)
  else None.

(** [special(s)]: the value and the number of bytes consumed. *)
Definition special (s : string) : option (float * nat) :=
  match s with
  | EmptyString => None
  | String c rest =>
      if Ascii.eqb c "+" then infinityPrefix false 1 rest
      else if Ascii.eqb c "-" then infinityPrefix true 1 rest
      else if Ascii.eqb c "i" || Ascii.eqb c "I" then infinityPrefix false 0 s
      else if Ascii.eqb c "n" || Ascii.eqb c "N" then
        if (commonPrefixLenIgnoreCase s "nan" =? 3)%nat then Some (nan, 3%nat) else None
      else None
  end.

(** The state of the digit loop of [readFloat].  The mantissa is kept
    exact: Go keeps its first 19 digits with a truncation flag and converts
    the whole literal again when the flag matters. *)
Record digits : Type := mkDigits {
  sawdot : bool; sawdigits : bool; nd : Z; dp : Z; mantissa : Z; underscores : bool
}.

Definition isHexLetter (c : ascii) : bool :=
  let n := N_of_ascii (lower c) in ((97 <=? n) && (n <=? 102))%N.

Definition hexLetterVal (c : ascii) : Z := Z.of_N (N_of_ascii (lower c)) - 97 + 10.

Fixpoint readDigits (hex : bool) (st : digits) (s : string) : digits * string :=
  match s with
  | EmptyString => (st, s)
  | String c s' =>
      if Ascii.eqb c "_" then
        readDigits hex (mkDigits (sawdot st) (sawdigits st) (nd st) (dp st) (mantissa st) true) s'
      else if Ascii.eqb c "." then
        if sawdot st then (st, s)
        else readDigits hex (mkDigits true (sawdigits st) (nd st) (nd st) (mantissa st) (underscores st)) s'
      else if isDigitByte c then
        if Ascii.eqb c "0" && (nd st =? 0) then
          readDigits hex (mkDigits (sawdot st) true (nd st) (dp st - 1) (mantissa st) (underscores st)) s'
        else
          readDigits hex (mkDigits (sawdot st) true (nd st + 1) (dp st)
                            (mantissa st * (if hex then 16 else 10) + digitVal c) (underscores st)) s'
      else if hex && isHexLetter c then
        readDigits hex (mkDigits (sawdot st) true (nd st + 1) (dp st)
                          (mantissa st * 16 + hexLetterVal c) (underscores st)) s'
      else (st, s)
  end.

(** The digits of the exponent; the exponent stops growing at 10000. *)
Fixpoint readExpDigits (e : Z) (under : bool) (s : string) : Z * bool * string :=
  match s with
  | EmptyString => (e, under, s)
  | String c s' =>
      if isDigitByte c then
        readExpDigits (if e <? 10000 then e * 10 + digitVal c else e) under s'
      else if Ascii.eqb c "_" then readExpDigits e true s'
      else (e, under, s)
  end.

(** [underscoreOK]: an underscore only between digits, or between the base
    prefix and a digit.  [saw] is the last byte seen: ["0"] for a digit or
    base prefix, ["_"] for an underscore, ["!"] for anything else. *)
Fixpoint underscoreLoop (hex : bool) (saw : ascii) (s : string) : bool :=
  match s with
  | EmptyString => negb (Ascii.eqb saw "_")
  | String c s' =>
      if isDigitByte c || (hex && isHexLetter c) then underscoreLoop hex "0" s'
      else if Ascii.eqb c "_" then
        if Ascii.eqb saw "0" then underscoreLoop hex "_" s' else false
      else if Ascii.eqb saw "_" then false
      else underscoreLoop hex "!" s'
  end.

Definition underscoreOK (s : string) : bool :=
  let s := match s with
           | String c s' => if Ascii.eqb c "-" || Ascii.eqb c "+" then s' else s
           | EmptyString => s
           end in
  match s with
  | String c0 (String c1 s') =>
      let l := lower c1 in
      if Ascii.eqb c0 "0" && (Ascii.eqb l "b" || Ascii.eqb l "o" || Ascii.eqb l "x")
      then underscoreLoop (Ascii.eqb l "x") "0" s'
      else underscoreLoop false "^" s
  | _ => underscoreLoop false "^" s
  end.

(** What [readFloat] returns: the value is [mantissa * 10 ^ exp], or
    [mantissa * 2 ^ exp] for a hexadecimal literal. *)
Record floatLit : Type := mkLit { lit_mantissa : Z; lit_exp : Z; lit_neg : bool; lit_hex : bool }.

(** The optional exponent of [readFloat]: the new [dp], the underscore flag
    and the rest, or [None] for a malformed exponent. *)
Definition readExponent (hex : bool) (dp : Z) (under : bool) (s : string)
  : option (Z * bool * string) :=
  match s with
  | String c s1 =>
      if Ascii.eqb (lower c) (if hex then "p" else "e")%char then
        match s1 with
        | EmptyString => None
        | String c1 s2 =>
            let '(esign, s3) :=
              if Ascii.eqb c1 "+" then (1, s2)
              else if Ascii.eqb c1 "-" then (-1, s2) else (1, s1) in
            match s3 with
            | String c3 _ =>
                if isDigitByte c3 then
                  let '(e, under, rest) := readExpDigits 0 under s3 in
                  Some (dp + e * esign, under, rest)
                else None
            | EmptyString => None
            end
        end
      else if hex then None else Some (dp, under, s)
  | EmptyString => if hex then None else Some (dp, under, s)
  end.

(** [readFloat(s)]: the literal at the front of [s] and the bytes after it. *)
Definition readFloat (s : string) : option (floatLit * string) :=
  match s with
  | EmptyString => None
  | String c s' =>
      let '(neg, s1) :=
        if Ascii.eqb c "+" then (false, s')
        else if Ascii.eqb c "-" then (true, s') else (false, s) in
      let '(hex, s2) :=
        match s1 with
        | String c0 (String c1 (String _ _ as s2)) =>
            if Ascii.eqb c0 "0" && Ascii.eqb (lower c1) "x" then (true, s2) else (false, s1)
        | _ => (false, s1)
        end in
      let '(st, s3) := readDigits hex (mkDigits false false 0 0 0 false) s2 in
      if negb (sawdigits st) then None
      else
        let dp := if sawdot st then dp st else nd st in
        let dp := if hex then dp * 4 else dp in
        let ndMant := if hex then nd st * 4 else nd st in
        match readExponent hex dp (underscores st) s3 with
        | None => None
        | Some (dp, under, rest) =>
            let exp := if mantissa st =? 0 then 0 else dp - ndMant in
            let consumed := String.substring 0 (String.length s - String.length rest) s in
            if under && negb (underscoreOK consumed) then None
            else Some (mkLit (mantissa st) exp neg hex, rest)
        end
  end.

(** The float64 nearest to the literal, ties to even; a literal that rounds
    to an infinity is a range error. *)
Definition roundLit (l : floatLit) : result NumError float :=
  match lit_mantissa l with
  | Zpos m =>
      let r :=
        if lit_hex l then binary_round prec emax (lit_neg l) m (lit_exp l)
        else if 0 <=? lit_exp l then
          binary_round prec emax (lit_neg l) (m * Z.to_pos (10 ^ lit_exp l)) 0
        else
          let '(q, e, loc) :=
            SFdiv_core_binary prec emax (Zpos m) 0 (10 ^ (- lit_exp l)) 0 in
          binary_round_aux prec emax (lit_neg l) q e loc in
      match r with
      | S754_infinity _ => Err ErrRange
      | _ => Ok (SF2Prim r)
      end
  | _ => Ok (if lit_neg l then neg_zero else zero)
  end.

(** [strconv.ParseFloat(s, 64)]: the whole of [s] has to be consumed. *)
Definition ParseFloat (s : string) : result NumError float :=
  match special s with
  | Some (f, n) => if (n =? String.length s)%nat then Ok f else Err ErrSyntax
  | None =>
      match readFloat s with
      | Some (l, EmptyString) => roundLit l
      | _ => Err ErrSyntax
      end
  end.

(** [num / den] rounded to the nearest integer, ties to even. *)
Definition roundHalfEven (num den : Z) : Z :=
  let q := num / den in
  match 2 * (num mod den) ?= den with
  | Lt => q
  | Gt => q + 1
  | Eq => if Z.even q then q else q + 1
  end.

(** The verb [%.2f]: the exact value of the float rounded to two decimals,
    ties to even. *)
Definition formatFixed2 (f : float) : string :=
  match Prim2SF f with
  | S754_nan => "NaN"
  | S754_infinity s => if s then "-Inf" else "+Inf"
  | S754_zero s => (if s then "-" else "") +:+ "0.00"
  | S754_finite s m e =>
      let c := if 0 <=? e then Zpos m * 2 ^ e * 100
               else roundHalfEven (Zpos m * 100) (2 ^ (- e)) in
      (if s then "-" else "") +:+ utod (c / 100) +:+ "." +:+
      String (digitChar (c mod 100 / 10)) (String (digitChar (c mod 10)) EmptyString)
  end.

End Strconv.

(** ** Package [bufio]: a [Scanner] with the split function [ScanLines] *)

Module Bufio.

Definition MaxScanTokenSize : Z := 64 * 1024.

Definition newline : ascii := "010"%char.
Definition carriageReturn : ascii := "013"%char.

(** [dropCR]: drop one carriage return at the end. *)
Fixpoint dropCR (data : string) : string :=
  match data with
  | EmptyString => data
  | String c EmptyString => if Ascii.eqb c carriageReturn then EmptyString else data
  | String c rest => String c (dropCR rest)
  end.

(** The tokens of [Scan] over the whole input: every line without its end
    of line marker, also a last line that has no newline; the scanner
    stops at a line that does not fit its buffer. *)
Fixpoint scan (fuel : nat) (data : string) : list string :=
  match fuel with
  | O => []
  | S fuel' =>
      match data with
      | EmptyString => []
      | _ =>
          match Strings.cut newline data with
          | Some (line, rest) =>
              if Z.of_nat (String.length line) <? MaxScanTokenSize
              then dropCR line :: scan fuel' rest else []
          | None =>
              if Z.of_nat (String.length data) <? MaxScanTokenSize
              then [dropCR data] else []
          end
      end
  end.

Definition lines (data : string) : list string := scan (String.length data) data.

End Bufio.

(** ** Package [sort] *)

Fixpoint insertInt (x : Z) (l : list Z) : list Z :=
  match l with
  | [] => [x]
  | y :: l' => if x <=? y then x :: l else y :: insertInt x l'
  end.

(** [sort.Ints]: the slice in increasing order. *)
Fixpoint sortInts (l : list Z) : list Z :=
  match l with
  | [] => []
  | x :: l' => insertInt x (sortInts l')
  end.

(** ** The program *)

(** [s[i]] for a Go [int] index: [None] stands for the run-time panic
    "index out of range". *)
Definition index {A} (s : list A) (i : Z) : option A :=
  if i <? 0 then None else s !! Z.to_nat i.

(** [len(s)] as an [int]. *)
Definition len {A} (s : list A) : Z := Z.of_nat (length s).

Record LogEntry : Type := mkLogEntry {
  time : Time.Time;
  level : string;
  message : string
}.

(** [LogEntry{}]. *)
Definition zeroLogEntry : LogEntry := mkLogEntry Time.zero "" "".

(** The two errors of [NewLogEntry]; the second wraps the error of
    [time.Parse] and reads ["invalid log time: ..."]. *)
Inductive error : Type :=
| errInvalidLogEntry
| errInvalidLogTime (e : Time.ParseError).

Definition errorTag (e : error) : string :=
  match e with
  | errInvalidLogEntry => "invalid log entry"
  | errInvalidLogTime _ => "invalid log time"
  end.

(** [NewLogEntry] returns a pair, as in Go: the entry and the error, which
    is [None] for [nil]. *)
Definition NewLogEntry (line : string) : LogEntry * option error :=
  let logLine := Strings.SplitN line " " 4 in
  if len logLine <? 4 then (zeroLogEntry, Some errInvalidLogEntry)
  else
    let logDate := nth 0 logLine "" in
    let logTime := nth 1 logLine "" in
    let level := nth 2 logLine "" in
    let msg := nth 3 logLine "" in
    match Time.Parse (logDate +:+ " " +:+ logTime) with
    | Err e => (zeroLogEntry, Some (errInvalidLogTime e))
    | Ok t => (mkLogEntry t level msg, None)
    end.

(** The loop of [ReadFile] over the lines of the scanner, with the slice
    [entries] and the errors written to the log as state. *)
Fixpoint readLoop (lines : list string) (entries : list LogEntry) (logged : list error)
  : list LogEntry * list error :=
  match lines with
  | [] => (entries, logged)
  | line :: rest =>
      let '(entry, err) := NewLogEntry line in
      let logged := match err with
                    | Some e => logged ++ [e]
                    | None => logged
                    end in
      readLoop rest (entries ++ [entry]) logged
  end.

(** [ReadFile] on a file with the given content: the entries returned and
    the errors logged. *)
Definition ReadFile (f : string) : list LogEntry * list error :=
  readLoop (Bufio.lines f) [] [].

(** The report.  [MsgFrequency] is a map that has been made, as [Analyze]
    makes it; the nil map of [AnalysisReport{}], on which the last
    statement of [Add] panics, is not a value of this type. *)
Record AnalysisReport : Type := mkReport {
  TotalEntries : Z;
  Info : Z;
  Warn : Z;
  Error : Z;
  Debug : Z;
  ResponseTime : list float;
  MsgFrequency : gmap string Z
}.

Definition LevelInfo : string := "info".
Definition LevelWarn : string := "warn".
Definition LevelError : string := "error".
Definition LevelDebug : string := "debug".

(** The report [Analyze] starts from. *)
Definition newReport : AnalysisReport := mkReport 0 0 0 0 0 [] ∅.

(** [float64(n)] for an [int]. *)
Definition floatOfInt (n : Z) : float := SF2Prim (binary_normalize prec emax n 0 false).

Definition FilterFunc : Type := LogEntry -> bool.

Section Program.

(** The non-ASCII path of [strings.ToLower]. *)
Variable mapUnicodeToLower : string -> string.

Definition ToLower : string -> string := Strings.ToLower mapUnicodeToLower.

(** The response time recorded for a message, if any. *)
Definition responseTime (message : string) : option float :=
  if Strings.HasSuffix message "ms" then
    let words := Strings.Split (Strings.TrimSuffix message " ms") " " in
    match index words (len words - 1) with
    | Some respTime =>
        match Strconv.ParseFloat respTime with
        | Ok n => Some n
        | Err _ => None
        end
    | None => None
    end
  else None.

(** The statements of [Add], one by one. *)
Definition addTotal (r : AnalysisReport) : AnalysisReport :=
  mkReport (GoInt.incr (TotalEntries r)) (Info r) (Warn r) (Error r) (Debug r)
           (ResponseTime r) (MsgFrequency r).

Definition addLevel (r : AnalysisReport) (lv : string) : AnalysisReport :=
  if String.eqb lv LevelInfo then
    mkReport (TotalEntries r) (GoInt.incr (Info r)) (Warn r) (Error r) (Debug r)
             (ResponseTime r) (MsgFrequency r)
  else if String.eqb lv LevelWarn then
    mkReport (TotalEntries r) (Info r) (GoInt.incr (Warn r)) (Error r) (Debug r)
             (ResponseTime r) (MsgFrequency r)
  else if String.eqb lv LevelError then
    mkReport (TotalEntries r) (Info r) (Warn r) (GoInt.incr (Error r)) (Debug r)
             (ResponseTime r) (MsgFrequency r)
  else if String.eqb lv LevelDebug then
    mkReport (TotalEntries r) (Info r) (Warn r) (Error r) (GoInt.incr (Debug r))
             (ResponseTime r) (MsgFrequency r)
  else r.

Definition addResponseTime (r : AnalysisReport) (message : string) : AnalysisReport :=
  match responseTime message with
  | Some n =>
      mkReport (TotalEntries r) (Info r) (Warn r) (Error r) (Debug r)
               (ResponseTime r ++ [n]) (MsgFrequency r)
  | None => r
  end.

Definition addFrequency (r : AnalysisReport) (message : string) : AnalysisReport :=
  mkReport (TotalEntries r) (Info r) (Warn r) (Error r) (Debug r) (ResponseTime r)
           (<[message := GoInt.incr (default 0 (MsgFrequency r !! message))]> (MsgFrequency r)).

Definition Add (report : AnalysisReport) (entry : LogEntry) : AnalysisReport :=
  let report := addTotal report in
  let report := addLevel report (ToLower (level entry)) in
  let report := addResponseTime report (message entry) in
  addFrequency report (message entry).

(** The inner loop of [Analyze]: [continue] goes on with the next filter,
    which is what the loop does anyway. *)
Fixpoint runFilters (filter : list FilterFunc) (entry : LogEntry) : unit :=
  match filter with
  | [] => tt
  | skip :: rest =>
      if skip entry then runFilters rest entry
      else runFilters rest entry
  end.

Definition Analyze (entries : list LogEntry) (filter : list FilterFunc) : AnalysisReport :=
  fold_left (fun report entry =>
               match runFilters filter entry with
               | tt => Add report entry
               end) entries newReport.

(** The three filters [main] builds from its flags. *)
Definition levelFilter (levels : gset string) : FilterFunc :=
  fun entry => negb (bool_decide (ToLower (level entry) ∈ levels)).

Definition startFilter (startTime : Time.Time) : FilterFunc :=
  fun entry => negb (Time.IsZero startTime) && Time.Before (time entry) startTime.

Definition endFilter (endTime : Time.Time) : FilterFunc :=
  fun entry => negb (Time.IsZero endTime) && Time.After (time entry) endTime.

Definition mainFilters (levels : gset string) (startTime endTime : Time.Time)
  : list FilterFunc :=
  [levelFilter levels; startFilter startTime; endFilter endTime].

End Program.

(** *** [Print] *)

Inductive outcome : Type :=
| Returned
| Panicked.   (* index out of range *)

(** The average line of [Print], when there is one. *)
Definition average (times : list float) : float :=
  (fold_left PrimFloat.add times 0 / floatOfInt (len times))%float.

Definition averageLine (times : list float) : list string :=
  if len times >? 0
  then ["Average Response Time: " +:+ Strconv.formatFixed2 (average times) +:+ " ms"]
  else [].

(** The second loop over the map: [freqMsg] after the pairs visited, or
    [None] when [freqCount[len(freqCount)-1]] is out of range. *)
Fixpoint pickFrequent (freqCount : list Z) (pairs : list (string * Z)) (freqMsg : string)
  : option string :=
  match pairs with
  | [] => Some freqMsg
  | (k, v) :: rest =>
      match index freqCount (len freqCount - 1) with
      | None => None
      | Some top => pickFrequent freqCount rest (if v =? top then k else freqMsg)
      end
  end.

(** The most frequent message of [Print].  A Go map is visited in an
    unspecified order: [keys1] is the order of the first loop and [pairs2]
    that of the second. *)
Definition mostFrequent (freq : gmap string Z) (keys1 : list string)
    (pairs2 : list (string * Z)) : option string :=
  let freqCount := map (fun k => default 0 (freq !! k)) keys1 in
  pickFrequent (sortInts freqCount) pairs2 "".

(** [Print]: the lines written to standard output and how the call ends. *)
Definition Print (r : AnalysisReport) (keys1 : list string) (pairs2 : list (string * Z))
  : list string * outcome :=
  let out :=
    ["Total Log Entries: " +:+ formatInt (TotalEntries r);
     "INFO: " +:+ formatInt (Info r);
     "DEBUG: " +:+ formatInt (Debug r);
     "WARN: " +:+ formatInt (Warn r);
     "ERROR: " +:+ formatInt (Error r)] ++ averageLine (ResponseTime r) in
  match mostFrequent (MsgFrequency r) keys1 pairs2 with
  | Some freqMsg => (out ++ ["Most frequent mesage: '" +:+ freqMsg +:+ "'"], Returned)
  | None => (out, Panicked)
  end.

(** The orders in which a [range] loop can visit a map. *)
Definition keyOrder (freq : gmap string Z) (keys : list string) : Prop :=
  Permutation keys (map fst (map_to_list freq)).

Definition pairOrder (freq : gmap string Z) (pairs : list (string * Z)) : Prop :=
  Permutation pairs (map_to_list freq).

(** *** [isLogFile] *)

(** [strings.Cut(s, sep)] for a one-byte separator: the text before and
    after the first [sep] and whether there is one; without it, all of [s]
    and the empty string. *)
Definition Cut (s : string) (sep : ascii) : string * string * bool :=
  match Strings.cut sep s with
  | Some (before, after) => (before, after, true)
  | None => (s, EmptyString, false)
  end.

Definition isLogFile (file : string) : bool :=
  let '(_, ext, _) := Cut file "." in
  if String.eqb ext "log" then true
  else if String.eqb ext "txt" then true
  else false.

(** *** [main] *)

(** The command line after [flag.Parse]: the values of [-level], [-start]
    and [-end], and the remaining arguments. *)
Record Flags : Type := mkFlags {
  flagLevel : string;
  flagStart : string;
  flagEnd : string;
  flagArgs : list string
}.

(** The calls of [log.Fatalln] and [log.Fatalf] in [main]. *)
Inductive fatal : Type :=
| fatalNoFileName
| fatalNotLogFile (file : string)
| fatalStartTime (e : Time.ParseError)
| fatalEndTime (e : Time.ParseError)
| fatalOpen
| fatalNoEntries.

Definition fatalMessage (e : fatal) : string :=
  match e with
  | fatalNoFileName => "arg: file name is required"
  | fatalNotLogFile file => "arg: " +:+ file +:+ " is not a log file"
  | fatalStartTime _ => "invalid start time: "
  | fatalEndTime _ => "invalid end time: "
  | fatalOpen => "failed to open file: "
  | fatalNoEntries => "no log entries found"
  end.

(** A run of [main] that reaches its end: the errors logged by [ReadFile],
    the lines printed and how [Print] ended. *)
Record run : Type := mkRun {
  logged : list error;
  stdout : list string;
  ending : outcome
}.

(** The set [levels] after the loop over the comma-separated fields of the
    flag [-level]. *)
Definition levelSet (level : string) : gset string :=
  list_to_set (Strings.Split level ",").

(** [startTime] and [endTime]: the zero time unless the flag is given, and
    then what [time.Parse(time.DateTime, ...)] returns. *)
Definition timeFlag (value : string) : result Time.ParseError Time.Time :=
  if String.eqb value "" then Ok Time.zero else Time.Parse value.

Section Main.

(** The non-ASCII path of [strings.ToLower]. *)
Variable mapUnicodeToLower : string -> string.

(** [main], for a file system that opens [file] as [openFile file] ([None]
    when [os.OpenFile] fails) and for the two orders in which [Print]
    visits the map. *)
Definition main (fl : Flags) (openFile : string -> option string)
    (keys1 : list string) (pairs2 : list (string * Z)) : result fatal run :=
  let file := match flagArgs fl with
              | arg0 :: _ => arg0
              | [] => EmptyString
              end in
  if String.eqb file "" then Err fatalNoFileName
  else if negb (isLogFile file) then Err (fatalNotLogFile file)
  else
    let levels := levelSet (flagLevel fl) in
    match timeFlag (flagStart fl) with
    | Err e => Err (fatalStartTime e)
    | Ok startTime =>
        match timeFlag (flagEnd fl) with
        | Err e => Err (fatalEndTime e)
        | Ok endTime =>
            let filter := mainFilters mapUnicodeToLower levels startTime endTime in
            match openFile file with
            | None => Err fatalOpen
            | Some f =>
                let '(logs, logged) := ReadFile f in
                if len logs =? 0 then Err fatalNoEntries
                else
                  let report := Analyze mapUnicodeToLower logs filter in
                  let '(out, o) := Print report keys1 pairs2 in
                  Ok (mkRun logged out o)
            end
        end
    end.

End Main.

(** ** Vocabulary of the properties *)

(** The sum of the four per-level counters. *)
Definition levelSum (r : AnalysisReport) : Z := Info r + Warn r + Error r + Debug r.

(** A report whose total is [n] and whose counters are consistent with it. *)
Definition counted (r : AnalysisReport) (n : Z) : Prop :=
  TotalEntries r = n /\
  0 <= Info r /\ 0 <= Warn r /\ 0 <= Error r /\ 0 <= Debug r /\
  levelSum r <= TotalEntries r.

(** From [r] to [r'] at most one of the four counters changes, by one. *)
Definition levelStep (r r' : AnalysisReport) : Prop :=
  (Info r' = Info r + 1 /\ Warn r' = Warn r /\ Error r' = Error r /\ Debug r' = Debug r) \/
  (Info r' = Info r /\ Warn r' = Warn r + 1 /\ Error r' = Error r /\ Debug r' = Debug r) \/
  (Info r' = Info r /\ Warn r' = Warn r /\ Error r' = Error r + 1 /\ Debug r' = Debug r) \/
  (Info r' = Info r /\ Warn r' = Warn r /\ Error r' = Error r /\ Debug r' = Debug r + 1) \/
  (Info r' = Info r /\ Warn r' = Warn r /\ Error r' = Error r /\ Debug r' = Debug r).

(** The last byte of a string. *)
Fixpoint lastByte (s : string) : option ascii :=
  match s with
  | EmptyString => None
  | String c EmptyString => Some c
  | String _ s' => lastByte s'
  end.

(** The last of the space-delimited tokens of a string. *)
Definition lastToken (s : string) : string := List.last (Strings.Split s " ") "".

(** A line of the shape [Average Response Time: <value> ms]. *)
Definition isAverageLine (line : string) : Prop :=
  exists value, line = "Average Response Time: " +:+ value +:+ " ms".

(** A month and a day of that month, in a leap year or not. *)
Definition validDay (leap : bool) (m d : Z) : Prop :=
  1 <= m <= 12 /\
  1 <= d <= (if (m =? 2) && leap then 29 else Time.daysBefore m - Time.daysBefore (m - 1)).

(** The day of the year of a month and day, counted from 0. *)
Definition ydayOf (leap : bool) (m d : Z) : Z :=
  Time.daysBefore (m - 1) + (if leap && (3 <=? m) then 1 else 0) + (d - 1).

(** A float that is neither NaN nor an infinity. *)
Definition isFinite (f : float) : bool :=
  match Prim2SF f with
  | S754_zero _ | S754_finite _ _ _ => true
  | _ => false
  end.

(** The number of entries that satisfy [p]. *)
Fixpoint countIf (p : LogEntry -> bool) (entries : list LogEntry) : Z :=
  match entries with
  | [] => 0
  | e :: rest => (if p e then 1 else 0) + countIf p rest
  end.

(** A string with a byte in [A-Z]. *)
Fixpoint hasUpper (s : string) : bool :=
  match s with
  | EmptyString => false
  | String c s' =>
      let n := N_of_ascii c in ((65 <=? n) && (n <=? 90))%N || hasUpper s'
  end.

(** The first argument of the program. *)
Definition fileArg (fl : Flags) : string :=
  match flagArgs fl with
  | arg0 :: _ => arg0
  | [] => EmptyString
  end.

(** The sum of the frequencies of a map. *)
Definition sumFrequencies (freq : gmap string Z) : Z :=
  map_fold (fun _ v acc => v + acc) 0 freq.

(** A level that has a counter of its own. *)
Definition knownLevel (lv : string) : bool :=
  String.eqb lv "info" || String.eqb lv "warn" || String.eqb lv "error" ||
  String.eqb lv "debug".

(** The lines of an input, by its newlines: the text in front of each
    newline and, when the input does not end with a newline, the text after
    the last one.  The empty input has no line. *)
Definition inputLines (data : string) : list string :=
  let parts := Strings.Split data Bufio.newline in
  if String.eqb (List.last parts "") "" then removelast parts else parts.

(** A line that fits the buffer of the scanner. *)
Definition fitsScanner (line : string) : bool :=
  Z.of_nat (String.length line) <? Bufio.MaxScanTokenSize.

(** The longest prefix whose elements all satisfy [p]. *)
Fixpoint takeWhile {A} (p : A -> bool) (l : list A) : list A :=
  match l with
  | [] => []
  | x :: rest => if p x then x :: takeWhile p rest else []
  end.

(** [n] times the byte [c]. *)
Fixpoint repeatByte (n : nat) (c : ascii) : string :=
  match n with
  | O => EmptyString
  | S n' => String c (repeatByte n' c)
  end.

(** The sum of whole numbers. *)
Definition sumZ (vs : list Z) : Z := fold_left Z.add vs 0.

(** The whole number a float stands for, when it is one. *)
Definition integerValue (f : float) : option Z :=
  match Prim2SF f with
  | S754_zero _ => Some 0
  | S754_finite s m e =>
      if 0 <=? e then Some (cond_Zopp s (Zpos m * 2 ^ e))
      else if Zpos m mod 2 ^ (- e) =? 0 then Some (cond_Zopp s (Zpos m / 2 ^ (- e)))
      else None
  | _ => None
  end.

(** The binary64 number of a whole number below [2^53] in magnitude: its
    sign, and its bits moved up to a mantissa of 53 bits. *)
Definition intSF (v : Z) : spec_float :=
  match v with
  | Z0 => S754_zero false
  | _ => S754_finite (v <? 0) (Z.to_pos (Z.abs v * 2 ^ (52 - Z.log2 (Z.abs v))))
                     (Z.log2 (Z.abs v) - 52)
  end.

Definition isNaN (f : float) : bool :=
  match Prim2SF f with
  | S754_nan => true
  | _ => false
  end.

(** [c] is the integer nearest to [num / den], the even one when two
    integers are as near. *)
Definition nearestEven (num den c : Z) : Prop :=
  Z.abs (2 * (c * den - num)) <= den /\
  (Z.abs (2 * (c * den - num)) = den -> Z.even c = true).

(** The number that decimal digits write, in front of them [acc]. *)
Fixpoint readDecimal (s : string) (acc : Z) : option Z :=
  match s with
  | EmptyString => Some acc
  | String c rest =>
      if isDigitByte c then readDecimal rest (acc * 10 + digitVal c) else None
  end.

(** Every number of [vs] and every running sum that starts from [acc] is
    below [2^53] in magnitude. *)
Fixpoint sumsExact (acc : Z) (vs : list Z) : bool :=
  match vs with
  | [] => true
  | v :: rest =>
      (Z.abs v <? 2 ^ 53) && (Z.abs (acc + v) <? 2 ^ 53) && sumsExact (acc + v) rest
  end.

(** * Properties *)

(** ** The models on concrete inputs *)

Example SplitN_ex :
  Strings.SplitN "2024-01-01 10:00:00 INFO started ok" " " 4
  = ["2024-01-01"; "10:00:00"; "INFO"; "started ok"].
Proof. reflexivity. Qed.

Example Split_empty : Strings.Split "" " " = [""].
Proof. reflexivity. Qed.

Example TrimSuffix_ex : Strings.TrimSuffix "request handled 123.45 ms" " ms" = "request handled 123.45".
Proof. reflexivity. Qed.

Example ToLower_ex f : Strings.ToLower f "WaRn" = "warn".
Proof. reflexivity. Qed.

Example Date_ex : Time.Date 2024 1 1 10 0 0 0 = Time.mkTime 63839700000 0.
Proof. reflexivity. Qed.

Example absDate_leap : Time.absDate (Time.sec (Time.Date 2024 2 29 0 0 0 0) / 86400) = (2024, 2, 29).
Proof. reflexivity. Qed.

Example absDate_dec31 : Time.absDate (Time.sec (Time.Date 2000 12 31 0 0 0 0) / 86400) = (2000, 12, 31).
Proof. reflexivity. Qed.

Example absDate_year0 : Time.absDate (Time.sec (Time.Date 0 3 1 0 0 0 0) / 86400) = (0, 3, 1).
Proof. reflexivity. Qed.

Example Parse_ex : Time.Parse "2024-01-01 10:00:00" = Ok (Time.Date 2024 1 1 10 0 0 0).
Proof. reflexivity. Qed.

Example Parse_short_hour : Time.Parse "2024-01-01 9:00:00" = Ok (Time.Date 2024 1 1 9 0 0 0).
Proof. reflexivity. Qed.

Example Parse_frac : Time.Parse "2024-01-01 10:00:00.5" = Ok (Time.Date 2024 1 1 10 0 0 500000000).
Proof. reflexivity. Qed.

Example Parse_feb30 : Time.Parse "2023-02-29 10:00:00" = Err Time.errDayOutOfRange.
Proof. reflexivity. Qed.

Example Format_ex : Time.Format (Time.Date 2024 1 1 9 0 0 0) = "2024-01-01 09:00:00".
Proof. reflexivity. Qed.

Example Format_zero : Time.Format Time.zero = "0001-01-01 00:00:00".
Proof. reflexivity. Qed.

Example appendInt_wide : Time.appendInt (-12345) 4 = "-12345" /\ Time.appendInt 7 3 = "007".
Proof. split; reflexivity. Qed.

Example ParseFloat_ex : Strconv.ParseFloat "123.45" = Ok 123.45%float.
Proof. reflexivity. Qed.

Example ParseFloat_forms :
  Strconv.ParseFloat "1e23" = Ok 1e23%float /\
  Strconv.ParseFloat "-0" = Ok neg_zero /\
  Strconv.ParseFloat "0x1p-2" = Ok 0.25%float /\
  Strconv.ParseFloat "1_000.5" = Ok 1000.5%float /\
  Strconv.ParseFloat ".5e1" = Ok 5%float /\
  Strconv.ParseFloat "Infinity" = Ok infinity /\
  Strconv.ParseFloat "nan" = Ok nan.
Proof. repeat split; reflexivity. Qed.

Example ParseFloat_errors :
  Strconv.ParseFloat "1e999" = Err Strconv.ErrRange /\
  Strconv.ParseFloat "5ms" = Err Strconv.ErrSyntax /\
  Strconv.ParseFloat "" = Err Strconv.ErrSyntax /\
  Strconv.ParseFloat "1__0" = Err Strconv.ErrSyntax /\
  Strconv.ParseFloat "0x1" = Err Strconv.ErrSyntax /\
  Strconv.ParseFloat "infin" = Err Strconv.ErrSyntax.
Proof. repeat split; reflexivity. Qed.

Example formatFixed2_ex :
  Strconv.formatFixed2 150%float = "150.00" /\
  Strconv.formatFixed2 123.45%float = "123.45" /\
  Strconv.formatFixed2 0.125%float = "0.12" /\
  Strconv.formatFixed2 0.375%float = "0.38" /\
  Strconv.formatFixed2 (-0.001)%float = "-0.00" /\
  Strconv.formatFixed2 1e21%float = "1000000000000000000000.00".
Proof. repeat split; vm_compute; reflexivity. Qed.

Example NewLogEntry_ex :
  NewLogEntry "2024-01-01 10:00:00 INFO started ok"
  = (mkLogEntry (Time.Date 2024 1 1 10 0 0 0) "INFO" "started ok", None).
Proof. reflexivity. Qed.

Example NewLogEntry_bad : NewLogEntry "bad line" = (zeroLogEntry, Some errInvalidLogEntry).
Proof. reflexivity. Qed.

Example lines_ex :
  Bufio.lines (String "a" (String Bufio.carriageReturn (String Bufio.newline
              (String Bufio.newline (String "b" EmptyString))))) = ["a"; ""; "b"].
Proof. reflexivity. Qed.

Example responseTime_ex f : responseTime "request handled 123.45 ms" = Some 123.45%float
  /\ responseTime "took 5ms" = None /\ responseTime "inf ms" = Some infinity
  /\ Add f newReport (mkLogEntry Time.zero "WARN" "x") = mkReport 1 0 1 0 0 [] {[ "x" := 1 ]}.
Proof. repeat split; reflexivity. Qed.

Example averageLine_ex : averageLine [100%float; 200%float] = ["Average Response Time: 150.00 ms"].
Proof. vm_compute. reflexivity. Qed.

Example sortInts_ex : sortInts [3; 1; 2; 1] = [1; 1; 2; 3].
Proof. reflexivity. Qed.

(** ** Integers *)

Lemma wrap_small x : GoInt.in_range x -> GoInt.wrap x = x.
Proof.
  unfold GoInt.in_range, GoInt.MinInt, GoInt.MaxInt, GoInt.wrap. intros H.
  rewrite Z.mod_small; lia.
Qed.

Lemma wrap_in_range x : GoInt.in_range (GoInt.wrap x).
Proof.
  unfold GoInt.in_range, GoInt.MinInt, GoInt.MaxInt, GoInt.wrap.
  pose proof (Z.mod_pos_bound (x + 2 ^ 63) (2 ^ 64)). lia.
Qed.

Lemma incr_small x : GoInt.MinInt <= x < GoInt.MaxInt -> GoInt.incr x = x + 1.
Proof.
  intros H. unfold GoInt.incr. apply wrap_small.
  unfold GoInt.in_range, GoInt.MinInt, GoInt.MaxInt in *. lia.
Qed.


Lemma len_app {A} (l1 l2 : list A) : len (l1 ++ l2) = len l1 + len l2.
Proof. unfold len. rewrite length_app. lia. Qed.

Lemma len_nonneg {A} (l : list A) : 0 <= len l.
Proof. unfold len. lia. Qed.

(** ** [Add] field by field *)

Ltac case_level :=
  repeat match goal with
         | |- context [String.eqb ?a ?b] => destruct (String.eqb_spec a b)
         end.

Section AddFacts.
Variable f : string -> string.

Lemma TotalEntries_Add r e : TotalEntries (Add f r e) = GoInt.incr (TotalEntries r).
Proof.
  unfold Add, addFrequency, addResponseTime.
  destruct (responseTime (message e)); unfold addLevel; case_level; reflexivity.
Qed.

Lemma ResponseTime_Add r e :
  ResponseTime (Add f r e) =
  match responseTime (message e) with
  | Some n => ResponseTime r ++ [n]
  | None => ResponseTime r
  end.
Proof.
  unfold Add, addFrequency, addResponseTime.
  destruct (responseTime (message e)); unfold addLevel; case_level; reflexivity.
Qed.

Lemma MsgFrequency_Add r e :
  MsgFrequency (Add f r e) =
  <[message e := GoInt.incr (default 0 (MsgFrequency r !! message e))]> (MsgFrequency r).
Proof.
  unfold Add, addFrequency, addResponseTime.
  destruct (responseTime (message e)); unfold addLevel; case_level; reflexivity.
Qed.

(** The four counters after [Add], by the lower-cased level. *)
Lemma levels_Add r e :
  let lv := ToLower f (level e) in
  Info (Add f r e) = (if decide (lv = "info") then GoInt.incr (Info r) else Info r) /\
  Warn (Add f r e) = (if decide (lv = "warn") then GoInt.incr (Warn r) else Warn r) /\
  Error (Add f r e) = (if decide (lv = "error") then GoInt.incr (Error r) else Error r) /\
  Debug (Add f r e) = (if decide (lv = "debug") then GoInt.incr (Debug r) else Debug r).
Proof.
  intros lv. unfold Add, addFrequency, addResponseTime. fold lv.
  unfold LevelInfo, LevelWarn, LevelError, LevelDebug.
  destruct (responseTime (message e)); unfold addLevel;
    unfold LevelInfo, LevelWarn, LevelError, LevelDebug; case_level;
    repeat match goal with
           | H : lv = _ |- _ => rewrite H
           end;
    repeat match goal with
           | |- context [decide ?P] => destruct (decide P); try congruence
           end; repeat split; reflexivity.
Qed.

Lemma runFilters_tt filter e : runFilters filter e = tt.
Proof. destruct (runFilters filter e). reflexivity. Qed.

Lemma Analyze_fold entries filter :
  Analyze f entries filter = fold_left (Add f) entries newReport.
Proof.
  unfold Analyze. generalize newReport.
  induction entries as [| e es IH]; intros r; [reflexivity |].
  cbn [fold_left]. rewrite IH. destruct (runFilters filter e). reflexivity.
Qed.

Lemma fold_Add_snoc entries e r :
  fold_left (Add f) (entries ++ [e]) r = Add f (fold_left (Add f) entries r) e.
Proof. rewrite fold_left_app. reflexivity. Qed.

End AddFacts.
(** ** Counting *)

Section Counting.
Variable f : string -> string.

Lemma Add_counted r e n :
  counted r n -> n < GoInt.MaxInt ->
  counted (Add f r e) (n + 1) /\ levelStep r (Add f r e).
Proof.
  unfold counted, levelStep, levelSum.
  intros (Ht & Hi & Hw & He & Hd & Hs) Hn.
  pose proof (levels_Add f r e) as HL. cbv zeta in HL.
  destruct HL as (Li & Lw & Le & Ld).
  rewrite TotalEntries_Add, Li, Lw, Le, Ld.
  assert (Hmin : GoInt.MinInt <= 0) by (unfold GoInt.MinInt; lia).
  rewrite (incr_small (TotalEntries r)) by lia.
  repeat match goal with
         | |- context [decide ?P] => destruct (decide P)
         end;
    try congruence; rewrite ?incr_small by lia; lia.
Qed.

Lemma fold_Add_counted entries :
  len entries <= GoInt.MaxInt ->
  counted (fold_left (Add f) entries newReport) (len entries).
Proof.
  induction entries as [| e es IH] using rev_ind; intros Hlen.
  - unfold counted, levelSum, newReport, len. cbn. lia.
  - rewrite len_app in *. change (len [e]) with 1 in *.
    rewrite fold_Add_snoc.
    apply Add_counted; [apply IH |]; lia.
Qed.

End Counting.

(** ** [Analyze] and the filters *)

(** C1: for every slice of entries and every list of filters, [Analyze]
    adds every entry to the report, whatever the filters answer: the report
    is the one obtained by calling [Add] on each entry in turn, and its
    [TotalEntries] is the length of the slice.  (The length of a Go slice
    is an [int], hence at most [MaxInt].) *)
Theorem C1_Analyze_passes_every_entry (f : string -> string)
    (entries : list LogEntry) (filter : list FilterFunc) :
  len entries <= GoInt.MaxInt ->
  Analyze f entries filter = fold_left (Add f) entries newReport /\
  TotalEntries (Analyze f entries filter) = len entries.
Proof.
  intros Hlen. split.
  - apply Analyze_fold.
  - rewrite Analyze_fold.
    destruct (fold_Add_counted f entries Hlen) as [Ht _]. exact Ht.
Qed.

(** Two entries that all three filters of [main] mark for exclusion (level
    not in the set, before the start, after the end) are counted all the
    same. *)
Lemma C1_witness :
  let entries := [mkLogEntry (Time.Date 2020 1 1 0 0 0 0) "DEBUG" "early";
                  mkLogEntry (Time.Date 2030 1 1 0 0 0 0) "ERROR" "late"] in
  let filter := mainFilters (fun s => s) {[ "info" ]}
                  (Time.Date 2024 1 1 0 0 0 0) (Time.Date 2024 12 31 0 0 0 0) in
  len entries <= GoInt.MaxInt /\
  (Analyze (fun s => s) entries filter = fold_left (Add (fun s => s)) entries newReport /\
   TotalEntries (Analyze (fun s => s) entries filter) = len entries).
Proof.
  intros entries filter.
  assert (H : len entries <= GoInt.MaxInt) by (vm_compute; discriminate).
  split; [exact H | exact (C1_Analyze_passes_every_entry (fun s => s) entries filter H)].
Defined.

(** ** The per-level counters *)

Lemma Info_Add f r e :
  Info (Add f r e) =
  (if decide (ToLower f (level e) = "info") then GoInt.incr (Info r) else Info r).
Proof. apply (levels_Add f r e). Qed.

Lemma Warn_Add f r e :
  Warn (Add f r e) =
  (if decide (ToLower f (level e) = "warn") then GoInt.incr (Warn r) else Warn r).
Proof. apply (levels_Add f r e). Qed.

Lemma Error_Add f r e :
  Error (Add f r e) =
  (if decide (ToLower f (level e) = "error") then GoInt.incr (Error r) else Error r).
Proof. apply (levels_Add f r e). Qed.

Lemma Debug_Add f r e :
  Debug (Add f r e) =
  (if decide (ToLower f (level e) = "debug") then GoInt.incr (Debug r) else Debug r).
Proof. apply (levels_Add f r e). Qed.

(** C5: [Add] increments the counter named by the lower-cased level of the
    entry when that is one of info, warn, error, debug, and leaves the other
    counters alone; with any other level no per-level counter changes; the
    total is incremented in every case.  Four entries with the levels INFO,
    info, WARN, error give Info=2, Warn=1, Error=1, Debug=0 and
    TotalEntries=4. *)
Theorem C5_Add_counts_the_level (f : string -> string) (r : AnalysisReport) (e : LogEntry) :
  let lv := ToLower f (level e) in
  Info (Add f r e) = (if decide (lv = "info") then GoInt.incr (Info r) else Info r) /\
  Warn (Add f r e) = (if decide (lv = "warn") then GoInt.incr (Warn r) else Warn r) /\
  Error (Add f r e) = (if decide (lv = "error") then GoInt.incr (Error r) else Error r) /\
  Debug (Add f r e) = (if decide (lv = "debug") then GoInt.incr (Debug r) else Debug r) /\
  TotalEntries (Add f r e) = GoInt.incr (TotalEntries r) /\
  (forall t1 t2 t3 t4 m1 m2 m3 m4,
     let r4 := fold_left (Add f)
                 [mkLogEntry t1 "INFO" m1; mkLogEntry t2 "info" m2;
                  mkLogEntry t3 "WARN" m3; mkLogEntry t4 "error" m4] newReport in
     Info r4 = 2 /\ Warn r4 = 1 /\ Error r4 = 1 /\ Debug r4 = 0 /\ TotalEntries r4 = 4).
Proof.
  intros lv. pose proof (levels_Add f r e) as (Hi & Hw & He & Hd).
  repeat split; try assumption.
  - apply TotalEntries_Add.
  - cbn [fold_left]. rewrite !Info_Add. reflexivity.
  - cbn [fold_left]. rewrite !Warn_Add. reflexivity.
  - cbn [fold_left]. rewrite !Error_Add. reflexivity.
  - cbn [fold_left]. rewrite !Debug_Add. reflexivity.
  - cbn [fold_left]. rewrite !TotalEntries_Add. reflexivity.
Qed.

(** C6: starting from the empty report, after any sequence of [Add] calls
    [TotalEntries] is the number of calls and the four counters sum to at
    most [TotalEntries]; one more [Add] raises [TotalEntries] by exactly one
    and at most one of the four counters by one.  (The number of calls is
    taken to fit an [int].) *)
Theorem C6_Add_keeps_the_counts (f : string -> string) (entries : list LogEntry) (e : LogEntry) :
  len (entries ++ [e]) <= GoInt.MaxInt ->
  let r := fold_left (Add f) entries newReport in
  let r' := fold_left (Add f) (entries ++ [e]) newReport in
  TotalEntries newReport = 0 /\ levelSum newReport = 0 /\
  TotalEntries r = len entries /\ levelSum r <= TotalEntries r /\
  r' = Add f r e /\
  TotalEntries r' = TotalEntries r + 1 /\ levelStep r r' /\
  TotalEntries r' = len (entries ++ [e]) /\ levelSum r' <= TotalEntries r'.
Proof.
  intros Hlen r r'.
  rewrite len_app in Hlen. change (len [e]) with 1 in Hlen.
  assert (Hr : counted r (len entries)) by (apply fold_Add_counted; lia).
  assert (Hr' : r' = Add f r e) by apply fold_Add_snoc.
  destruct (Add_counted f r e (len entries) Hr) as [Hc Hs]; [lia |].
  rewrite <- Hr' in Hc, Hs.
  destruct Hr as (Ht & _ & _ & _ & _ & Hsum).
  destruct Hc as (Ht' & _ & _ & _ & _ & Hsum').
  rewrite len_app. change (len [e]) with 1.
  repeat split; try assumption; try reflexivity; lia.
Qed.

Lemma C6_witness :
  let entries := [mkLogEntry Time.zero "INFO" "a"; mkLogEntry Time.zero "trace" "b"] in
  let e := mkLogEntry Time.zero "Warn" "c" in
  let f := fun s : string => s in
  len (entries ++ [e]) <= GoInt.MaxInt /\
  (let r := fold_left (Add f) entries newReport in
   let r' := fold_left (Add f) (entries ++ [e]) newReport in
   TotalEntries newReport = 0 /\ levelSum newReport = 0 /\
   TotalEntries r = len entries /\ levelSum r <= TotalEntries r /\
   r' = Add f r e /\
   TotalEntries r' = TotalEntries r + 1 /\ levelStep r r' /\
   TotalEntries r' = len (entries ++ [e]) /\ levelSum r' <= TotalEntries r').
Proof.
  intros entries e f.
  assert (H : len (entries ++ [e]) <= GoInt.MaxInt) by (vm_compute; discriminate).
  split; [exact H | exact (C6_Add_keeps_the_counts f entries e H)].
Defined.

(** ** [ReadFile] *)

Lemma readLoop_spec lines entries logged :
  readLoop lines entries logged =
  (entries ++ map (fun line => fst (NewLogEntry line)) lines,
   logged ++ omap (fun line => snd (NewLogEntry line)) lines).
Proof.
  revert entries logged.
  induction lines as [| line rest IH]; intros entries logged.
  - cbn. rewrite !app_nil_r. reflexivity.
  - cbn [readLoop]. destruct (NewLogEntry line) as [entry [err |]] eqn:E;
      rewrite IH; simpl; rewrite E; simpl; rewrite <- ?app_assoc; reflexivity.
Qed.

Lemma NewLogEntry_error_zero line :
  snd (NewLogEntry line) <> None -> fst (NewLogEntry line) = zeroLogEntry.
Proof.
  unfold NewLogEntry.
  destruct (len (Strings.SplitN line " " 4) <? 4); [reflexivity |].
  destruct (Time.Parse _); cbn; [congruence | reflexivity].
Qed.

Lemma cut_length sep s a b :
  Strings.cut sep s = Some (a, b) -> (String.length a + String.length b < String.length s)%nat.
Proof.
  revert a b. induction s as [| c s IH]; intros a b H; [discriminate |].
  cbn in H. destruct (Ascii.eqb c sep).
  - injection H as <- <-. cbn. lia.
  - destruct (Strings.cut sep s) as [[a' b'] |]; [| discriminate].
    injection H as <- <-. specialize (IH a' b' eq_refl). cbn. lia.
Qed.

(** Below the buffer size of the scanner, only the empty file has no
    lines. *)
Lemma lines_nil_iff f :
  Z.of_nat (String.length f) < Bufio.MaxScanTokenSize ->
  Bufio.lines f = [] <-> f = EmptyString.
Proof.
  intros Hlen. split; [| intros ->; reflexivity].
  unfold Bufio.lines. destruct f as [| c s]; [reflexivity |].
  cbn [String.length Bufio.scan].
  destruct (Strings.cut Bufio.newline (String c s)) as [[line rest] |] eqn:Hcut.
  - apply cut_length in Hcut.
    match goal with |- context [Z.ltb ?a ?b] => destruct (Z.ltb_spec a b) end;
      [intros Hnil; discriminate Hnil | cbn [String.length] in *; lia].
  - match goal with |- context [Z.ltb ?a ?b] => destruct (Z.ltb_spec a b) end;
      [intros Hnil; discriminate Hnil | cbn [String.length] in *; lia].
Qed.

(** C2, on the code: a line that fails to parse is logged, but [ReadFile]
    has no [continue] after the logging and appends the zero [LogEntry] that
    [NewLogEntry] returned with the error. *)
Theorem C2_ReadFile_keeps_failed_line :
  ReadFile "bad line" = ([zeroLogEntry], [errInvalidLogEntry]) /\
  ReadFile ("bad line" +:+ String Bufio.newline "2024-01-01 10:00:00 INFO started ok")
  = ([zeroLogEntry; mkLogEntry (Time.Date 2024 1 1 10 0 0 0) "INFO" "started ok"],
     [errInvalidLogEntry]) /\
  (forall g, TotalEntries (Analyze g (fst (ReadFile "bad line")) []) = 1).
Proof. repeat split; reflexivity. Qed.

(** ** Splitting *)

Lemma cut_Some sep s a b :
  Strings.cut sep s = Some (a, b) ->
  s = a +:+ String sep b /\ Strings.containsByte a sep = false.
Proof.
  revert a b. induction s as [| c s IH]; intros a b H; [discriminate |].
  cbn in H. destruct (Ascii.eqb_spec c sep) as [-> | Hne].
  - injection H as <- <-. split; reflexivity.
  - destruct (Strings.cut sep s) as [[a' b'] |]; [| discriminate].
    injection H as <- <-. destruct (IH a' b' eq_refl) as [-> Hno].
    split; [reflexivity |]. cbn. rewrite Hno.
    destruct (Ascii.eqb_spec c sep); [contradiction | reflexivity].
Qed.

Lemma cut_None sep s :
  Strings.cut sep s = None -> Strings.containsByte s sep = false.
Proof.
  induction s as [| c s IH]; intros H; [reflexivity |].
  cbn in H |- *. destruct (Ascii.eqb c sep); [discriminate |].
  destruct (Strings.cut sep s) as [[a b] |]; [discriminate |].
  apply IH. reflexivity.
Qed.

Lemma genSplit_cons sep s n : exists a l, Strings.genSplit sep s n = a :: l.
Proof.
  destruct n; cbn; [eauto |]. destruct (Strings.cut sep s) as [[a b] |]; eauto.
Qed.

Lemma genSplit_Join sep s n : Strings.Join (Strings.genSplit sep s n) sep = s.
Proof.
  revert s. induction n as [| n IH]; intros s; [reflexivity |].
  cbn [Strings.genSplit].
  destruct (Strings.cut sep s) as [[a b] |] eqn:Hcut; [| reflexivity].
  apply cut_Some in Hcut as [-> _].
  destruct (genSplit_cons sep b n) as (x & l & Hl).
  specialize (IH b). rewrite Hl in IH |- *.
  cbn [Strings.Join]. cbn [Strings.Join] in IH. rewrite IH. reflexivity.
Qed.

Lemma genSplit_length sep s n :
  (1 <= length (Strings.genSplit sep s n) <= S n)%nat.
Proof.
  revert s. induction n as [| n IH]; intros s; cbn; [lia |].
  destruct (Strings.cut sep s) as [[a b] |]; cbn; [| lia].
  specialize (IH b). lia.
Qed.

(** Every field in front of the last possible one is free of the
    separator. *)
Lemma genSplit_fields sep s n i field :
  (i < n)%nat -> Strings.genSplit sep s n !! i = Some field ->
  Strings.containsByte field sep = false.
Proof.
  revert s i. induction n as [| n IH]; intros s i Hi Hf; [lia |].
  cbn [Strings.genSplit] in Hf.
  destruct (Strings.cut sep s) as [[a b] |] eqn:Hcut.
  - destruct i as [| i]; cbn in Hf.
    + injection Hf as <-. apply cut_Some in Hcut. apply Hcut.
    + apply (IH b i); [lia | exact Hf].
  - destruct i as [| i]; cbn in Hf; [| discriminate].
    injection Hf as <-. apply cut_None. exact Hcut.
Qed.

Lemma len_SplitN_4 line : 1 <= len (Strings.SplitN line " " 4) <= 4.
Proof.
  change (Strings.SplitN line " " 4) with (Strings.genSplit " " line 3).
  pose proof (genSplit_length " " line 3). unfold len. lia.
Qed.

(** ** [NewLogEntry] *)

(** C3: [NewLogEntry] splits the line on its first three spaces: the fields
    joined by one space give the line back, there are at most four, and the
    first three hold no space, so that the fourth is the untouched
    remainder.  It returns the error "invalid log entry" and no entry
    exactly when there are fewer than four fields, the error "invalid log
    time" and no entry exactly when there are four and [time.Parse] rejects
    date, space, time, and otherwise the entry with the parsed time, the
    level as written and the remainder as message.  The line
    ["2024-01-01 10:00:00 INFO started ok"] gives the time 2024-01-01
    10:00:00, the level ["INFO"] and the message ["started ok"]. *)
Theorem C3_NewLogEntry_fields_and_errors (line : string) :
  let fields := Strings.SplitN line " " 4 in
  let value := nth 0 fields "" +:+ " " +:+ nth 1 fields "" in
  Strings.Join fields " " = line /\
  1 <= len fields <= 4 /\
  (forall i field, (i < 3)%nat -> fields !! i = Some field ->
                   Strings.containsByte field " " = false) /\
  (NewLogEntry line = (zeroLogEntry, Some errInvalidLogEntry) <-> len fields < 4) /\
  (forall e, NewLogEntry line = (zeroLogEntry, Some (errInvalidLogTime e)) <->
             len fields = 4 /\ Time.Parse value = Err e) /\
  (forall entry, NewLogEntry line = (entry, None) <->
                 len fields = 4 /\ Time.Parse value = Ok (time entry) /\
                 level entry = nth 2 fields "" /\ message entry = nth 3 fields "") /\
  errorTag errInvalidLogEntry = "invalid log entry" /\
  (forall e, errorTag (errInvalidLogTime e) = "invalid log time") /\
  NewLogEntry "2024-01-01 10:00:00 INFO started ok"
  = (mkLogEntry (Time.Date 2024 1 1 10 0 0 0) "INFO" "started ok", None) /\
  Time.Format (Time.Date 2024 1 1 10 0 0 0) = "2024-01-01 10:00:00".
Proof.
  intros fields value.
  pose proof (len_SplitN_4 line) as Hlen. fold fields in Hlen.
  assert (HN : NewLogEntry line =
               if len fields <? 4 then (zeroLogEntry, Some errInvalidLogEntry)
               else match Time.Parse value with
                    | Err e => (zeroLogEntry, Some (errInvalidLogTime e))
                    | Ok t => (mkLogEntry t (nth 2 fields "") (nth 3 fields ""), None)
                    end) by reflexivity.
  split; [apply (genSplit_Join " " line 3) |].
  split; [exact Hlen |].
  split; [intros i field; apply (genSplit_fields " " line 3) |].
  rewrite HN. clear HN.
  destruct (Z.ltb_spec (len fields) 4) as [Hlt | Hge].
  - repeat split; try reflexivity; try (intros; lia); try discriminate;
      try (intros [? _]; lia).
  - destruct (Time.Parse value) as [t | e0].
    + repeat split; try reflexivity; try discriminate; try lia;
        try (intros [_ ?]; discriminate);
        try match goal with
            | H : (_, _) = (_, _) |- _ => injection H as <-; reflexivity
            end.
      intros (_ & Ht & Hl & Hm). destruct entry as [t' l' m']. cbn in *.
      injection Ht as ->. subst. reflexivity.
    + repeat split; try reflexivity; try discriminate; try lia;
        try (intros (_ & ? & _); discriminate);
        try match goal with
            | H : (_, _) = (_, _) |- _ => injection H as <-; reflexivity
            end.
      intros [_ He]. injection He as <-. reflexivity.
Qed.

(** ** Suffixes *)

Lemma append_nil s : EmptyString +:+ s = s.
Proof. reflexivity. Qed.

Lemma append_cons c p s : String c p +:+ s = String c (p +:+ s).
Proof. reflexivity. Qed.

Ltac simpl_str := simpl; rewrite ?append_cons, ?append_nil.

Lemma substring_0_app p s : String.substring 0 (String.length p) (p +:+ s) = p.
Proof.
  induction p as [| c p IH]; simpl_str.
  - destruct s; reflexivity.
  - simpl. f_equal. exact IH.
Qed.

Lemma substring_0_length s : String.substring 0 (String.length s) s = s.
Proof. induction s as [| c s IH]; simpl; [| f_equal; exact IH]; reflexivity. Qed.

Lemma substring_app_skip p s :
  String.substring (String.length p) (String.length s) (p +:+ s) = s.
Proof.
  induction p as [| c p IH]; simpl_str; [apply substring_0_length | exact IH].
Qed.

Lemma substring_split s n :
  (n <= String.length s)%nat ->
  s = String.substring 0 n s +:+ String.substring n (String.length s - n) s.
Proof.
  revert n. induction s as [| c s IH]; intros n Hn.
  - destruct n; reflexivity.
  - destruct n as [| n]; simpl_str.
    + rewrite substring_0_length. reflexivity.
    + simpl in Hn. rewrite <- (IH n) by lia. reflexivity.
Qed.

Lemma length_append p s : String.length (p +:+ s) = (String.length p + String.length s)%nat.
Proof. induction p as [| c p IH]; simpl_str; simpl; [| f_equal; exact IH]; reflexivity. Qed.

Lemma append_assoc p q s : (p +:+ q) +:+ s = p +:+ (q +:+ s).
Proof. induction p as [| c p IH]; simpl_str; simpl; [| f_equal; exact IH]; reflexivity. Qed.

Lemma HasSuffix_app p suffix : Strings.HasSuffix (p +:+ suffix) suffix = true.
Proof.
  unfold Strings.HasSuffix. rewrite length_append.
  replace (String.length p + String.length suffix - String.length suffix)%nat
    with (String.length p) by lia.
  rewrite substring_app_skip, String.eqb_refl, andb_true_r.
  apply Nat.leb_le. lia.
Qed.

Lemma HasSuffix_true s suffix :
  Strings.HasSuffix s suffix = true -> exists p, s = p +:+ suffix.
Proof.
  unfold Strings.HasSuffix. intros H.
  apply andb_true_iff in H as [Hle Heq].
  apply Nat.leb_le in Hle. apply String.eqb_eq in Heq.
  exists (String.substring 0 (String.length s - String.length suffix) s).
  rewrite (substring_split s (String.length s - String.length suffix)) at 1 by lia.
  replace (String.length s - (String.length s - String.length suffix))%nat
    with (String.length suffix) by lia.
  rewrite Heq. reflexivity.
Qed.

Lemma TrimSuffix_app p suffix : Strings.TrimSuffix (p +:+ suffix) suffix = p.
Proof.
  unfold Strings.TrimSuffix. rewrite HasSuffix_app, length_append.
  replace (String.length p + String.length suffix - String.length suffix)%nat
    with (String.length p) by lia.
  apply substring_0_app.
Qed.

(** ** The last byte and the last token *)

Lemma lastByte_cons c s x : lastByte (String c s) = Some x -> c <> x -> lastByte s = Some x.
Proof.
  destruct s as [| c' s]; cbn; intros H Hne; [congruence | exact H].
Qed.

Lemma lastByte_app_cons p c s : lastByte (p +:+ String c s) = lastByte (String c s).
Proof.
  induction p as [| c' p IH]; [reflexivity |].
  rewrite append_cons, <- IH.
  destruct p; reflexivity.
Qed.

Lemma last_cons_cons {A} (a b : A) l d : List.last (a :: b :: l) d = List.last (b :: l) d.
Proof. reflexivity. Qed.

(** The last field of a split ends as the string does, when the string
    does not end with the separator. *)
Lemma genSplit_lastByte sep n s x :
  lastByte s = Some x -> x <> sep ->
  lastByte (List.last (Strings.genSplit sep s n) "") = Some x.
Proof.
  revert s. induction n as [| n IH]; intros s Hs Hx; [exact Hs |].
  cbn [Strings.genSplit].
  destruct (Strings.cut sep s) as [[a b] |] eqn:Hcut; [| exact Hs].
  apply cut_Some in Hcut as [-> _].
  rewrite lastByte_app_cons in Hs.
  assert (Hb : lastByte b = Some x) by (apply (lastByte_cons sep); congruence).
  destruct (genSplit_cons sep b n) as (y & l & Hl).
  specialize (IH b Hb Hx). rewrite Hl in IH |- *. exact IH.
Qed.

Lemma index_last (words : list string) :
  words <> [] -> index words (len words - 1) = Some (List.last words "").
Proof.
  intros Hne. unfold index, len.
  destruct (Z.ltb_spec (Z.of_nat (length words) - 1) 0) as [Hlt | _].
  - destruct words; [contradiction | cbn in Hlt; lia].
  - replace (Z.to_nat (Z.of_nat (length words) - 1)) with (pred (length words)) by lia.
    destruct words as [| a l]; [contradiction |]. clear Hne.
    revert a. induction l as [| b l IH]; intros a; [reflexivity |].
    rewrite last_cons_cons. exact (IH b).
Qed.

Lemma Split_nonempty s sep : Strings.Split s sep <> [].
Proof.
  unfold Strings.Split, Strings.SplitN. cbn.
  destruct (genSplit_cons sep s (String.length s)) as (a & l & ->). discriminate.
Qed.

(** ** [ParseFloat] never accepts a string that ends with the byte [s] *)

(** The scanners of [readFloat] consume digits, letters of hexadecimal
    literals, signs, dots, underscores and exponent marks only: a final
    byte [s] is still there when they stop. *)
Ltac not_s E :=
  let Hc := fresh in
  intros Hc; rewrite Hc in E; vm_compute in E; discriminate E.

Lemma readDigits_keeps hex st s st' rest :
  Strconv.readDigits hex st s = (st', rest) ->
  lastByte s = Some "s"%char -> lastByte rest = Some "s"%char.
Proof.
  revert st. induction s as [| c s IH]; intros st H Hs; [discriminate Hs |].
  cbn [Strconv.readDigits] in H.
  destruct (Ascii.eqb c "_") eqn:E1.
  { eapply IH; [exact H |]. apply (lastByte_cons c); [exact Hs | not_s E1]. }
  destruct (Ascii.eqb c ".") eqn:E2.
  { destruct (Strconv.sawdot st).
    - injection H as _ <-. exact Hs.
    - eapply IH; [exact H |]. apply (lastByte_cons c); [exact Hs | not_s E2]. }
  destruct (isDigitByte c) eqn:E3.
  { destruct (Ascii.eqb c "0" && (Strconv.nd st =? 0));
      (eapply IH; [exact H |]; apply (lastByte_cons c); [exact Hs | not_s E3]). }
  destruct hex; cbn [andb] in H.
  - destruct (Strconv.isHexLetter c) eqn:E4.
    + eapply IH; [exact H |]. apply (lastByte_cons c); [exact Hs | not_s E4].
    + injection H as _ <-. exact Hs.
  - injection H as _ <-. exact Hs.
Qed.

Lemma readExpDigits_keeps e under s e' under' rest :
  Strconv.readExpDigits e under s = (e', under', rest) ->
  lastByte s = Some "s"%char -> lastByte rest = Some "s"%char.
Proof.
  revert e under. induction s as [| c s IH]; intros e under H Hs; [discriminate Hs |].
  cbn [Strconv.readExpDigits] in H.
  destruct (isDigitByte c) eqn:E1.
  { eapply IH; [exact H |]. apply (lastByte_cons c); [exact Hs | not_s E1]. }
  destruct (Ascii.eqb c "_") eqn:E2.
  { eapply IH; [exact H |]. apply (lastByte_cons c); [exact Hs | not_s E2]. }
  injection H as _ _ <-. exact Hs.
Qed.

Lemma readExponent_keeps hex dp under s dp' under' rest :
  Strconv.readExponent hex dp under s = Some (dp', under', rest) ->
  lastByte s = Some "s"%char -> lastByte rest = Some "s"%char.
Proof.
  unfold Strconv.readExponent. intros H Hs.
  destruct s as [| c s1]; [discriminate Hs |].
  destruct (Ascii.eqb (Strconv.lower c) (if hex then "p" else "e")%char) eqn:E1.
  - assert (Hs1 : lastByte s1 = Some "s"%char).
    { apply (lastByte_cons c); [exact Hs |]. destruct hex; not_s E1. }
    destruct s1 as [| c1 s2]; [discriminate H |].
    assert (Hrest : forall esign s3,
               match s3 with
               | String c3 _ =>
                   if isDigitByte c3
                   then let '(e, under0, rest0) := Strconv.readExpDigits 0 under s3 in
                        Some (dp + e * esign, under0, rest0)
                   else None
               | EmptyString => None
               end = Some (dp', under', rest) ->
               lastByte s3 = Some "s"%char -> lastByte rest = Some "s"%char).
    { intros esign s3 H3 Hs3. destruct s3 as [| c3 s4]; [discriminate H3 |].
      destruct (isDigitByte c3); [| discriminate H3].
      destruct (Strconv.readExpDigits 0 under (String c3 s4)) as [[e0 u0] r0] eqn:E.
      injection H3 as _ _ <-. eapply readExpDigits_keeps; eauto. }
    destruct (Ascii.eqb c1 "+") eqn:E2.
    { eapply Hrest; [exact H |]. apply (lastByte_cons c1); [exact Hs1 | not_s E2]. }
    destruct (Ascii.eqb c1 "-") eqn:E3.
    { eapply Hrest; [exact H |]. apply (lastByte_cons c1); [exact Hs1 | not_s E3]. }
    exact (Hrest 1 (String c1 s2) H Hs1).
  - destruct hex; [discriminate H |]. injection H as _ _ <-. exact Hs.
Qed.

Lemma readFloat_keeps s l rest :
  Strconv.readFloat s = Some (l, rest) ->
  lastByte s = Some "s"%char -> lastByte rest = Some "s"%char.
Proof.
  unfold Strconv.readFloat. intros H Hs.
  destruct s as [| c s']; [discriminate Hs |].
  set (s := String c s') in *.
  destruct (if Ascii.eqb c "+" then (false, s')
            else if Ascii.eqb c "-" then (true, s') else (false, s))
    as [neg s1] eqn:Esign.
  assert (Hs1 : lastByte s1 = Some "s"%char).
  { destruct (Ascii.eqb c "+") eqn:E1.
    - injection Esign as _ <-. apply (lastByte_cons c); [exact Hs | not_s E1].
    - destruct (Ascii.eqb c "-") eqn:E2.
      + injection Esign as _ <-. apply (lastByte_cons c); [exact Hs | not_s E2].
      + injection Esign as _ <-. exact Hs. }
  destruct (match s1 with
            | String c0 (String c1 (String _ _ as s2)) =>
                if Ascii.eqb c0 "0" && Ascii.eqb (Strconv.lower c1) "x"
                then (true, s2) else (false, s1)
            | _ => (false, s1)
            end) as [hex s2] eqn:Ehex.
  assert (Hs2 : lastByte s2 = Some "s"%char).
  { destruct s1 as [| c0 [| c1 [| c2 s3]]];
      try (injection Ehex as _ <-; exact Hs1).
    destruct (Ascii.eqb c0 "0") eqn:E0; cbn [andb] in Ehex;
      [| injection Ehex as _ <-; exact Hs1].
    destruct (Ascii.eqb (Strconv.lower c1) "x") eqn:E1;
      [| injection Ehex as _ <-; exact Hs1].
    injection Ehex as _ <-.
    apply (lastByte_cons c1); [| not_s E1].
    apply (lastByte_cons c0); [exact Hs1 | not_s E0]. }
  destruct (Strconv.readDigits hex _ s2) as [st s3] eqn:Edig.
  apply readDigits_keeps in Edig; [| exact Hs2].
  destruct (negb (Strconv.sawdigits st)); [discriminate H |].
  destruct (Strconv.readExponent hex _ (Strconv.underscores st) s3)
    as [[[dp under] rest'] |] eqn:Eexp; [| discriminate H].
  apply readExponent_keeps in Eexp; [| exact Edig].
  destruct (under && _); [discriminate H |].
  injection H as _ <-. exact Eexp.
Qed.

Lemma commonPrefixLen_le s p :
  (Strconv.commonPrefixLenIgnoreCase s p <= String.length s)%nat.
Proof.
  revert p. induction s as [| c s IH]; intros [| q p]; cbn; try lia.
  destruct (Ascii.eqb _ q); [| lia]. specialize (IH p). lia.
Qed.

(** A string that the prefix matches to its end is made of bytes of the
    prefix, up to case. *)
Lemma commonPrefixLen_all s p x :
  Strconv.commonPrefixLenIgnoreCase s p = String.length s ->
  lastByte s = Some x -> Strings.containsByte p (Strings.lowerByte x) = true.
Proof.
  revert p. induction s as [| c s IH]; intros p H Hx; [discriminate Hx |].
  destruct p as [| q p]; [discriminate H |].
  cbn [Strconv.commonPrefixLenIgnoreCase String.length] in H.
  destruct (Ascii.eqb_spec (Strings.lowerByte c) q) as [Hq | Hq]; [| discriminate H].
  injection H as H. cbn [Strings.containsByte].
  destruct s as [| c' s'].
  - cbn in Hx. injection Hx as <-. rewrite Hq, Ascii.eqb_refl. reflexivity.
  - rewrite (IH p H Hx). apply orb_true_r.
Qed.

Lemma infinityPrefix_not_s neg nsign s v n :
  Strconv.infinityPrefix neg nsign s = Some (v, n) ->
  n = (nsign + String.length s)%nat -> lastByte s <> Some "s"%char.
Proof.
  unfold Strconv.infinityPrefix. intros H Hn Hs.
  pose proof (commonPrefixLen_le s "infinity") as Hle.
  set (k := Strconv.commonPrefixLenIgnoreCase s "infinity") in *.
  destruct ((3 <? k)%nat && (k <? 8)%nat) eqn:Emid.
  - apply andb_true_iff in Emid as [E3 E8].
    apply Nat.ltb_lt in E3. apply Nat.ltb_lt in E8.
    cbn in H. injection H as _ <-. lia.
  - destruct ((k =? 3)%nat || (k =? 8)%nat); [| discriminate H].
    injection H as _ <-.
    assert (Hk : k = String.length s) by lia.
    pose proof (commonPrefixLen_all s "infinity" "s" Hk Hs) as Hc.
    vm_compute in Hc. discriminate Hc.
Qed.

Lemma special_not_s s v n :
  Strconv.special s = Some (v, n) -> n = String.length s ->
  lastByte s <> Some "s"%char.
Proof.
  unfold Strconv.special. intros H Hn Hs.
  destruct s as [| c rest]; [discriminate H |].
  destruct (Ascii.eqb c "+") eqn:E1.
  { eapply infinityPrefix_not_s; [exact H | cbn in Hn |- *; lia |].
    apply (lastByte_cons c); [exact Hs | not_s E1]. }
  destruct (Ascii.eqb c "-") eqn:E2.
  { eapply infinityPrefix_not_s; [exact H | cbn in Hn |- *; lia |].
    apply (lastByte_cons c); [exact Hs | not_s E2]. }
  destruct (Ascii.eqb c "i" || Ascii.eqb c "I").
  { eapply infinityPrefix_not_s; [exact H | cbn in Hn |- *; lia | exact Hs]. }
  destruct (Ascii.eqb c "n" || Ascii.eqb c "N"); [| discriminate H].
  destruct (Nat.eqb_spec (Strconv.commonPrefixLenIgnoreCase (String c rest) "nan") 3)
    as [Hk | _]; [| discriminate H].
  injection H as _ <-.
  assert (Hk' : Strconv.commonPrefixLenIgnoreCase (String c rest) "nan"
                = String.length (String c rest)) by lia.
  pose proof (commonPrefixLen_all _ "nan" "s" Hk' Hs) as Hc.
  vm_compute in Hc. discriminate Hc.
Qed.

Lemma ParseFloat_not_s s v :
  Strconv.ParseFloat s = Ok v -> lastByte s <> Some "s"%char.
Proof.
  unfold Strconv.ParseFloat. intros H Hs.
  destruct (Strconv.special s) as [[v' n] |] eqn:Esp.
  - destruct (Nat.eqb_spec n (String.length s)) as [Hn | _]; [| discriminate H].
    exact (special_not_s s v' n Esp Hn Hs).
  - destruct (Strconv.readFloat s) as [[l rest] |] eqn:Erf; [| discriminate H].
    apply readFloat_keeps in Erf; [| exact Hs].
    destruct rest; [discriminate Erf | discriminate H].
Qed.

(** ** Response times *)

Lemma responseTime_spec msg n :
  responseTime msg = Some n <->
  exists stem, msg = stem +:+ " ms" /\ Strconv.ParseFloat (lastToken stem) = Ok n.
Proof.
  unfold responseTime, lastToken. split.
  - destruct (Strings.HasSuffix msg "ms") eqn:Ems; [| discriminate].
    rewrite index_last by apply Split_nonempty.
    destruct (Strconv.ParseFloat _) as [v |] eqn:Ep; [| discriminate].
    intros H. injection H as ->.
    destruct (Strings.HasSuffix msg " ms") eqn:Esp.
    + apply HasSuffix_true in Esp as [stem ->].
      rewrite TrimSuffix_app in Ep. eauto.
    + exfalso. unfold Strings.TrimSuffix in Ep. rewrite Esp in Ep.
      apply ParseFloat_not_s in Ep. apply Ep.
      apply HasSuffix_true in Ems as [p ->].
      apply (genSplit_lastByte " " (String.length (p +:+ "ms")));
        [apply lastByte_app_cons | discriminate].
  - intros (stem & -> & Hp).
    change (stem +:+ " ms") with (stem +:+ (" " +:+ "ms")) at 1.
    rewrite <- append_assoc, HasSuffix_app, TrimSuffix_app.
    rewrite index_last by apply Split_nonempty.
    rewrite Hp. reflexivity.
Qed.

(** C4: [Add] appends a response time exactly when the message ends with
    [" ms"] and the last space-delimited token of what is in front of that
    suffix parses as a float; the value appended is the parsed number; in
    every other case nothing is appended.  The message
    ["request handled 123.45 ms"] records 123.45. *)
Theorem C4_Add_records_the_response_time (f : string -> string)
    (r : AnalysisReport) (e : LogEntry) :
  (forall n, ResponseTime (Add f r e) = ResponseTime r ++ [n] <->
             exists stem, message e = stem +:+ " ms" /\
                          Strconv.ParseFloat (lastToken stem) = Ok n) /\
  ((forall stem n, message e = stem +:+ " ms" ->
                   Strconv.ParseFloat (lastToken stem) <> Ok n) ->
   ResponseTime (Add f r e) = ResponseTime r) /\
  (forall t l, ResponseTime (Add f r (mkLogEntry t l "request handled 123.45 ms"))
               = ResponseTime r ++ [123.45%float]).
Proof.
  rewrite ResponseTime_Add. repeat split.
  - intros H. apply responseTime_spec.
    destruct (responseTime (message e)) as [v |].
    + apply app_inv_head in H. congruence.
    + apply (f_equal (@length float)) in H. rewrite length_app in H. cbn in H. lia.
  - intros H. apply responseTime_spec in H. rewrite H. reflexivity.
  - intros Hno. destruct (responseTime (message e)) as [v |] eqn:E; [| reflexivity].
    apply responseTime_spec in E as (stem & Hm & Hp).
    destruct (Hno stem v Hm Hp).
  - intros t l. rewrite ResponseTime_Add. reflexivity.
Qed.

(** ** The average response time *)

Lemma averageLine_nil : averageLine [] = [].
Proof. reflexivity. Qed.

Lemma averageLine_cons x times :
  averageLine (x :: times) =
  ["Average Response Time: " +:+ Strconv.formatFixed2 (average (x :: times)) +:+ " ms"].
Proof.
  unfold averageLine.
  destruct (Z.gtb_spec (len (x :: times)) 0) as [_ | Hle]; [reflexivity |].
  unfold len in Hle. cbn [length] in Hle. lia.
Qed.

Lemma digitChar_digit x : 0 <= x <= 9 -> isDigitByte (digitChar x) = true.
Proof.
  intros Hx.
  assert (H : x = 0 \/ x = 1 \/ x = 2 \/ x = 3 \/ x = 4 \/
              x = 5 \/ x = 6 \/ x = 7 \/ x = 8 \/ x = 9) by lia.
  repeat destruct H as [-> | H]; try subst x; reflexivity.
Qed.

(** [%.2f] of a finite float ends with a dot and two digits. *)
Lemma formatFixed2_two_decimals f :
  isFinite f = true ->
  exists whole d1 d2,
    Strconv.formatFixed2 f = whole +:+ "." +:+ String d1 (String d2 EmptyString) /\
    isDigitByte d1 = true /\ isDigitByte d2 = true.
Proof.
  unfold isFinite, Strconv.formatFixed2.
  destruct (Prim2SF f) as [s | s | | s m e]; try discriminate; intros _.
  - exists ((if s then "-" else "") +:+ "0"), "0"%char, "0"%char.
    destruct s; repeat split; reflexivity.
  - set (c := if 0 <=? e then Z.pos m * 2 ^ e * 100
              else Strconv.roundHalfEven (Z.pos m * 100) (2 ^ (- e))).
    exists ((if s then "-" else "") +:+ utod (c / 100)),
      (digitChar (c mod 100 / 10)), (digitChar (c mod 10)).
    split; [rewrite append_assoc; reflexivity |].
    split; apply digitChar_digit.
    + pose proof (Z.mod_pos_bound c 100 ltac:(lia)).
      split; [apply Z.div_pos; lia |].
      apply Z.lt_succ_r. apply Z.div_lt_upper_bound; lia.
    + pose proof (Z.mod_pos_bound c 10 ltac:(lia)). lia.
Qed.

Ltac other_line :=
  let H := fresh in
  intros [? H]; rewrite ?append_cons in H; discriminate H.

(** Where the average line stands in the output of [Print]: it is there
    exactly when there is a response time, as the sixth line, and no other
    line has its shape. *)
Lemma Print_average_line_position (r : AnalysisReport) (keys1 : list string)
    (pairs2 : list (string * Z)) :
  let out := fst (Print r keys1 pairs2) in
  let times := ResponseTime r in
  let line := "Average Response Time: " +:+ Strconv.formatFixed2 (average times) +:+ " ms" in
  ((exists l, In l out /\ isAverageLine l) <-> times <> []) /\
  (times <> [] -> out !! 5%nat = Some line) /\
  (forall l, In l out -> isAverageLine l -> times <> [] /\ l = line).
Proof.
  intros out times line.
  assert (Hshape : forall l, In l out -> isAverageLine l -> times <> [] /\ l = line).
  { intros l Hin Havg. unfold out, Print in Hin. fold times in Hin.
    assert (Hfive : In l (averageLine times) \/
                    exists m, l = "Most frequent mesage: '" +:+ m +:+ "'").
    { destruct (mostFrequent _ _ _) as [m |]; cbn [fst] in Hin;
        repeat (apply in_app_or in Hin as [Hin | Hin]);
        cbn [In] in Hin;
        repeat match goal with
               | H : _ \/ _ |- _ => destruct H as [H | H]
               | H : False |- _ => destruct H
               end;
        try (subst l; exfalso; revert Havg; other_line);
        auto; right; eauto. }
    destruct Hfive as [Hin' | [m ->]]; [| exfalso; revert Havg; other_line].
    destruct times as [| x times']; [destruct Hin' |].
    rewrite averageLine_cons in Hin'. destruct Hin' as [<- | []].
    split; [discriminate | reflexivity]. }
  assert (Hsixth : times <> [] -> out !! 5%nat = Some line).
  { intros Hne. unfold out, Print. fold times.
    destruct times as [| x times'] eqn:Et; [contradiction |].
    rewrite averageLine_cons.
    destruct (mostFrequent _ _ _); reflexivity. }
  split; [split |].
  - intros (l & Hin & Havg). apply (Hshape l Hin Havg).
  - intros Hne. exists line. split.
    + apply list_elem_of_In. eapply list_elem_of_lookup_2. exact (Hsixth Hne).
    + exists (Strconv.formatFixed2 (average times)). reflexivity.
  - split; [exact Hsixth | exact Hshape].
Qed.

(** ** Sorting *)

Lemma insertInt_perm x l : Permutation (insertInt x l) (x :: l).
Proof.
  induction l as [| y l IH]; cbn; [reflexivity |].
  destruct (x <=? y); [reflexivity |].
  rewrite IH. apply perm_swap.
Qed.

Lemma sortInts_perm l : Permutation (sortInts l) l.
Proof.
  induction l as [| x l IH]; cbn; [reflexivity |].
  rewrite insertInt_perm, IH. reflexivity.
Qed.

Lemma insertInt_sorted x l :
  StronglySorted Z.le l -> StronglySorted Z.le (insertInt x l).
Proof.
  induction 1 as [| y l Hs IH Hall]; cbn.
  - repeat constructor.
  - destruct (Z.leb_spec x y) as [Hle | Hgt].
    + constructor; [constructor; assumption |].
      constructor; [exact Hle |].
      eapply List.Forall_impl; [| exact Hall]. intros z Hz. cbn in *. lia.
    + constructor; [exact IH |].
      rewrite (List.Forall_forall (Z.le y)). intros z Hz.
      apply (Permutation_in _ (insertInt_perm x l)) in Hz.
      destruct Hz as [<- | Hz]; [lia |].
      rewrite (List.Forall_forall (Z.le y)) in Hall. auto.
Qed.

Lemma sortInts_sorted l : StronglySorted Z.le (sortInts l).
Proof.
  induction l as [| x l IH]; cbn; [constructor | apply insertInt_sorted, IH].
Qed.

Lemma last_In (l : list Z) d : l <> [] -> In (List.last l d) l.
Proof.
  induction l as [| a [| b l] IH]; intros Hne; [contradiction | left; reflexivity |].
  right. apply IH. discriminate.
Qed.

Lemma sorted_last_max (l : list Z) d x :
  StronglySorted Z.le l -> In x l -> x <= List.last l d.
Proof.
  induction 1 as [| a l Hs IH Hall]; intros Hin; [destruct Hin |].
  destruct l as [| b l].
  - destruct Hin as [<- | []]. cbn. lia.
  - change (List.last (a :: b :: l) d) with (List.last (b :: l) d).
    destruct Hin as [<- | Hin]; [| auto].
    rewrite (List.Forall_forall (Z.le a)) in Hall.
    apply Hall. apply last_In. discriminate.
Qed.

Lemma index_last_Z (l : list Z) :
  l <> [] -> index l (len l - 1) = Some (List.last l 0).
Proof.
  intros Hne. unfold index, len.
  destruct (Z.ltb_spec (Z.of_nat (length l) - 1) 0) as [Hlt | _].
  - destruct l; [contradiction | cbn in Hlt; lia].
  - replace (Z.to_nat (Z.of_nat (length l) - 1)) with (pred (length l)) by lia.
    destruct l as [| a l]; [contradiction |]. clear Hne.
    revert a. induction l as [| b l IH]; intros a; [reflexivity |].
    exact (IH b).
Qed.

(** The greatest count is the last element of the sorted counts. *)
Lemma sortInts_top (l : list Z) :
  l <> [] ->
  exists top, index (sortInts l) (len (sortInts l) - 1) = Some top /\
              In top l /\ forall x, In x l -> x <= top.
Proof.
  intros Hne.
  assert (Hne' : sortInts l <> []).
  { intros Hnil. apply Hne. apply Permutation_nil.
    rewrite <- Hnil. apply sortInts_perm. }
  exists (List.last (sortInts l) 0). split; [apply index_last_Z, Hne' |]. split.
  - apply (Permutation_in _ (sortInts_perm l)). apply last_In, Hne'.
  - intros x Hx. apply sorted_last_max; [apply sortInts_sorted |].
    apply (Permutation_in _ (Permutation_sym (sortInts_perm l))). exact Hx.
Qed.

(** ** The most frequent message *)

Lemma pickFrequent_nil pairs msg : pickFrequent [] pairs msg = match pairs with
                                                                | [] => Some msg
                                                                | _ => None
                                                                end.
Proof. destruct pairs as [| [k v] rest]; reflexivity. Qed.

Lemma pickFrequent_top freqCount top pairs msg :
  index freqCount (len freqCount - 1) = Some top ->
  exists msg', pickFrequent freqCount pairs msg = Some msg' /\
               (In (msg', top) pairs \/
                (msg' = msg /\ forall k, ~ In (k, top) pairs)).
Proof.
  intros Htop. revert msg.
  induction pairs as [| [k v] rest IH]; intros msg.
  - exists msg. split; [reflexivity |]. right. split; [reflexivity | intros k []].
  - cbn [pickFrequent]. rewrite Htop.
    destruct (IH (if v =? top then k else msg)) as (msg' & Hpick & Hcase).
    exists msg'. split; [exact Hpick |].
    destruct Hcase as [Hin | [Heq Hno]].
    + left. right. exact Hin.
    + destruct (Z.eqb_spec v top) as [-> | Hne].
      * left. left. rewrite Heq. reflexivity.
      * right. split; [exact Heq |].
        intros k' [Hk | Hk]; [congruence | exact (Hno k' Hk)].
Qed.

Lemma freqCount_values (freq : gmap string Z) keys1 :
  keyOrder freq keys1 ->
  Permutation (map (fun k => default 0 (freq !! k)) keys1) (map snd (map_to_list freq)).
Proof.
  unfold keyOrder. intros Hperm. rewrite Hperm.
  rewrite map_map. apply Permutation_refl'.
  apply map_ext_in. intros [k v] Hin.
  apply list_elem_of_In, elem_of_map_to_list in Hin. cbn. rewrite Hin. reflexivity.
Qed.

Lemma mostFrequent_nonempty (freq : gmap string Z) keys1 pairs2 :
  keyOrder freq keys1 -> pairOrder freq pairs2 -> freq <> ∅ ->
  exists msg top, mostFrequent freq keys1 pairs2 = Some msg /\
                  freq !! msg = Some top /\
                  forall k v, freq !! k = Some v -> v <= top.
Proof.
  intros Hkeys Hpairs Hne. unfold mostFrequent.
  pose proof (freqCount_values freq keys1 Hkeys) as Hvals.
  set (freqCount := map (fun k => default 0 (freq !! k)) keys1) in *.
  assert (Hlist : map_to_list freq <> []).
  { intros Hnil. apply Hne. apply map_to_list_empty_iff. exact Hnil. }
  assert (Hfc : freqCount <> []).
  { intros Hnil. rewrite Hnil in Hvals. apply Permutation_nil in Hvals.
    destruct (map_to_list freq); [contradiction | discriminate]. }
  destruct (sortInts_top freqCount Hfc) as (top & Hidx & Hin & Hmax).
  destruct (pickFrequent_top (sortInts freqCount) top pairs2 "" Hidx)
    as (msg & Hpick & Hcase).
  assert (Hex : exists k, In (k, top) pairs2).
  { apply (Permutation_in _ Hvals) in Hin.
    apply in_map_iff in Hin as ([k v] & Hv & Hkv). cbn in Hv. subst v.
    exists k. apply (Permutation_in _ (Permutation_sym Hpairs)). exact Hkv. }
  exists msg, top. split; [exact Hpick |]. split.
  - destruct Hcase as [Hin' | [_ Hno]].
    + apply (Permutation_in _ Hpairs) in Hin'.
      apply list_elem_of_In, elem_of_map_to_list in Hin'. exact Hin'.
    + destruct Hex as [k Hk]. destruct (Hno k Hk).
  - intros k v Hkv. apply Hmax.
    apply (Permutation_in _ (Permutation_sym Hvals)).
    apply in_map_iff. exists (k, v). split; [reflexivity |].
    apply list_elem_of_In, elem_of_map_to_list. exact Hkv.
Qed.

Lemma mostFrequent_empty keys1 pairs2 :
  keyOrder ∅ keys1 -> pairOrder ∅ pairs2 ->
  keys1 = [] /\ pairs2 = [] /\ mostFrequent ∅ keys1 pairs2 = Some "".
Proof.
  unfold keyOrder, pairOrder. rewrite map_to_list_empty. cbn.
  intros Hk Hp.
  apply Permutation_sym, Permutation_nil in Hk.
  apply Permutation_sym, Permutation_nil in Hp.
  subst. repeat split.
Qed.

Lemma MsgFrequency_Add_nonempty f r e : MsgFrequency (Add f r e) <> ∅.
Proof. rewrite MsgFrequency_Add. apply insert_non_empty. Qed.

(** C10, amended: after at least one [Add] the message-frequency map is not
    empty; on a report with a non-empty map, in whatever order the two
    loops of [Print] visit it, the index [len(freqCount)-1] is in range and
    the message chosen has the greatest count of the map; on a report with
    an empty map neither loop body runs, so that the index expression is
    never evaluated, the message stays empty and [Print] returns. *)
Theorem C10_Print_most_frequent_message (f : string -> string) (r : AnalysisReport)
    (keys1 : list string) (pairs2 : list (string * Z)) :
  keyOrder (MsgFrequency r) keys1 ->
  pairOrder (MsgFrequency r) pairs2 ->
  (forall r0 e, MsgFrequency (Add f r0 e) <> ∅) /\
  (MsgFrequency r <> ∅ ->
   exists msg top,
     mostFrequent (MsgFrequency r) keys1 pairs2 = Some msg /\
     MsgFrequency r !! msg = Some top /\
     forall k v, MsgFrequency r !! k = Some v -> v <= top) /\
  (MsgFrequency r = ∅ ->
   keys1 = [] /\ pairs2 = [] /\ mostFrequent (MsgFrequency r) keys1 pairs2 = Some "") /\
  snd (Print r keys1 pairs2) = Returned.
Proof.
  intros Hkeys Hpairs.
  split; [intros r0 e; apply MsgFrequency_Add_nonempty |].
  split; [apply mostFrequent_nonempty; assumption |].
  split.
  - intros Hempty. rewrite Hempty in *. apply mostFrequent_empty; assumption.
  - unfold Print. destruct (decide (MsgFrequency r = ∅)) as [Hempty | Hne].
    + rewrite Hempty in *.
      destruct (mostFrequent_empty keys1 pairs2 Hkeys Hpairs) as (_ & _ & ->).
      reflexivity.
    + destruct (mostFrequent_nonempty _ keys1 pairs2 Hkeys Hpairs Hne)
        as (msg & top & -> & _).
      reflexivity.
Qed.

Lemma C10_witness :
  let f := fun s : string => s in
  let r := Add f (Add f newReport (mkLogEntry Time.zero "INFO" "x"))
                 (mkLogEntry Time.zero "INFO" "x") in
  keyOrder (MsgFrequency r) ["x"] /\ pairOrder (MsgFrequency r) [("x", 2)] /\
  mostFrequent (MsgFrequency r) ["x"] [("x", 2)] = Some "x" /\
  snd (Print r ["x"] [("x", 2)]) = Returned.
Proof.
  intros f r.
  assert (Hk : keyOrder (MsgFrequency r) ["x"]) by (vm_compute; apply Permutation_refl).
  assert (Hp : pairOrder (MsgFrequency r) [("x", 2)]) by (vm_compute; apply Permutation_refl).
  split; [exact Hk |]. split; [exact Hp |]. split; [reflexivity |].
  apply (C10_Print_most_frequent_message f r ["x"] [("x", 2)] Hk Hp).
Defined.

(** On the empty report the map is empty, no loop body runs and [Print]
    returns after writing an empty most frequent message: the index
    expression is not reached, and nothing is out of bounds. *)
Lemma C10_counterexample :
  MsgFrequency newReport = ∅ /\
  keyOrder (MsgFrequency newReport) [] /\ pairOrder (MsgFrequency newReport) [] /\
  Print newReport [] []
  = (["Total Log Entries: 0"; "INFO: 0"; "DEBUG: 0"; "WARN: 0"; "ERROR: 0";
      "Most frequent mesage: ''"], Returned) /\
  snd (Print newReport [] []) <> Panicked.
Proof.
  split; [reflexivity |].
  split; [vm_compute; apply Permutation_refl |].
  split; [vm_compute; apply Permutation_refl |].
  split; [reflexivity | discriminate].
Qed.

(** ** The calendar *)

(** A quotient from its bounds. *)
Lemma div_eq a b q : 0 < b -> b * q <= a < b * q + b -> a / b = q.
Proof. intros Hb H. symmetry. apply (Z.div_unique_pos a b q (a - b * q)); lia. Qed.

(** [n - n >> 2] for the quotient [n] of a cycle: the last day of a cycle
    of four gives 4, which is cut off to 3. *)
Lemma capped_quot k d c :
  0 < k -> 0 <= c <= 3 -> k * c <= d ->
  d < k * c + k \/ (c = 3 /\ d = k * 4) ->
  d / k - d / k / 4 = c.
Proof.
  intros Hk Hc Hlo [Hhi | [-> ->]].
  - rewrite (div_eq d k c) by lia. rewrite (div_eq c 4 0); lia.
  - rewrite Z.mul_comm, Z.div_mul by lia. reflexivity.
Qed.

Lemma absYday_daysSinceEpoch year yday :
  0 <= yday < 365 + (if Time.isLeap year then 1 else 0) ->
  Time.absYday (Time.daysSinceEpoch year + yday) = (year, yday).
Proof.
  unfold Time.absYday, Time.daysSinceEpoch, Time.isLeap.
  rewrite !Z.shiftr_div_pow2 by lia. change (2 ^ 2) with 4.
  intros Hy.
  set (Y := year - 1).
  pose (q := Y / 400). pose (r := Y mod 400).
  pose (c := r / 100). pose (r2 := r mod 100).
  pose (f := r2 / 4). pose (g := r2 mod 4).
  assert (HY : Y = 400 * q + r) by (apply Z.div_mod; lia).
  assert (Hr : 0 <= r < 400) by (apply Z.mod_pos_bound; lia).
  assert (Hr' : r = 100 * c + r2) by (apply Z.div_mod; lia).
  assert (Hr2 : 0 <= r2 < 100) by (apply Z.mod_pos_bound; lia).
  assert (Hr2' : r2 = 4 * f + g) by (apply Z.div_mod; lia).
  assert (Hg : 0 <= g < 4) by (apply Z.mod_pos_bound; lia).
  clearbody q r c r2 f g.
  assert (E4 : Y / 4 = 100 * q + 25 * c + f) by (apply div_eq; lia).
  assert (E100 : Y / 100 = 4 * q + c) by (apply div_eq; lia).
  assert (E400 : Y / 400 = q) by (apply div_eq; lia).
  rewrite E4, E100, E400.
  assert (M4 : year mod 4 = (g + 1) mod 4).
  { unfold Y in HY. replace year with ((g + 1) + (100 * q + 25 * c + f) * 4) by lia.
    apply Z.mod_add. lia. }
  assert (M100 : year mod 100 = (r2 + 1) mod 100).
  { unfold Y in HY. replace year with ((r2 + 1) + (4 * q + c) * 100) by lia.
    apply Z.mod_add. lia. }
  assert (M400 : year mod 400 = (r + 1) mod 400).
  { unfold Y in HY. replace year with ((r + 1) + q * 400) by lia.
    apply Z.mod_add. lia. }
  rewrite M4, M100, M400 in Hy.
  assert (Hleap : yday < 365 \/
                  (yday = 365 /\ g = 3 /\ (r2 <> 99 \/ r = 399))).
  { destruct (Z.eqb_spec ((g + 1) mod 4) 0) as [G | G];
      [| cbn [andb] in Hy; lia].
    assert (g = 3) by (destruct (Z.eq_dec g 3); [assumption |];
                       rewrite Z.mod_small in G; lia).
    destruct (Z.eqb_spec ((r2 + 1) mod 100) 0) as [R2 | R2].
    - destruct (Z.eqb_spec ((r + 1) mod 400) 0) as [R | R];
        cbn [andb orb negb] in Hy; [| lia].
      assert (r = 399) by (destruct (Z.eq_dec r 399); [assumption |];
                           rewrite Z.mod_small in R; lia).
      lia.
    - assert (r2 <> 99) by (intros ->; apply R2; reflexivity).
      cbn [andb orb negb] in Hy. lia. }
  assert (Hy0 : 0 <= yday) by lia.
  clear Hy M4 M100 M400 E4 E100 E400.
  set (days := 365 * Y + (100 * q + 25 * c + f) - (4 * q + c) + q + yday).
  assert (Hdays : days = 146097 * q + 36524 * c + 1461 * f + 365 * g + yday)
    by (unfold days; lia).
  clearbody days. subst days.
  assert (Hc : 0 <= c <= 3) by lia.
  assert (Hf : 0 <= f <= 24) by lia.
  assert (E1 : (146097 * q + 36524 * c + 1461 * f + 365 * g + yday) / 146097 = q)
    by (apply div_eq; lia).
  rewrite E1.
  replace (146097 * q + 36524 * c + 1461 * f + 365 * g + yday - 146097 * q)
    with (36524 * c + 1461 * f + 365 * g + yday) by lia.
  rewrite (capped_quot 36524 _ c) by lia.
  replace (36524 * c + 1461 * f + 365 * g + yday - 36524 * c)
    with (1461 * f + 365 * g + yday) by lia.
  assert (E3 : (1461 * f + 365 * g + yday) / 1461 = f) by (apply div_eq; lia).
  rewrite E3.
  replace (1461 * f + 365 * g + yday - 1461 * f) with (365 * g + yday) by lia.
  rewrite (capped_quot 365 _ g) by lia.
  f_equal; lia.
Qed.

Ltac enumerate x lo hi :=
  let rec go n k :=
    lazymatch k with
    | O => exfalso; lia
    | S ?k' =>
        let H := fresh in
        let n' := eval cbv in (n + 1) in
        destruct (Z.eq_dec x n) as [H | H];
        [subst x | go n' k']
    end in
  go lo hi.

Ltac eval_daysBefore :=
  repeat match goal with
         | |- context [Time.daysBefore ?a] =>
             let v := eval vm_compute in (Time.daysBefore a) in
             change (Time.daysBefore a) with v
         | H : context [Time.daysBefore ?a] |- _ =>
             let v := eval vm_compute in (Time.daysBefore a) in
             change (Time.daysBefore a) with v in H
         end.

Lemma ydayOf_range leap m d :
  validDay leap m d -> 0 <= ydayOf leap m d < 365 + (if leap then 1 else 0).
Proof.
  unfold validDay, ydayOf. intros [Hm Hd].
  destruct leap;
    (enumerate m 1 12%nat); cbn in Hd |- *; eval_daysBefore; lia.
Qed.

Lemma monthDay_ydayOf leap m d :
  validDay leap m d -> Time.monthDay leap (ydayOf leap m d) = (m, d).
Proof.
  unfold validDay, ydayOf. intros [Hm Hd].
  destruct leap;
    (enumerate m 1 12%nat); cbn in Hd; eval_daysBefore;
    (enumerate d 1 31%nat); try (exfalso; lia); reflexivity.
Qed.

Lemma norm_small hi lo base : 0 <= lo < base -> Time.norm hi lo base = (hi, lo).
Proof.
  intros H. unfold Time.norm.
  rewrite Z.div_small, Z.mod_small by lia. f_equal. lia.
Qed.

(** [Date] on fields that are in range. *)
Lemma Date_in_range y m d h mi s ns :
  1 <= m <= 12 -> 0 <= h < 24 -> 0 <= mi < 60 -> 0 <= s < 60 ->
  0 <= ns < 1000000000 ->
  Time.Date y m d h mi s ns =
  Time.mkTime ((Time.daysSinceEpoch y + ydayOf (Time.isLeap y) m d) * 86400
               + (h * 3600 + mi * 60 + s)) ns.
Proof.
  intros Hm Hh Hmi Hs Hns. unfold Time.Date, ydayOf, Time.secondsPerDay.
  rewrite (norm_small y (m - 1) 12) by lia.
  rewrite (norm_small s ns 1000000000) by lia.
  rewrite (norm_small mi s 60) by lia.
  rewrite (norm_small h mi 60) by lia.
  rewrite (norm_small d h 24) by lia.
  replace (m - 1 + 1) with m by lia.
  destruct (Time.isLeap y && (3 <=? m)); f_equal; lia.
Qed.

Lemma absDate_Date y m d h mi s ns :
  validDay (Time.isLeap y) m d -> 0 <= h < 24 -> 0 <= mi < 60 -> 0 <= s < 60 ->
  0 <= ns < 1000000000 ->
  Time.absDate (Time.sec (Time.Date y m d h mi s ns) / Time.secondsPerDay) = (y, m, d) /\
  Time.absClock (Time.sec (Time.Date y m d h mi s ns)) = (h, mi, s).
Proof.
  intros Hv Hh Hmi Hs Hns.
  rewrite Date_in_range by (try apply Hv; lia).
  cbn [Time.sec]. unfold Time.secondsPerDay.
  pose proof (ydayOf_range _ _ _ Hv) as Hyd.
  set (days := Time.daysSinceEpoch y + ydayOf (Time.isLeap y) m d).
  set (tod := h * 3600 + mi * 60 + s).
  assert (Htod : 0 <= tod < 86400) by (unfold tod; lia).
  split.
  - rewrite (div_eq (days * 86400 + tod) 86400 days) by lia.
    unfold Time.absDate, days.
    rewrite absYday_daysSinceEpoch by exact Hyd.
    rewrite monthDay_ydayOf by exact Hv. reflexivity.
  - unfold Time.absClock, Time.secondsPerDay.
    rewrite Z.add_comm, Z.mod_add by lia.
    rewrite (Z.mod_small tod) by lia. unfold tod.
    rewrite (div_eq (h * 3600 + mi * 60 + s) 3600 h) by lia.
    replace ((h * 3600 + mi * 60 + s) mod 3600) with (mi * 60 + s)
      by (apply (Z.mod_unique_pos _ 3600 h); lia).
    rewrite (div_eq (mi * 60 + s) 60 mi) by lia.
    replace ((h * 3600 + mi * 60 + s) mod 60) with s
      by (apply (Z.mod_unique_pos _ 60 (h * 60 + mi)); lia).
    reflexivity.
Qed.

(** ** Digits *)

Lemma digit_facts c :
  isDigitByte c = true ->
  0 <= digitVal c <= 9 /\ digitChar (digitVal c) = c /\ Ascii.eqb c " " = false.
Proof.
  destruct c as [[] [] [] [] [] [] [] []]; intros H;
    try discriminate H; repeat split; try reflexivity; vm_compute; discriminate.
Qed.

Lemma appendInt_two_digits c0 c1 :
  isDigitByte c0 = true -> isDigitByte c1 = true ->
  Time.appendInt (digitVal c0 * 10 + digitVal c1) 2 = String c0 (String c1 EmptyString).
Proof.
  intros H0 H1.
  destruct (digit_facts c0 H0) as (B0 & E0 & _).
  destruct (digit_facts c1 H1) as (B1 & E1 & _).
  unfold Time.appendInt. set (n := digitVal c0 * 10 + digitVal c1).
  rewrite Z.abs_eq by lia.
  destruct (Z.ltb_spec n 0) as [Hneg | _]; [lia |].
  destruct (Z.ltb_spec n 100) as [_ | Hbig]; [| lia].
  cbn [Nat.eqb andb]. rewrite append_nil.
  rewrite (div_eq n 10 (digitVal c0)) by lia.
  replace (n mod 10) with (digitVal c1)
    by (apply (Z.mod_unique_pos _ 10 (digitVal c0)); lia).
  rewrite E0, E1. reflexivity.
Qed.

Lemma appendInt_one_digit c0 :
  isDigitByte c0 = true ->
  Time.appendInt (digitVal c0) 2 = String "0" (String c0 EmptyString).
Proof.
  intros H0.
  replace (digitVal c0) with (digitVal "0" * 10 + digitVal c0) by reflexivity.
  apply appendInt_two_digits; [reflexivity | exact H0].
Qed.

Lemma appendInt_four_digits c0 c1 c2 c3 :
  isDigitByte c0 = true -> isDigitByte c1 = true ->
  isDigitByte c2 = true -> isDigitByte c3 = true ->
  Time.appendInt (((digitVal c0 * 10 + digitVal c1) * 10 + digitVal c2) * 10 + digitVal c3) 4
  = String c0 (String c1 (String c2 (String c3 EmptyString))).
Proof.
  intros H0 H1 H2 H3.
  destruct (digit_facts c0 H0) as (B0 & E0 & _).
  destruct (digit_facts c1 H1) as (B1 & E1 & _).
  destruct (digit_facts c2 H2) as (B2 & E2 & _).
  destruct (digit_facts c3 H3) as (B3 & E3 & _).
  unfold Time.appendInt.
  set (n := ((digitVal c0 * 10 + digitVal c1) * 10 + digitVal c2) * 10 + digitVal c3).
  rewrite Z.abs_eq by lia.
  destruct (Z.ltb_spec n 0) as [Hneg | _]; [lia |].
  destruct (Z.ltb_spec n 10000) as [_ | Hbig]; [| lia].
  cbn [Nat.eqb andb]. rewrite append_nil.
  rewrite (div_eq n 100 (digitVal c0 * 10 + digitVal c1)) by lia.
  replace (n mod 100) with (digitVal c2 * 10 + digitVal c3)
    by (apply (Z.mod_unique_pos _ 100 (digitVal c0 * 10 + digitVal c1)); lia).
  rewrite (div_eq (digitVal c0 * 10 + digitVal c1) 10 (digitVal c0)) by lia.
  replace ((digitVal c0 * 10 + digitVal c1) mod 10) with (digitVal c1)
    by (apply (Z.mod_unique_pos _ 10 (digitVal c0)); lia).
  rewrite (div_eq (digitVal c2 * 10 + digitVal c3) 10 (digitVal c2)) by lia.
  replace ((digitVal c2 * 10 + digitVal c3) mod 10) with (digitVal c3)
    by (apply (Z.mod_unique_pos _ 10 (digitVal c2)); lia).
  rewrite E0, E1, E2, E3. reflexivity.
Qed.

(** ** The elements of [Parse], inverted *)

Lemma bind_Ok {E A B} (r : result E A) (k : A -> result E B) b :
  bind r k = Ok b -> exists a, r = Ok a /\ k a = Ok b.
Proof. destruct r as [a | e]; cbn; [eauto | discriminate]. Qed.

Lemma orBad_Ok {A} elem (o : option A) a : Time.orBad elem o = Ok a -> o = Some a.
Proof. destruct o; cbn; congruence. Qed.

Lemma checkRange_Ok what lo x hi u : Time.checkRange what lo x hi = Ok u -> lo <= x <= hi.
Proof.
  unfold Time.checkRange.
  destruct (Z.ltb_spec x lo); destruct (Z.ltb_spec hi x); cbn; try discriminate. lia.
Qed.

Lemma getLongYear_Some s y rest :
  Time.getLongYear s = Some (y, rest) ->
  exists c0 c1 c2 c3,
    s = String c0 (String c1 (String c2 (String c3 rest))) /\
    isDigitByte c0 = true /\ isDigitByte c1 = true /\
    isDigitByte c2 = true /\ isDigitByte c3 = true /\
    y = ((digitVal c0 * 10 + digitVal c1) * 10 + digitVal c2) * 10 + digitVal c3.
Proof.
  unfold Time.getLongYear.
  destruct s as [| c0 [| c1 [| c2 [| c3 r]]]]; try discriminate.
  cbn [String.length Nat.ltb Nat.leb orb Time.isDigit0 Nat.sub String.substring].
  destruct (isDigitByte c0) eqn:E0; [| discriminate]. cbn [negb Time.leadingDigits].
  rewrite E0.
  destruct (isDigitByte c1) eqn:E1; [| discriminate].
  destruct (isDigitByte c2) eqn:E2; [| discriminate].
  destruct (isDigitByte c3) eqn:E3; [| discriminate].
  replace (String.substring 0 0 r) with EmptyString by (destruct r; reflexivity).
  rewrite Nat.sub_0_r, substring_0_length. cbn [Time.leadingDigits].
  intros H. injection H as <- <-.
  exists c0, c1, c2, c3. repeat split; try assumption; lia.
Qed.

Lemma getnum_fixed_Some s n rest :
  Time.getnum s true = Some (n, rest) ->
  exists c0 c1, s = String c0 (String c1 rest) /\
                isDigitByte c0 = true /\ isDigitByte c1 = true /\
                n = digitVal c0 * 10 + digitVal c1.
Proof.
  unfold Time.getnum. destruct s as [| c0 [| c1 r]]; try discriminate;
    destruct (isDigitByte c0) eqn:E0; try discriminate.
  destruct (isDigitByte c1) eqn:E1; [| discriminate].
  intros H. injection H as <- <-. exists c0, c1. repeat split; assumption.
Qed.

Lemma getnum_free_Some s n rest :
  Time.getnum s false = Some (n, rest) ->
  (exists c0 c1, s = String c0 (String c1 rest) /\
                 isDigitByte c0 = true /\ isDigitByte c1 = true /\
                 n = digitVal c0 * 10 + digitVal c1) \/
  (exists c0, s = String c0 rest /\ isDigitByte c0 = true /\ n = digitVal c0).
Proof.
  unfold Time.getnum. destruct s as [| c0 [| c1 r]]; try discriminate;
    destruct (isDigitByte c0) eqn:E0; try discriminate.
  - intros H. injection H as <- <-. right. exists c0. repeat split; assumption.
  - destruct (isDigitByte c1) eqn:E1; intros H; injection H as <- <-.
    + left. exists c0, c1. repeat split; assumption.
    + right. exists c0. repeat split; assumption.
Qed.

Lemma skipByte_Some s c rest : Time.skipByte s c = Some rest -> s = String c rest.
Proof.
  unfold Time.skipByte. destruct s as [| c' r]; [discriminate |].
  destruct (Ascii.eqb_spec c' c) as [-> | _]; [| discriminate].
  intros H. injection H as <-. reflexivity.
Qed.

Lemma cutspace_no_space s : Strings.containsByte s " " = false -> Time.cutspace s = s.
Proof.
  destruct s as [| c s]; [reflexivity |]. cbn.
  destruct (Ascii.eqb c " "); [discriminate | reflexivity].
Qed.

(** What follows the seconds: nothing, or a separator and at least one
    digit. *)
Lemma fracSecond_all value ns :
  Time.fracSecond value = (ns, EmptyString) ->
  (value = EmptyString /\ ns = 0) \/ (2 <= String.length value)%nat.
Proof.
  unfold Time.fracSecond. destruct value as [| c0 [| c1 r]].
  - intros H. injection H as <-. left. split; reflexivity.
  - intros H. discriminate H.
  - intros _. right. cbn. lia.
Qed.

Lemma skipSpace_Some v v' :
  Time.skipSpace v = Some v' ->
  (v = EmptyString /\ v' = EmptyString) \/
  (exists r, v = String " " r /\ v' = Time.cutspace r).
Proof.
  unfold Time.skipSpace. destruct v as [| c r].
  - intros H. injection H as <-. left. split; reflexivity.
  - destruct (Ascii.eqb_spec c " ") as [-> | _]; [| discriminate].
    intros H. injection H as <-. right. exists r. split; reflexivity.
Qed.

(** Where the date ends: a prefix without space, followed by nothing or by
    a space, is the field in front of the first space. *)
Lemma split_at_space a v d t :
  Strings.containsByte a " " = false -> Strings.containsByte d " " = false ->
  a +:+ v = d +:+ String " " t ->
  v = EmptyString \/ (exists r, v = String " " r) ->
  a = d /\ v = String " " t.
Proof.
  revert d. induction a as [| c a IH]; intros d Ha Hd Heq Hv.
  - rewrite append_nil in Heq. destruct d as [| c' d].
    + rewrite append_nil in Heq. split; [reflexivity | exact Heq].
    + rewrite append_cons in Heq. exfalso.
      destruct Hv as [-> | [r ->]]; [discriminate Heq |].
      injection Heq as <- _. cbn in Hd. discriminate Hd.
  - rewrite append_cons in Heq. cbn in Ha. apply orb_false_iff in Ha as [Hc Ha].
    destruct d as [| c' d].
    + rewrite append_nil in Heq. injection Heq as -> _.
      cbn in Hc. discriminate Hc.
    + rewrite append_cons in Heq. injection Heq as <- Heq.
      cbn in Hd. apply orb_false_iff in Hd as [_ Hd].
      destruct (IH d Ha Hd Heq Hv) as [-> ->]. split; reflexivity.
Qed.

Lemma length_substring_le n m s : (String.length (String.substring n m s) <= m)%nat.
Proof.
  revert n m. induction s as [| c s IH]; intros n m.
  - destruct n, m; cbn; lia.
  - destruct n as [| n]; [destruct m as [| m] |]; cbn; [lia | | apply IH].
    specialize (IH 0%nat m). lia.
Qed.

Lemma leadingDigits_bound s acc v :
  Time.leadingDigits acc s = Some v -> 0 <= acc ->
  acc * 10 ^ Z.of_nat (String.length s) <= v < (acc + 1) * 10 ^ Z.of_nat (String.length s).
Proof.
  revert acc. induction s as [| c s IH]; intros acc H Hacc.
  - cbn in H. injection H as <-. cbn. lia.
  - cbn [Time.leadingDigits] in H.
    destruct (isDigitByte c) eqn:E; [| discriminate H].
    destruct (digit_facts c E) as (B & _ & _).
    specialize (IH _ H ltac:(lia)).
    cbn [String.length]. rewrite Nat2Z.inj_succ, Z.pow_succ_r by lia.
    set (p := 10 ^ Z.of_nat (String.length s)) in *.
    assert (0 < p) by (apply Z.pow_pos_nonneg; lia).
    nia.
Qed.

Lemma parseNanoseconds_bound digits : 0 <= Time.parseNanoseconds digits < 1000000000.
Proof.
  unfold Time.parseNanoseconds.
  pose proof (length_substring_le 0 9 digits) as Hlen.
  set (d := String.substring 0 9 digits) in *.
  destruct (Time.leadingDigits 0 d) as [v |] eqn:E; [| lia].
  apply leadingDigits_bound in E; [| lia].
  set (k := Z.of_nat (String.length d)) in *.
  assert (Hk : 0 <= k <= 9) by lia.
  assert (Hp : 10 ^ k * 10 ^ (9 - k) = 1000000000).
  { rewrite <- Z.pow_add_r by lia. replace (k + (9 - k)) with 9 by lia. reflexivity. }
  assert (0 < 10 ^ (9 - k)) by (apply Z.pow_pos_nonneg; lia).
  assert (0 < 10 ^ k) by (apply Z.pow_pos_nonneg; lia).
  nia.
Qed.

Lemma fracSecond_bound value ns rest :
  Time.fracSecond value = (ns, rest) -> 0 <= ns < 1000000000.
Proof.
  unfold Time.fracSecond. destruct value as [| c0 [| c1 r]];
    try (intros H; injection H as <- _; lia).
  destruct (Time.commaOrPeriod c0 && isDigitByte c1);
    [| intros H; injection H as <- _; lia].
  destruct (Time.spanDigits (String c1 r)) as [d r'].
  intros H. injection H as <- _. apply parseNanoseconds_bound.
Qed.

(** ** Parsing, then formatting *)

Ltac parse_step H x Hx :=
  apply bind_Ok in H as (x & Hx & H).

Lemma Format_Date y m d h mi s ns :
  validDay (Time.isLeap y) m d -> 0 <= h < 24 -> 0 <= mi < 60 -> 0 <= s < 60 ->
  0 <= ns < 1000000000 ->
  Time.Format (Time.Date y m d h mi s ns) =
  Time.appendInt y 4 +:+ "-" +:+ Time.appendInt m 2 +:+ "-" +:+ Time.appendInt d 2 +:+ " " +:+
  Time.appendInt h 2 +:+ ":" +:+ Time.appendInt mi 2 +:+ ":" +:+ Time.appendInt s 2.
Proof.
  intros Hv Hh Hmi Hs Hns. unfold Time.Format.
  destruct (absDate_Date y m d h mi s ns Hv Hh Hmi Hs Hns) as [-> ->].
  reflexivity.
Qed.

(** The text that [Parse] accepts as date and time of a line, and what
    [Format] makes of the result: always 19 bytes, and the text itself when
    the text has 19 bytes. *)
Lemma Parse_then_Format d t tm :
  Strings.containsByte d " " = false -> Strings.containsByte t " " = false ->
  Time.Parse (d +:+ " " +:+ t) = Ok tm ->
  String.length (Time.Format tm) = 19%nat /\
  (String.length (d +:+ " " +:+ t) = 19%nat -> Time.Format tm = d +:+ " " +:+ t).
Proof.
  intros Hd Ht H. unfold Time.Parse in H.
  parse_step H yv Hy. destruct yv as [y v1]. apply orBad_Ok in Hy.
  apply getLongYear_Some in Hy as (y0 & y1 & y2 & y3 & Hval & Dy0 & Dy1 & Dy2 & Dy3 & ->).
  parse_step H v2 H2. apply orBad_Ok, skipByte_Some in H2. subst v1.
  parse_step H mv Hm. destruct mv as [mo v3]. apply orBad_Ok in Hm.
  apply getnum_fixed_Some in Hm as (m0 & m1 & -> & Dm0 & Dm1 & ->).
  parse_step H u1 Rm. apply checkRange_Ok in Rm.
  parse_step H v4 H4. apply orBad_Ok, skipByte_Some in H4. subst v3.
  parse_step H dv Hdd. destruct dv as [dd v5]. apply orBad_Ok in Hdd.
  apply getnum_fixed_Some in Hdd as (d0 & d1 & -> & Dd0 & Dd1 & ->).
  parse_step H v6 H6. apply orBad_Ok, skipSpace_Some in H6.
  (* the date field is the ten bytes read so far *)
  assert (Hsplit :
            String y0 (String y1 (String y2 (String y3 (String "-"
              (String m0 (String m1 (String "-" (String d0 (String d1 EmptyString)))))))))
            = d /\ v5 = String " " t).
  { apply split_at_space; [| exact Hd | symmetry; exact Hval |].
    - cbn [Strings.containsByte].
      destruct (digit_facts y0 Dy0) as (_ & _ & ->).
      destruct (digit_facts y1 Dy1) as (_ & _ & ->).
      destruct (digit_facts y2 Dy2) as (_ & _ & ->).
      destruct (digit_facts y3 Dy3) as (_ & _ & ->).
      destruct (digit_facts m0 Dm0) as (_ & _ & ->).
      destruct (digit_facts m1 Dm1) as (_ & _ & ->).
      destruct (digit_facts d0 Dd0) as (_ & _ & ->).
      destruct (digit_facts d1 Dd1) as (_ & _ & ->).
      reflexivity.
    - destruct H6 as [[-> _] | (r & -> & _)]; [left; reflexivity | right; eauto]. }
  destruct Hsplit as [<- ->]. clear Hval Hd.
  destruct H6 as [[Hnil _] | (r & Hr & ->)]; [discriminate Hnil |].
  injection Hr as <-. rewrite (cutspace_no_space t Ht) in H. clear Ht.
  parse_step H hv Hh. destruct hv as [h v7]. apply orBad_Ok in Hh.
  parse_step H u2 Rh. apply checkRange_Ok in Rh.
  parse_step H v8 H8. apply orBad_Ok, skipByte_Some in H8. subst v7.
  parse_step H iv Hi. destruct iv as [mi v9]. apply orBad_Ok in Hi.
  apply getnum_fixed_Some in Hi as (i0 & i1 & -> & Di0 & Di1 & ->).
  parse_step H u3 Ri. apply checkRange_Ok in Ri.
  parse_step H v10 H10. apply orBad_Ok, skipByte_Some in H10. subst v9.
  parse_step H sv Hs. destruct sv as [s v11]. apply orBad_Ok in Hs.
  apply getnum_fixed_Some in Hs as (s0 & s1 & -> & Ds0 & Ds1 & ->).
  parse_step H u4 Rs. apply checkRange_Ok in Rs.
  destruct (Time.fracSecond v11) as [ns v12] eqn:Hfrac.
  destruct v12 as [| c12 v12]; [| discriminate H].
  pose proof (fracSecond_bound _ _ _ Hfrac) as Hns.
  apply fracSecond_all in Hfrac.
  match type of H with
  | (if ?b then _ else _) = _ => destruct b eqn:Hday; [discriminate H |]
  end.
  injection H as <-.
  apply orb_false_iff in Hday as [Hd1 Hd2].
  apply Z.ltb_ge in Hd1. apply Z.ltb_ge in Hd2.
  assert (Hv : validDay (Time.isLeap (((digitVal y0 * 10 + digitVal y1) * 10 + digitVal y2) * 10
                                      + digitVal y3))
                 (digitVal m0 * 10 + digitVal m1) (digitVal d0 * 10 + digitVal d1)).
  { split; [exact Rm |]. unfold Time.daysIn in Hd2. lia. }
  rewrite Format_Date by (try exact Hv; lia).
  rewrite appendInt_four_digits, !appendInt_two_digits by assumption.
  apply getnum_free_Some in Hh
    as [(h0 & h1 & -> & Dh0 & Dh1 & ->) | (h0 & -> & Dh0 & ->)].
  - rewrite appendInt_two_digits by assumption. split; [reflexivity |].
    intros Hlen. destruct Hfrac as [[-> _] | Hfrac]; [reflexivity |].
    exfalso. revert Hlen. rewrite !length_append. cbn [String.length]. lia.
  - rewrite appendInt_one_digit by assumption. split; [reflexivity |].
    intros Hlen. exfalso. revert Hlen. rewrite !length_append. cbn [String.length].
    destruct Hfrac as [[-> _] | Hfrac]; cbn [String.length]; lia.
Qed.

(** What a successful [NewLogEntry] says about the line. *)
Lemma NewLogEntry_Ok line entry :
  NewLogEntry line = (entry, None) ->
  exists d t l m,
    Strings.SplitN line " " 4 = [d; t; l; m] /\
    Strings.containsByte d " " = false /\ Strings.containsByte t " " = false /\
    Time.Parse (d +:+ " " +:+ t) = Ok (time entry) /\
    level entry = l /\ message entry = m.
Proof.
  unfold NewLogEntry.
  pose proof (len_SplitN_4 line) as Hlen.
  pose proof (genSplit_fields " " line 3) as Hfields.
  change (Strings.genSplit " " line 3) with (Strings.SplitN line " " 4) in Hfields.
  destruct (Z.ltb_spec (len (Strings.SplitN line " " 4)) 4) as [| Hge];
    [discriminate |].
  destruct (Strings.SplitN line " " 4) as [| d [| t [| l [| m rest]]]];
    try (unfold len in Hge; cbn in Hge; lia).
  destruct rest; [| unfold len in Hlen; cbn in Hlen; lia].
  cbn [nth].
  destruct (Time.Parse (d +:+ " " +:+ t)) as [tm | e] eqn:Hp; [| discriminate].
  intros H. injection H as <-.
  exists d, t, l, m. repeat split; try reflexivity.
  - apply (Hfields 0%nat); [lia | reflexivity].
  - apply (Hfields 1%nat); [lia | reflexivity].
  - exact Hp.
Qed.

(** C8, amended: for every line that [NewLogEntry] parses, formatting the
    time of the entry with the same layout gives 19 bytes, and these are the
    date and time of the line (the first two fields joined by one space)
    exactly when that text has 19 bytes itself, that is, when the hour is
    written with two digits and nothing follows the seconds. *)
Theorem C8_timestamp_round_trip (line : string) (entry : LogEntry) :
  NewLogEntry line = (entry, None) ->
  let fields := Strings.SplitN line " " 4 in
  let value := nth 0 fields "" +:+ " " +:+ nth 1 fields "" in
  String.length (Time.Format (time entry)) = 19%nat /\
  (Time.Format (time entry) = value <-> String.length value = 19%nat).
Proof.
  intros H fields value.
  apply NewLogEntry_Ok in H as (d & t & l & m & Hf & Hd & Ht & Hp & _ & _).
  unfold value, fields. rewrite Hf. cbn [nth].
  destruct (Parse_then_Format d t (time entry) Hd Ht Hp) as [Hlen Hsame].
  split; [exact Hlen |]. split.
  - intros <-. exact Hlen.
  - exact Hsame.
Qed.

Lemma C8_witness :
  let line := "2024-01-01 10:00:00 INFO started ok" in
  let entry := mkLogEntry (Time.Date 2024 1 1 10 0 0 0) "INFO" "started ok" in
  NewLogEntry line = (entry, None) /\
  (let fields := Strings.SplitN line " " 4 in
   let value := nth 0 fields "" +:+ " " +:+ nth 1 fields "" in
   String.length (Time.Format (time entry)) = 19%nat /\
   (Time.Format (time entry) = value <-> String.length value = 19%nat)).
Proof.
  intros line entry.
  assert (H : NewLogEntry line = (entry, None)) by reflexivity.
  split; [exact H | exact (C8_timestamp_round_trip line entry H)].
Defined.

(** A line with a one-digit hour, and one with a fraction of a second, are
    parsed, and the formatted time differs from the text of the line. *)
Lemma C8_counterexample :
  NewLogEntry "2024-01-01 9:00:00 INFO x"
  = (mkLogEntry (Time.Date 2024 1 1 9 0 0 0) "INFO" "x", None) /\
  Time.Format (Time.Date 2024 1 1 9 0 0 0) = "2024-01-01 09:00:00" /\
  Time.Format (Time.Date 2024 1 1 9 0 0 0) <> "2024-01-01 9:00:00" /\
  NewLogEntry "2024-01-01 10:00:00.5 INFO x"
  = (mkLogEntry (Time.Date 2024 1 1 10 0 0 500000000) "INFO" "x", None) /\
  Time.Format (Time.Date 2024 1 1 10 0 0 500000000) = "2024-01-01 10:00:00" /\
  Time.Format (Time.Date 2024 1 1 10 0 0 500000000) <> "2024-01-01 10:00:00.5".
Proof.
  repeat split; try reflexivity; vm_compute; discriminate.
Qed.

(** * Further properties of the program *)

(** ** [isLogFile] *)

Lemma cut_app sep base rest :
  Strings.containsByte base sep = false ->
  Strings.cut sep (base +:+ String sep rest) = Some (base, rest).
Proof.
  induction base as [| c base IH]; intros Hno.
  - rewrite append_nil. cbn. rewrite Ascii.eqb_refl. reflexivity.
  - rewrite append_cons. cbn in Hno |- *.
    apply orb_false_iff in Hno as [Hc Hno].
    rewrite Hc, (IH Hno). reflexivity.
Qed.

(** X1.  [isLogFile] accepts exactly the names made of a dot-free part followed
    by [.log] or [.txt]: the extension is everything after the first dot of
    the whole argument, so that a name with an earlier dot, such as a path
    that starts with [./] or a name ending in [.log.bak], is refused. *)
Theorem isLogFile_iff (file : string) :
  (isLogFile file = true <->
   exists base, Strings.containsByte base "." = false /\
                (file = base +:+ ".log" \/ file = base +:+ ".txt")) /\
  (forall dir name, isLogFile (dir +:+ "." +:+ name +:+ ".log") = false) /\
  (forall dir name, isLogFile (dir +:+ "." +:+ name +:+ ".txt") = false).
Proof.
  assert (Hiff : forall file0,
             isLogFile file0 = true <->
             exists base, Strings.containsByte base "." = false /\
                          (file0 = base +:+ ".log" \/ file0 = base +:+ ".txt")).
  { intros file0. unfold isLogFile, Cut. split.
    - destruct (Strings.cut "." file0) as [[before after] |] eqn:Hcut.
      + apply cut_Some in Hcut as [-> Hno].
        destruct (String.eqb_spec after "log") as [-> | _].
        * intros _. exists before. split; [exact Hno | left; reflexivity].
        * destruct (String.eqb_spec after "txt") as [-> | _]; [| discriminate].
          intros _. exists before. split; [exact Hno | right; reflexivity].
      + cbn. discriminate.
    - intros (base & Hno & [-> | ->]).
      + change (base +:+ ".log") with (base +:+ String "." "log").
        rewrite (cut_app "." base "log" Hno). reflexivity.
      + change (base +:+ ".txt") with (base +:+ String "." "txt").
        rewrite (cut_app "." base "txt" Hno). reflexivity. }
  assert (Hext : forall dir rest,
             Strings.containsByte rest "." = true ->
             isLogFile (dir +:+ String "." rest) = true -> False).
  { intros dir rest Hdot. unfold isLogFile, Cut.
    destruct (Strings.cut "." (dir +:+ String "." rest)) as [[before after] |] eqn:Hcut.
    - assert (Hafter : Strings.containsByte after "." = true).
      { revert before Hcut. induction dir as [| c dir IH]; intros before Hcut.
        - rewrite append_nil in Hcut. cbn in Hcut. injection Hcut as _ <-. exact Hdot.
        - rewrite append_cons in Hcut. cbn [Strings.cut] in Hcut.
          destruct (Ascii.eqb_spec c ".") as [-> | _].
          + injection Hcut as _ <-.
            clear IH. induction dir as [| c' dir IH'].
            * rewrite append_nil. cbn. reflexivity.
            * rewrite append_cons. cbn. rewrite IH'. apply orb_true_r.
          + destruct (Strings.cut "." (dir +:+ String "." rest)) as [[b a] |];
              [| discriminate Hcut].
            injection Hcut as _ <-. apply (IH b). reflexivity. }
      destruct (String.eqb_spec after "log") as [-> | _]; [discriminate Hafter |].
      destruct (String.eqb_spec after "txt") as [-> | _]; [discriminate Hafter |].
      discriminate.
    - cbn. discriminate. }
  split; [apply Hiff |]. split; intros dir name.
  - destruct (isLogFile (dir +:+ "." +:+ name +:+ ".log")) eqn:E; [| reflexivity].
    exfalso. apply (Hext dir (name +:+ ".log")); [| exact E].
    clear. induction name as [| c name IH]; [reflexivity |].
    rewrite append_cons. cbn. rewrite IH. apply orb_true_r.
  - destruct (isLogFile (dir +:+ "." +:+ name +:+ ".txt")) eqn:E; [| reflexivity].
    exfalso. apply (Hext dir (name +:+ ".txt")); [| exact E].
    clear. induction name as [| c name IH]; [reflexivity |].
    rewrite append_cons. cbn. rewrite IH. apply orb_true_r.
Qed.

(** ** What [Analyze] counts *)

Lemma countIf_app p l1 l2 : countIf p (l1 ++ l2) = countIf p l1 + countIf p l2.
Proof. induction l1 as [| e l1 IH]; cbn [countIf app]; [| rewrite IH]; lia. Qed.

Lemma countIf_bounds p l : 0 <= countIf p l <= len l.
Proof.
  unfold len. induction l as [| e l IH]; cbn [countIf length]; [lia |].
  destruct (p e); lia.
Qed.

Lemma countIf_perm p l l' : Permutation l l' -> countIf p l = countIf p l'.
Proof.
  induction 1 as [| e l l' _ IH | e1 e2 l | l1 l2 l3 _ IH1 _ IH2]; cbn [countIf];
    [reflexivity | rewrite IH; reflexivity | lia | congruence].
Qed.

Section Counts.
Variable f : string -> string.

(** A field that [Add] increments for the entries that satisfy [p] counts
    them. *)
Lemma counter_fold (get : AnalysisReport -> Z) (p : LogEntry -> bool) :
  (forall r e, get (Add f r e) = if p e then GoInt.incr (get r) else get r) ->
  get newReport = 0 ->
  forall entries, len entries <= GoInt.MaxInt ->
                  get (fold_left (Add f) entries newReport) = countIf p entries.
Proof.
  intros Hstep H0 entries.
  induction entries as [| e es IH] using rev_ind; intros Hlen; [exact H0 |].
  rewrite len_app in Hlen. change (len [e]) with 1 in Hlen.
  rewrite fold_Add_snoc, Hstep, IH by lia.
  rewrite countIf_app. cbn [countIf].
  pose proof (countIf_bounds p es) as Hb.
  destruct (p e); [| lia].
  rewrite incr_small; [lia |]. unfold GoInt.MinInt. lia.
Qed.

Lemma if_decide_eqb (s t : string) (a b : Z) :
  (if decide (s = t) then a else b) = (if String.eqb s t then a else b).
Proof.
  destruct (decide (s = t)) as [-> | Hne].
  - rewrite String.eqb_refl. reflexivity.
  - destruct (String.eqb_spec s t); [contradiction | reflexivity].
Qed.

Lemma level_counts entries :
  len entries <= GoInt.MaxInt ->
  let r := fold_left (Add f) entries newReport in
  TotalEntries r = len entries /\
  Info r = countIf (fun e => String.eqb (ToLower f (level e)) "info") entries /\
  Warn r = countIf (fun e => String.eqb (ToLower f (level e)) "warn") entries /\
  Error r = countIf (fun e => String.eqb (ToLower f (level e)) "error") entries /\
  Debug r = countIf (fun e => String.eqb (ToLower f (level e)) "debug") entries.
Proof.
  intros Hlen r. unfold r. split; [apply fold_Add_counted; exact Hlen |].
  repeat split; apply counter_fold; try reflexivity; try exact Hlen; intros r0 e.
  - rewrite Info_Add. apply if_decide_eqb.
  - rewrite Warn_Add. apply if_decide_eqb.
  - rewrite Error_Add. apply if_decide_eqb.
  - rewrite Debug_Add. apply if_decide_eqb.
Qed.

Lemma frequency_counts entries m :
  len entries <= GoInt.MaxInt ->
  MsgFrequency (fold_left (Add f) entries newReport) !! m =
  (let n := countIf (fun e => String.eqb (message e) m) entries in
   if n =? 0 then None else Some n).
Proof.
  induction entries as [| e es IH] using rev_ind; intros Hlen; [reflexivity |].
  rewrite len_app in Hlen. change (len [e]) with 1 in Hlen.
  rewrite fold_Add_snoc, MsgFrequency_Add, countIf_app. cbn [countIf].
  pose proof (countIf_bounds (fun e0 => String.eqb (message e0) m) es) as Hb.
  destruct (String.eqb_spec (message e) m) as [-> | Hne].
  - rewrite lookup_insert_eq, IH by lia. cbv zeta.
    set (n := countIf (fun e0 => String.eqb (message e0) m) es) in *.
    assert (Hdef : default 0 (if n =? 0 then None else Some n) = n)
      by (destruct (Z.eqb_spec n 0) as [-> | _]; reflexivity).
    rewrite Hdef, incr_small by (unfold GoInt.MinInt; lia).
    replace (n + (1 + 0)) with (n + 1) by lia.
    destruct (Z.eqb_spec (n + 1) 0); [lia | reflexivity].
  - rewrite lookup_insert_ne by exact Hne. rewrite IH by lia. cbv zeta.
    replace (countIf (fun e0 => String.eqb (message e0) m) es + (0 + 0))
      with (countIf (fun e0 => String.eqb (message e0) m) es) by lia.
    reflexivity.
Qed.

Lemma responseTimes_fold entries r :
  ResponseTime (fold_left (Add f) entries r) =
  ResponseTime r ++ omap (fun e => responseTime (message e)) entries.
Proof.
  revert r. induction entries as [| e es IH]; intros r.
  - cbn. rewrite app_nil_r. reflexivity.
  - cbn [fold_left]. rewrite IH, ResponseTime_Add. simpl.
    destruct (responseTime (message e)); [rewrite <- app_assoc |]; reflexivity.
Qed.

End Counts.

(** X2.  After [Analyze], the frequency of a message is the number of entries
    with exactly that message, whatever the filters: a message that does
    not occur has no key, and a frequency lies between 1 and
    [TotalEntries]. *)
Theorem Analyze_message_frequency (f : string -> string) (entries : list LogEntry)
    (filter : list FilterFunc) (m : string) :
  len entries <= GoInt.MaxInt ->
  let r := Analyze f entries filter in
  let n := countIf (fun e => String.eqb (message e) m) entries in
  MsgFrequency r !! m = (if n =? 0 then None else Some n) /\
  (forall v, MsgFrequency r !! m = Some v -> 1 <= v <= TotalEntries r).
Proof.
  intros Hlen r n. unfold r. rewrite Analyze_fold.
  pose proof (frequency_counts f entries m Hlen) as Hfreq. cbv zeta in Hfreq.
  fold n in Hfreq. split; [exact Hfreq |].
  intros v Hv. rewrite Hfreq in Hv.
  destruct (fold_Add_counted f entries Hlen) as [-> _].
  pose proof (countIf_bounds (fun e => String.eqb (message e) m) entries) as Hb.
  fold n in Hb. destruct (Z.eqb_spec n 0); [discriminate Hv |].
  injection Hv as <-. lia.
Qed.

Lemma Analyze_message_frequency_witness :
  let f := fun s : string => s in
  let entries := [mkLogEntry Time.zero "INFO" "a"; mkLogEntry Time.zero "INFO" "b";
                  mkLogEntry Time.zero "WARN" "a"] in
  len entries <= GoInt.MaxInt /\
  MsgFrequency (Analyze f entries []) !! "a" = Some 2 /\
  MsgFrequency (Analyze f entries []) !! "c" = None.
Proof.
  intros f entries.
  assert (H : len entries <= GoInt.MaxInt) by (vm_compute; discriminate).
  split; [exact H |]. split.
  - exact (proj1 (Analyze_message_frequency f entries [] "a" H)).
  - exact (proj1 (Analyze_message_frequency f entries [] "c" H)).
Defined.

(** X3.  After [Analyze], each of the four counters is the number of entries
    whose lower-cased level is its name, and [TotalEntries] the number of
    all entries, whatever the filters. *)
Theorem Analyze_level_counts (f : string -> string) (entries : list LogEntry)
    (filter : list FilterFunc) :
  len entries <= GoInt.MaxInt ->
  let r := Analyze f entries filter in
  TotalEntries r = len entries /\
  Info r = countIf (fun e => String.eqb (ToLower f (level e)) "info") entries /\
  Warn r = countIf (fun e => String.eqb (ToLower f (level e)) "warn") entries /\
  Error r = countIf (fun e => String.eqb (ToLower f (level e)) "error") entries /\
  Debug r = countIf (fun e => String.eqb (ToLower f (level e)) "debug") entries.
Proof.
  intros Hlen r. unfold r. rewrite Analyze_fold. apply level_counts. exact Hlen.
Qed.

Lemma Analyze_level_counts_witness :
  let f := fun s : string => s in
  let entries := [mkLogEntry Time.zero "Error" "a"; mkLogEntry Time.zero "fatal" "b";
                  mkLogEntry Time.zero "ERROR" "c"] in
  len entries <= GoInt.MaxInt /\
  Error (Analyze f entries []) = 2 /\ TotalEntries (Analyze f entries []) = 3.
Proof.
  intros f entries.
  assert (H : len entries <= GoInt.MaxInt) by (vm_compute; discriminate).
  destruct (Analyze_level_counts f entries [] H) as (Ht & _ & _ & He & _).
  split; [exact H |]. split; [exact He | exact Ht].
Defined.

(** X4.  The response times of the report are those of the entries that carry
    one, in the order of the entries, whatever the filters. *)
Theorem Analyze_response_times (f : string -> string) (entries : list LogEntry)
    (filter : list FilterFunc) :
  ResponseTime (Analyze f entries filter)
  = omap (fun e => responseTime (message e)) entries /\
  (length (ResponseTime (Analyze f entries filter)) <= length entries)%nat.
Proof.
  rewrite Analyze_fold, responseTimes_fold. cbn [ResponseTime newReport app].
  split; [reflexivity |].
  induction entries as [| e es IH]; [cbn; lia |].
  change (omap (fun e0 => responseTime (message e0)) (e :: es))
    with (match responseTime (message e) with
          | Some n => n :: omap (fun e0 => responseTime (message e0)) es
          | None => omap (fun e0 => responseTime (message e0)) es
          end).
  destruct (responseTime (message e)); cbn [length]; lia.
Qed.

(** X5.  The counters and the message frequencies do not depend on the order of
    the entries (the response times keep that order). *)
Theorem Analyze_order_of_entries (f : string -> string) (entries entries' : list LogEntry)
    (filter filter' : list FilterFunc) :
  Permutation entries entries' ->
  len entries <= GoInt.MaxInt ->
  let r := Analyze f entries filter in
  let r' := Analyze f entries' filter' in
  TotalEntries r = TotalEntries r' /\ Info r = Info r' /\ Warn r = Warn r' /\
  Error r = Error r' /\ Debug r = Debug r' /\ MsgFrequency r = MsgFrequency r' /\
  Permutation (ResponseTime r) (ResponseTime r').
Proof.
  intros Hperm Hlen r r'.
  assert (Hlen' : len entries' <= GoInt.MaxInt).
  { unfold len in *. rewrite <- (Permutation_length Hperm). exact Hlen. }
  unfold r, r'. rewrite !Analyze_fold.
  destruct (level_counts f entries Hlen) as (-> & -> & -> & -> & ->).
  destruct (level_counts f entries' Hlen') as (-> & -> & -> & -> & ->).
  rewrite !(countIf_perm _ _ _ Hperm).
  unfold len. rewrite (Permutation_length Hperm).
  repeat split; try reflexivity.
  - apply map_eq. intros m.
    rewrite (frequency_counts f entries m Hlen), (frequency_counts f entries' m Hlen').
    cbv zeta. rewrite (countIf_perm _ _ _ Hperm). reflexivity.
  - rewrite !responseTimes_fold. cbn [ResponseTime newReport app].
    apply omap_Permutation. exact Hperm.
Qed.

Lemma Analyze_order_of_entries_witness :
  let f := fun s : string => s in
  let a := mkLogEntry Time.zero "INFO" "took 1 ms" in
  let b := mkLogEntry Time.zero "WARN" "took 2 ms" in
  Permutation [a; b] [b; a] /\ len [a; b] <= GoInt.MaxInt /\
  MsgFrequency (Analyze f [a; b] []) = MsgFrequency (Analyze f [b; a] []) /\
  Info (Analyze f [a; b] []) = Info (Analyze f [b; a] []).
Proof.
  intros f a b.
  assert (Hp : Permutation [a; b] [b; a]) by apply perm_swap.
  assert (H : len [a; b] <= GoInt.MaxInt) by (vm_compute; discriminate).
  destruct (Analyze_order_of_entries f [a; b] [b; a] [] [] Hp H)
    as (_ & Hi & _ & _ & _ & Hm & _).
  split; [exact Hp |]. split; [exact H |]. split; [exact Hm | exact Hi].
Defined.

(** ** The most frequent message, again *)

Lemma Print_last_line r keys1 pairs2 msg :
  mostFrequent (MsgFrequency r) keys1 pairs2 = Some msg ->
  List.last (fst (Print r keys1 pairs2)) "" = "Most frequent mesage: '" +:+ msg +:+ "'"
  /\ snd (Print r keys1 pairs2) = Returned.
Proof.
  intros H. unfold Print. rewrite H. cbn [fst snd]. split; [| reflexivity].
  apply last_last.
Qed.

(** X6.  When one message occurs more often than every other, [Print] names it
    in its last line, in whatever order the two loops visit the map.  With
    two messages of the same greatest frequency the answer follows the
    order of the second loop. *)
Theorem Print_most_frequent_unique (r : AnalysisReport) (keys1 : list string)
    (pairs2 : list (string * Z)) (msg : string) (top : Z) :
  keyOrder (MsgFrequency r) keys1 ->
  pairOrder (MsgFrequency r) pairs2 ->
  MsgFrequency r !! msg = Some top ->
  (forall k v, MsgFrequency r !! k = Some v -> k <> msg -> v < top) ->
  mostFrequent (MsgFrequency r) keys1 pairs2 = Some msg /\
  List.last (fst (Print r keys1 pairs2)) "" = "Most frequent mesage: '" +:+ msg +:+ "'" /\
  (let tie : gmap string Z := {[ "a" := 1; "b" := 1 ]} in
   pairOrder tie [("a", 1); ("b", 1)] /\ pairOrder tie [("b", 1); ("a", 1)] /\
   mostFrequent tie ["a"; "b"] [("a", 1); ("b", 1)] = Some "b" /\
   mostFrequent tie ["a"; "b"] [("b", 1); ("a", 1)] = Some "a").
Proof.
  intros Hkeys Hpairs Hmsg Hunique.
  assert (Hne : MsgFrequency r <> ∅).
  { intros Hempty. rewrite Hempty, lookup_empty in Hmsg. discriminate Hmsg. }
  destruct (mostFrequent_nonempty _ keys1 pairs2 Hkeys Hpairs Hne)
    as (msg' & top' & Hpick & Hmsg' & Hmax).
  assert (msg' = msg) as ->.
  { destruct (decide (msg' = msg)) as [Heq | Hneq]; [exact Heq |].
    pose proof (Hunique msg' top' Hmsg' Hneq). pose proof (Hmax msg top Hmsg). lia. }
  split; [exact Hpick |]. split; [apply Print_last_line, Hpick |].
  assert (Hperm : forall l : list (string * Z),
             (l = [("a", 1); ("b", 1)] \/ l = [("b", 1); ("a", 1)]) ->
             pairOrder ({[ "a" := 1; "b" := 1 ]} : gmap string Z) l).
  { intros l Hl. unfold pairOrder. vm_compute map_to_list.
    destruct Hl as [-> | ->]; first [apply Permutation_refl | apply perm_swap]. }
  repeat split; try reflexivity; apply Hperm; auto.
Qed.

Lemma Print_most_frequent_unique_witness :
  let r := mkReport 3 3 0 0 0 [] {[ "x" := 2; "y" := 1 ]} in
  List.last (fst (Print r ["y"; "x"] [("x", 2); ("y", 1)])) ""
  = "Most frequent mesage: 'x'".
Proof.
  intros r.
  assert (Hk : keyOrder (MsgFrequency r) ["y"; "x"]).
  { unfold keyOrder. vm_compute. first [apply Permutation_refl | apply perm_swap]. }
  assert (Hp : pairOrder (MsgFrequency r) [("x", 2); ("y", 1)]).
  { unfold pairOrder. vm_compute. first [apply Permutation_refl | apply perm_swap]. }
  assert (Hm : MsgFrequency r !! "x" = Some 2) by reflexivity.
  assert (Hu : forall k v, MsgFrequency r !! k = Some v -> k <> "x" -> v < 2).
  { intros k v Hkv Hne. cbn [MsgFrequency r] in Hkv.
    apply lookup_insert_Some in Hkv as [[<- _] | [_ Hkv]]; [contradiction |].
    apply lookup_singleton_Some in Hkv as [_ <-]. lia. }
  exact (proj1 (proj2 (Print_most_frequent_unique r _ _ "x" 2 Hk Hp Hm Hu))).
Defined.

(** ** The filters of [main] *)

Lemma lowerByte_not_upper c :
  let n := N_of_ascii (Strings.lowerByte c) in ((65 <=? n) && (n <=? 90))%N = false.
Proof. destruct c as [[] [] [] [] [] [] [] []]; reflexivity. Qed.

Lemma lowerASCII_no_upper s : hasUpper (Strings.lowerASCII s) = false.
Proof.
  induction s as [| c s IH]; [reflexivity |].
  cbn [Strings.lowerASCII hasUpper]. rewrite IH.
  pose proof (lowerByte_not_upper c) as Hc. cbv zeta in Hc. rewrite Hc. reflexivity.
Qed.

(** X7.  The level names of the flag are taken as they are written, while the
    level of an entry is lower-cased before the look-up: a level set whose
    names all have an upper-case letter marks every entry with an ASCII
    level for exclusion.  The set is never empty. *)
Theorem levelFilter_upper_case_names (f : string -> string) (levels : gset string)
    (e : LogEntry) :
  (forall l, l ∈ levels -> hasUpper l = true) ->
  Strings.isASCII (level e) = true ->
  levelFilter f levels e = true /\
  (forall flag, levelSet flag <> ∅).
Proof.
  intros Hupper Hascii. split.
  - unfold levelFilter, ToLower, Strings.ToLower. rewrite Hascii.
    apply negb_true_iff, bool_decide_eq_false. intros Hin.
    pose proof (Hupper _ Hin) as Hu. rewrite lowerASCII_no_upper in Hu. discriminate Hu.
  - intros flag. unfold levelSet.
    destruct (Strings.Split flag ",") as [| a l] eqn:Hs.
    + destruct (Split_nonempty flag "," Hs).
    + cbn. intros Hempty.
      assert (Ha : a ∈ ({[a]} ∪ list_to_set l : gset string)) by set_solver.
      rewrite Hempty in Ha. set_solver.
Qed.

Lemma levelFilter_upper_case_names_witness :
  let f := fun s : string => s in
  let e := mkLogEntry Time.zero "info" "started" in
  (forall l, l ∈ levelSet "INFO,Warn" -> hasUpper l = true) /\
  Strings.isASCII (level e) = true /\
  levelFilter f (levelSet "INFO,Warn") e = true.
Proof.
  intros f e.
  assert (Hu : forall l, l ∈ levelSet "INFO,Warn" -> hasUpper l = true).
  { intros l Hl. change (levelSet "INFO,Warn") with (list_to_set ["INFO"; "Warn"] : gset string) in Hl.
    cbn in Hl. rewrite !elem_of_union, !elem_of_singleton, elem_of_empty in Hl.
    destruct Hl as [-> | [-> | []]]; reflexivity. }
  assert (Ha : Strings.isASCII (level e) = true) by reflexivity.
  split; [exact Hu |]. split; [exact Ha |].
  exact (proj1 (levelFilter_upper_case_names f (levelSet "INFO,Warn") e Hu Ha)).
Defined.

(** X8.  The time filters: a bound that is not given (the zero time) excludes
    nothing, and so does a bound given as the first instant of year 1; an
    entry at the bound itself is kept; and when the start is not after the
    end, no entry is marked by both filters. *)
Theorem time_filters_bounds (startTime endTime : Time.Time) (e : LogEntry) :
  startFilter Time.zero e = false /\ endFilter Time.zero e = false /\
  timeFlag "" = Ok Time.zero /\ timeFlag "0001-01-01 00:00:00" = Ok Time.zero /\
  startFilter (time e) e = false /\ endFilter (time e) e = false /\
  (Time.After startTime endTime = false ->
   startFilter startTime e && endFilter endTime e = false).
Proof.
  repeat split; try reflexivity.
  - unfold startFilter, Time.Before. rewrite Z.ltb_irrefl, Z.ltb_irrefl.
    rewrite andb_false_r. apply andb_false_r.
  - unfold endFilter, Time.After. rewrite !Z.gtb_ltb, !Z.ltb_irrefl.
    rewrite andb_false_r. apply andb_false_r.
  - unfold startFilter, endFilter, Time.After, Time.Before. rewrite !Z.gtb_ltb.
    intros Hafter.
    destruct (Time.IsZero startTime); [reflexivity |].
    destruct (Time.IsZero endTime); [apply andb_false_r |]. cbn [negb andb].
    apply orb_false_iff in Hafter as [H1 H2].
    apply Z.ltb_ge in H1.
    destruct (Z.ltb_spec (Time.sec (time e)) (Time.sec startTime));
      destruct (Z.ltb_spec (Time.sec endTime) (Time.sec (time e)));
      destruct (Z.eqb_spec (Time.sec (time e)) (Time.sec startTime));
      destruct (Z.eqb_spec (Time.sec (time e)) (Time.sec endTime));
      destruct (Z.ltb_spec (Time.nsec (time e)) (Time.nsec startTime));
      destruct (Z.ltb_spec (Time.nsec endTime) (Time.nsec (time e)));
      cbn [andb orb]; try reflexivity; try lia;
      exfalso;
      destruct (Z.eqb_spec (Time.sec startTime) (Time.sec endTime));
      destruct (Z.ltb_spec (Time.nsec endTime) (Time.nsec startTime));
      cbn [andb] in H2; try discriminate H2; lia.
Qed.

(** ** The flags [-start] and [-end] *)

(** A value that [Parse] accepts has a space after its first ten bytes. *)
Lemma Parse_Ok_separator value t :
  Time.Parse value = Ok t -> String.get 10 value = Some " "%char.
Proof.
  intros H. unfold Time.Parse in H.
  parse_step H yv Hy. destruct yv as [y v1]. apply orBad_Ok in Hy.
  apply getLongYear_Some in Hy as (y0 & y1 & y2 & y3 & -> & _ & _ & _ & _ & _).
  parse_step H v2 H2. apply orBad_Ok, skipByte_Some in H2. subst v1.
  parse_step H mv Hm. destruct mv as [mo v3]. apply orBad_Ok in Hm.
  apply getnum_fixed_Some in Hm as (m0 & m1 & -> & _ & _ & _).
  parse_step H u1 Rm.
  parse_step H v4 H4. apply orBad_Ok, skipByte_Some in H4. subst v3.
  parse_step H dv Hdd. destruct dv as [dd v5]. apply orBad_Ok in Hdd.
  apply getnum_fixed_Some in Hdd as (d0 & d1 & -> & _ & _ & _).
  parse_step H v6 H6. apply orBad_Ok, skipSpace_Some in H6.
  destruct H6 as [[-> ->] | (r & -> & _)]; [| reflexivity].
  parse_step H hv Hh. apply orBad_Ok in Hh. discriminate Hh.
Qed.

(** X9.  The usage text gives the bounds as [2021-01-01T00:00:00]; the flags are
    parsed with the layout of the log lines, which has a space there: a
    value with a [T] after the date is refused, and [main] ends with a
    fatal error before it opens the file. *)
Theorem main_refuses_T_separator (f : string -> string) (fl : Flags)
    (openFile : string -> option string) (keys1 : list string)
    (pairs2 : list (string * Z)) :
  String.get 10 (flagStart fl) = Some "T"%char \/
  String.get 10 (flagEnd fl) = Some "T"%char ->
  (exists fe, main f fl openFile keys1 pairs2 = Err fe /\
              fe <> fatalOpen /\ fe <> fatalNoEntries) /\
  (forall value t, timeFlag value = Ok t ->
                   value = EmptyString \/ String.get 10 value = Some " "%char).
Proof.
  assert (Hflag : forall value t, timeFlag value = Ok t ->
                    value = EmptyString \/ String.get 10 value = Some " "%char).
  { intros value t. unfold timeFlag.
    destruct (String.eqb_spec value "") as [-> | _]; [left; reflexivity |].
    intros H. right. exact (Parse_Ok_separator value t H). }
  assert (HT : forall value, String.get 10 value = Some "T"%char ->
                 exists e, timeFlag value = Err e).
  { intros value Hget. destruct (timeFlag value) as [t | e] eqn:E; [| eauto].
    apply Hflag in E as [-> | E]; [discriminate Hget |].
    rewrite E in Hget. discriminate Hget. }
  intros HTs. split; [| exact Hflag].
  unfold main.
  destruct (String.eqb _ ""); [exists fatalNoFileName; repeat split; discriminate |].
  destruct (negb (isLogFile _)); [eexists; repeat split; discriminate |].
  destruct (timeFlag (flagStart fl)) as [st | e] eqn:Es;
    [| eexists; repeat split; discriminate].
  destruct (timeFlag (flagEnd fl)) as [et | e] eqn:Ee;
    [| eexists; repeat split; discriminate].
  exfalso. destruct HTs as [HTs | HTs]; apply HT in HTs as [e He]; congruence.
Qed.

Lemma main_refuses_T_separator_witness :
  let fl := mkFlags "info" "2021-01-01T00:00:00" "" ["app.log"] in
  (String.get 10 (flagStart fl) = Some "T"%char \/
   String.get 10 (flagEnd fl) = Some "T"%char) /\
  exists fe, main (fun s => s) fl (fun _ => Some "") [] [] = Err fe /\
             fe <> fatalOpen /\ fe <> fatalNoEntries.
Proof.
  intros fl.
  assert (H : String.get 10 (flagStart fl) = Some "T"%char \/
              String.get 10 (flagEnd fl) = Some "T"%char) by (left; reflexivity).
  split; [exact H |].
  exact (proj1 (main_refuses_T_separator (fun s => s) fl (fun _ => Some "") [] [] H)).
Defined.

(** ** [main] from the file to the report *)

Lemma Print_returns r keys1 pairs2 :
  keyOrder (MsgFrequency r) keys1 -> pairOrder (MsgFrequency r) pairs2 ->
  snd (Print r keys1 pairs2) = Returned.
Proof.
  intros Hkeys Hpairs. unfold Print.
  destruct (decide (MsgFrequency r = ∅)) as [Hempty | Hne].
  - rewrite Hempty in *.
    destruct (mostFrequent_empty keys1 pairs2 Hkeys Hpairs) as (_ & _ & ->).
    reflexivity.
  - destruct (mostFrequent_nonempty _ keys1 pairs2 Hkeys Hpairs Hne)
      as (msg & top & -> & _).
    reflexivity.
Qed.

Lemma len_ReadFile content : len (fst (ReadFile content)) = len (Bufio.lines content).
Proof.
  unfold ReadFile, len. rewrite readLoop_spec. cbn [fst app].
  rewrite length_map. reflexivity.
Qed.

(** [main] step by step, with the report that does not depend on the
    filters. *)
Lemma main_steps f fl openFile keys1 pairs2 :
  main f fl openFile keys1 pairs2 =
  if String.eqb (fileArg fl) "" then Err fatalNoFileName
  else if negb (isLogFile (fileArg fl)) then Err (fatalNotLogFile (fileArg fl))
  else match timeFlag (flagStart fl) with
       | Err e => Err (fatalStartTime e)
       | Ok _ =>
           match timeFlag (flagEnd fl) with
           | Err e => Err (fatalEndTime e)
           | Ok _ =>
               match openFile (fileArg fl) with
               | None => Err fatalOpen
               | Some content =>
                   if len (Bufio.lines content) =? 0 then Err fatalNoEntries
                   else
                     let report := fold_left (Add f) (fst (ReadFile content)) newReport in
                     Ok (mkRun (snd (ReadFile content)) (fst (Print report keys1 pairs2))
                               (snd (Print report keys1 pairs2)))
               end
           end
       end.
Proof.
  unfold main. fold (fileArg fl).
  destruct (String.eqb (fileArg fl) ""); [reflexivity |].
  destruct (negb (isLogFile (fileArg fl))); [reflexivity |].
  destruct (timeFlag (flagStart fl)) as [st | e]; [| reflexivity].
  destruct (timeFlag (flagEnd fl)) as [et | e]; [| reflexivity].
  destruct (openFile (fileArg fl)) as [content |]; [| reflexivity].
  rewrite <- len_ReadFile.
  destruct (ReadFile content) as [logs logged0]. cbn [fst snd].
  destruct (len logs =? 0); [reflexivity |].
  rewrite Analyze_fold. cbv zeta.
  destruct (Print _ keys1 pairs2) as [out o]. reflexivity.
Qed.

(** X10.  The flags [-level], [-start] and [-end] do not change what [main] does,
    as long as the two bounds parse: the filters built from them decide
    nothing.  Only the first argument, the file, counts: the arguments
    after it are not read. *)
Theorem main_ignores_the_filter_flags (f : string -> string) (fl fl' : Flags)
    (openFile : string -> option string) (keys1 : list string)
    (pairs2 : list (string * Z)) :
  fileArg fl = fileArg fl' ->
  is_ok (timeFlag (flagStart fl)) = true -> is_ok (timeFlag (flagEnd fl)) = true ->
  is_ok (timeFlag (flagStart fl')) = true -> is_ok (timeFlag (flagEnd fl')) = true ->
  main f fl openFile keys1 pairs2 = main f fl' openFile keys1 pairs2.
Proof.
  intros Hargs Hs He Hs' He'. rewrite !main_steps.
  rewrite Hargs.
  destruct (timeFlag (flagStart fl)); [| discriminate Hs].
  destruct (timeFlag (flagEnd fl)); [| discriminate He].
  destruct (timeFlag (flagStart fl')); [| discriminate Hs'].
  destruct (timeFlag (flagEnd fl')); [| discriminate He'].
  reflexivity.
Qed.

Lemma main_ignores_the_filter_flags_witness :
  let fl := mkFlags "info" "" "" ["app.log"] in
  let fl' := mkFlags "error" "2030-01-01 00:00:00" "2000-01-01 00:00:00"
                    ["app.log"; "other.log"] in
  let openFile := fun _ : string => Some "2024-01-01 10:00:00 INFO started ok" in
  let f := fun s : string => s in
  fileArg fl = fileArg fl' /\
  is_ok (timeFlag (flagStart fl)) = true /\ is_ok (timeFlag (flagEnd fl)) = true /\
  is_ok (timeFlag (flagStart fl')) = true /\ is_ok (timeFlag (flagEnd fl')) = true /\
  main f fl openFile ["started ok"] [("started ok", 1)]
  = main f fl' openFile ["started ok"] [("started ok", 1)].
Proof.
  intros fl fl' openFile f.
  repeat (split; [reflexivity |]).
  apply main_ignores_the_filter_flags; reflexivity.
Defined.

(** X11.  When [main] gets as far as [Print], the first line printed is the number
    of lines read from the file, parsed or not; the errors logged are those
    of the lines that do not parse; and [Print] returns without a panic. *)
Theorem main_prints_the_number_of_lines (f : string -> string) (fl : Flags)
    (openFile : string -> option string) (keys1 : list string)
    (pairs2 : list (string * Z)) (r : run) :
  main f fl openFile keys1 pairs2 = Ok r ->
  exists content,
    openFile (fileArg fl) = Some content /\
    Bufio.lines content <> [] /\
    logged r = omap (fun line => snd (NewLogEntry line)) (Bufio.lines content) /\
    (len (Bufio.lines content) <= GoInt.MaxInt ->
     stdout r !! 0%nat
     = Some ("Total Log Entries: " +:+ formatInt (len (Bufio.lines content)))) /\
    (let report := fold_left (Add f) (fst (ReadFile content)) newReport in
     keyOrder (MsgFrequency report) keys1 -> pairOrder (MsgFrequency report) pairs2 ->
     ending r = Returned).
Proof.
  rewrite main_steps.
  destruct (String.eqb (fileArg fl) ""); [discriminate |].
  destruct (negb (isLogFile (fileArg fl))); [discriminate |].
  destruct (timeFlag (flagStart fl)); [| discriminate].
  destruct (timeFlag (flagEnd fl)); [| discriminate].
  destruct (openFile (fileArg fl)) as [content |]; [| discriminate].
  destruct (Z.eqb_spec (len (Bufio.lines content)) 0) as [| Hne]; [discriminate |].
  cbv zeta. intros H. injection H as <-. cbn [logged stdout ending].
  exists content. split; [reflexivity |]. split.
  { intros Hnil. rewrite Hnil in Hne. apply Hne. reflexivity. }
  split.
  { unfold ReadFile. rewrite readLoop_spec. reflexivity. }
  split.
  - intros Hlen. unfold Print.
    assert (Ht : TotalEntries (fold_left (Add f) (fst (ReadFile content)) newReport)
                 = len (Bufio.lines content)).
    { rewrite <- len_ReadFile. apply fold_Add_counted. rewrite len_ReadFile. exact Hlen. }
    rewrite Ht. destruct (mostFrequent _ _ _); reflexivity.
  - apply Print_returns.
Qed.

Lemma main_prints_the_number_of_lines_witness :
  let fl := mkFlags "info" "" "" ["app.log"] in
  let openFile := fun _ : string => Some "bad line" in
  let f := fun s : string => s in
  exists r, main f fl openFile [""] [("", 1)] = Ok r /\
            stdout r !! 0%nat = Some "Total Log Entries: 1" /\
            logged r = [errInvalidLogEntry].
Proof.
  intros fl openFile f.
  assert (H : main f fl openFile [""] [("", 1)]
              = Ok (mkRun [errInvalidLogEntry]
                          ["Total Log Entries: 1"; "INFO: 0"; "DEBUG: 0"; "WARN: 0";
                           "ERROR: 0"; "Most frequent mesage: ''"] Returned))
    by reflexivity.
  eexists. split; [exact H |].
  destruct (main_prints_the_number_of_lines f fl openFile _ _ _ H)
    as (content & Hopen & _ & Hlog & Hout & _).
  injection Hopen as <-. split; [| exact Hlog].
  apply Hout. vm_compute. discriminate.
Defined.

(** X12.  [main] gives up with "no log entries found" exactly when the file has
    no line at all: a file in which no line parses still gets its
    report. *)
Theorem main_no_entries_iff (f : string -> string) (fl : Flags)
    (openFile : string -> option string) (keys1 : list string)
    (pairs2 : list (string * Z)) :
  (main f fl openFile keys1 pairs2 = Err fatalNoEntries <->
   fileArg fl <> EmptyString /\ isLogFile (fileArg fl) = true /\
   is_ok (timeFlag (flagStart fl)) = true /\ is_ok (timeFlag (flagEnd fl)) = true /\
   exists content, openFile (fileArg fl) = Some content /\ Bufio.lines content = []) /\
  (forall content,
     openFile (fileArg fl) = Some content ->
     content <> EmptyString ->
     Z.of_nat (String.length content) < Bufio.MaxScanTokenSize ->
     main f fl openFile keys1 pairs2 <> Err fatalNoEntries).
Proof.
  assert (Hiff : main f fl openFile keys1 pairs2 = Err fatalNoEntries <->
                 fileArg fl <> EmptyString /\ isLogFile (fileArg fl) = true /\
                 is_ok (timeFlag (flagStart fl)) = true /\
                 is_ok (timeFlag (flagEnd fl)) = true /\
                 exists content, openFile (fileArg fl) = Some content /\
                                 Bufio.lines content = []).
  { rewrite main_steps.
    destruct (String.eqb_spec (fileArg fl) "") as [Hfile | Hfile].
    { split; [discriminate | intros [Hne _]; contradiction]. }
    destruct (isLogFile (fileArg fl)); cbn [negb];
      [| split; [discriminate | intros (_ & Hlog & _); discriminate Hlog]].
    destruct (timeFlag (flagStart fl)); cbn [is_ok];
      [| split; [discriminate | intros (_ & _ & Hs & _); discriminate Hs]].
    destruct (timeFlag (flagEnd fl)); cbn [is_ok];
      [| split; [discriminate | intros (_ & _ & _ & He & _); discriminate He]].
    destruct (openFile (fileArg fl)) as [content |];
      [| split; [discriminate | intros (_ & _ & _ & _ & c & Hc & _); discriminate Hc]].
    destruct (Z.eqb_spec (len (Bufio.lines content)) 0) as [Hz | Hnz].
    - split; [| reflexivity]. intros _. repeat split; try assumption.
      exists content. split; [reflexivity |].
      destruct (Bufio.lines content); [reflexivity | unfold len in Hz; cbn in Hz; lia].
    - cbv zeta. split; [discriminate |].
      intros (_ & _ & _ & _ & c & Hc & Hnil). injection Hc as <-.
      rewrite Hnil in Hnz. exfalso. apply Hnz. reflexivity. }
  split; [exact Hiff |].
  intros content Hopen Hne Hshort Hfatal.
  apply Hiff in Hfatal as (_ & _ & _ & _ & c & Hc & Hnil).
  rewrite Hopen in Hc. injection Hc as <-.
  apply (lines_nil_iff content Hshort) in Hnil. contradiction.
Qed.

(** ** What [ReadFile] logs *)

(** X13.  [ReadFile] logs the errors of the lines that do not parse, in the order
    of the lines, and nothing else: the log is empty exactly when every
    line parses. *)
Theorem ReadFile_logs_the_failed_lines (content : string) :
  snd (ReadFile content)
  = omap (fun line => snd (NewLogEntry line)) (Bufio.lines content) /\
  (snd (ReadFile content) = [] <->
   forall line, In line (Bufio.lines content) -> snd (NewLogEntry line) = None) /\
  (forall e, In e (snd (ReadFile content)) ->
             exists line, In line (Bufio.lines content) /\
                          NewLogEntry line = (zeroLogEntry, Some e)).
Proof.
  unfold ReadFile. rewrite readLoop_spec. cbn [snd app].
  split; [reflexivity |].
  generalize (Bufio.lines content) as lines. intros lines. split.
  - induction lines as [| line rest IH].
    + split; [intros _ l [] | reflexivity].
    + change (omap (fun l => snd (NewLogEntry l)) (line :: rest))
        with (match snd (NewLogEntry line) with
              | Some e => e :: omap (fun l => snd (NewLogEntry l)) rest
              | None => omap (fun l => snd (NewLogEntry l)) rest
              end).
      destruct (snd (NewLogEntry line)) as [e |] eqn:E.
      * split; [discriminate |]. intros H.
        specialize (H line (or_introl eq_refl)). congruence.
      * rewrite IH. split.
        -- intros H l [<- | Hl]; [exact E | exact (H l Hl)].
        -- intros H l Hl. apply H. right. exact Hl.
  - intros e He. apply list_elem_of_In, list_elem_of_omap in He as (line & Hline & Herr).
    exists line. split; [apply list_elem_of_In; exact Hline |].
    pose proof (NewLogEntry_error_zero line) as Hzero.
    destruct (NewLogEntry line) as [entry err]. cbn [fst snd] in *. subst err.
    rewrite Hzero by discriminate. reflexivity.
Qed.

(** ** Formatting, then parsing *)

Lemma digitChar_facts x :
  0 <= x <= 9 ->
  isDigitByte (digitChar x) = true /\ digitVal (digitChar x) = x /\
  Ascii.eqb (digitChar x) " " = false.
Proof.
  intros Hx.
  assert (H : x = 0 \/ x = 1 \/ x = 2 \/ x = 3 \/ x = 4 \/
              x = 5 \/ x = 6 \/ x = 7 \/ x = 8 \/ x = 9) by lia.
  repeat destruct H as [-> | H]; try subst x; repeat split; reflexivity.
Qed.

Lemma appendInt_2 n :
  0 <= n < 100 ->
  Time.appendInt n 2 = String (digitChar (n / 10)) (String (digitChar (n mod 10)) EmptyString).
Proof.
  intros Hn. unfold Time.appendInt. rewrite Z.abs_eq by lia.
  destruct (Z.ltb_spec n 0); [lia |].
  destruct (Z.ltb_spec n 100); [| lia].
  reflexivity.
Qed.

Lemma appendInt_4 n :
  0 <= n < 10000 ->
  Time.appendInt n 4 =
  String (digitChar (n / 100 / 10)) (String (digitChar (n / 100 mod 10))
    (String (digitChar (n mod 100 / 10)) (String (digitChar (n mod 100 mod 10)) EmptyString))).
Proof.
  intros Hn. unfold Time.appendInt. rewrite Z.abs_eq by lia.
  destruct (Z.ltb_spec n 0); [lia |].
  destruct (Z.ltb_spec n 10000); [| lia].
  reflexivity.
Qed.

Lemma getLongYear_digits c0 c1 c2 c3 rest :
  isDigitByte c0 = true -> isDigitByte c1 = true ->
  isDigitByte c2 = true -> isDigitByte c3 = true ->
  Time.getLongYear (String c0 (String c1 (String c2 (String c3 rest))))
  = Some (((digitVal c0 * 10 + digitVal c1) * 10 + digitVal c2) * 10 + digitVal c3, rest).
Proof.
  intros H0 H1 H2 H3. unfold Time.getLongYear.
  cbn [String.length Nat.ltb Nat.leb orb Time.isDigit0 Nat.sub String.substring].
  rewrite H0. cbn [negb Time.leadingDigits]. rewrite H0, H1, H2, H3.
  replace (String.substring 0 0 rest) with EmptyString by (destruct rest; reflexivity).
  rewrite Nat.sub_0_r, substring_0_length. cbn [Time.leadingDigits].
  repeat f_equal; lia.
Qed.

Lemma getnum_digits c0 c1 rest fixed :
  isDigitByte c0 = true -> isDigitByte c1 = true ->
  Time.getnum (String c0 (String c1 rest)) fixed = Some (digitVal c0 * 10 + digitVal c1, rest).
Proof. intros H0 H1. unfold Time.getnum. rewrite H0, H1. reflexivity. Qed.

Lemma checkRange_in what lo x hi : lo <= x <= hi -> Time.checkRange what lo x hi = Ok tt.
Proof.
  intros H. unfold Time.checkRange.
  destruct (Z.ltb_spec x lo); [lia |]. destruct (Z.ltb_spec hi x); [lia |]. reflexivity.
Qed.

(** The two digits of a number below 100. *)
Lemma two_digits n : 0 <= n < 100 -> 0 <= n / 10 <= 9 /\ 0 <= n mod 10 <= 9 /\
                                     n / 10 * 10 + n mod 10 = n.
Proof.
  intros Hn. pose proof (Z.div_mod n 10 ltac:(lia)).
  pose proof (Z.mod_pos_bound n 10 ltac:(lia)).
  assert (0 <= n / 10) by (apply Z.div_pos; lia).
  assert (n / 10 < 10) by (apply Z.div_lt_upper_bound; lia).
  lia.
Qed.

Ltac parse_fwd :=
  repeat (progress (cbn [Time.orBad bind Time.skipByte Time.skipSpace Time.cutspace
                         Time.fracSecond];
                    rewrite ?Ascii.eqb_refl)).

(** [Parse] on the nineteen bytes that [Format] writes. *)
Lemma Parse_Format_fields y m d h mi s :
  0 <= y <= 9999 -> validDay (Time.isLeap y) m d ->
  0 <= h < 24 -> 0 <= mi < 60 -> 0 <= s < 60 ->
  Time.Parse (Time.appendInt y 4 +:+ "-" +:+ Time.appendInt m 2 +:+ "-" +:+
              Time.appendInt d 2 +:+ " " +:+ Time.appendInt h 2 +:+ ":" +:+
              Time.appendInt mi 2 +:+ ":" +:+ Time.appendInt s 2)
  = Ok (Time.Date y m d h mi s 0).
Proof.
  intros Hy Hv Hh Hmi Hs.
  assert (Hm : 1 <= m <= 12) by apply Hv.
  assert (Hd : 1 <= d <= 31).
  { destruct Hv as [_ Hd]. destruct (Time.isLeap y); (enumerate m 1 12%nat);
      cbn in Hd; eval_daysBefore; lia. }
  rewrite (appendInt_4 y), (appendInt_2 m), (appendInt_2 d), (appendInt_2 h),
    (appendInt_2 mi), (appendInt_2 s) by lia.
  destruct (two_digits (y / 100) ltac:(split; [apply Z.div_pos; lia
                                               | apply Z.div_lt_upper_bound; lia]))
    as (By0 & By1 & Ey01).
  destruct (two_digits (y mod 100) ltac:(apply Z.mod_pos_bound; lia)) as (By2 & By3 & Ey23).
  destruct (two_digits m ltac:(lia)) as (Bm0 & Bm1 & Em).
  destruct (two_digits d ltac:(lia)) as (Bd0 & Bd1 & Ed).
  destruct (two_digits h ltac:(lia)) as (Bh0 & Bh1 & Eh).
  destruct (two_digits mi ltac:(lia)) as (Bi0 & Bi1 & Ei).
  destruct (two_digits s ltac:(lia)) as (Bs0 & Bs1 & Es).
  destruct (digitChar_facts _ By0) as (Dy0 & Vy0 & _).
  destruct (digitChar_facts _ By1) as (Dy1 & Vy1 & _).
  destruct (digitChar_facts _ By2) as (Dy2 & Vy2 & _).
  destruct (digitChar_facts _ By3) as (Dy3 & Vy3 & _).
  destruct (digitChar_facts _ Bm0) as (Dm0 & Vm0 & _).
  destruct (digitChar_facts _ Bm1) as (Dm1 & Vm1 & _).
  destruct (digitChar_facts _ Bd0) as (Dd0 & Vd0 & _).
  destruct (digitChar_facts _ Bd1) as (Dd1 & Vd1 & _).
  destruct (digitChar_facts _ Bh0) as (Dh0 & Vh0 & Sh0).
  destruct (digitChar_facts _ Bh1) as (Dh1 & Vh1 & _).
  destruct (digitChar_facts _ Bi0) as (Di0 & Vi0 & _).
  destruct (digitChar_facts _ Bi1) as (Di1 & Vi1 & _).
  destruct (digitChar_facts _ Bs0) as (Ds0 & Vs0 & _).
  destruct (digitChar_facts _ Bs1) as (Ds1 & Vs1 & _).
  assert (Eyear : ((digitVal (digitChar (y / 100 / 10)) * 10
                    + digitVal (digitChar (y / 100 mod 10))) * 10
                   + digitVal (digitChar (y mod 100 / 10))) * 10
                  + digitVal (digitChar (y mod 100 mod 10)) = y).
  { rewrite Vy0, Vy1, Vy2, Vy3. pose proof (Z.div_mod y 100 ltac:(lia)). lia. }
  unfold Time.Parse. rewrite !append_cons, !append_nil.
  rewrite getLongYear_digits by assumption. rewrite Eyear. parse_fwd.
  rewrite getnum_digits by assumption. rewrite Vm0, Vm1, Em. parse_fwd.
  rewrite checkRange_in by lia. parse_fwd.
  rewrite getnum_digits by assumption. rewrite Vd0, Vd1, Ed. parse_fwd.
  rewrite Sh0. parse_fwd.
  rewrite getnum_digits by assumption. rewrite Vh0, Vh1, Eh. parse_fwd.
  rewrite checkRange_in by lia. parse_fwd.
  rewrite getnum_digits by assumption. rewrite Vi0, Vi1, Ei. parse_fwd.
  rewrite checkRange_in by lia. parse_fwd.
  rewrite getnum_digits by assumption. rewrite Vs0, Vs1, Es. parse_fwd.
  rewrite checkRange_in by lia. parse_fwd.
  destruct Hv as [_ Hday]. unfold Time.daysIn.
  destruct (Z.ltb_spec d 1); [lia |].
  match goal with
  | |- context [Z.ltb ?a d] => destruct (Z.ltb_spec a d); [lia |]
  end.
  reflexivity.
Qed.

Lemma containsByte_app a b c :
  Strings.containsByte (a +:+ b) c = Strings.containsByte a c || Strings.containsByte b c.
Proof.
  induction a as [| x a IH]; [reflexivity |].
  rewrite append_cons. cbn [Strings.containsByte]. rewrite IH. apply orb_assoc.
Qed.

Lemma appendInt_2_no_space n :
  0 <= n < 100 -> Strings.containsByte (Time.appendInt n 2) " " = false.
Proof.
  intros Hn. rewrite appendInt_2 by exact Hn.
  destruct (two_digits n Hn) as (B0 & B1 & _).
  destruct (digitChar_facts _ B0) as (_ & _ & S0).
  destruct (digitChar_facts _ B1) as (_ & _ & S1).
  cbn [Strings.containsByte]. rewrite S0, S1. reflexivity.
Qed.

Lemma appendInt_4_no_space n :
  0 <= n < 10000 -> Strings.containsByte (Time.appendInt n 4) " " = false.
Proof.
  intros Hn. rewrite appendInt_4 by exact Hn.
  destruct (two_digits (n / 100) ltac:(split; [apply Z.div_pos; lia
                                               | apply Z.div_lt_upper_bound; lia]))
    as (B0 & B1 & _).
  destruct (two_digits (n mod 100) ltac:(apply Z.mod_pos_bound; lia)) as (B2 & B3 & _).
  destruct (digitChar_facts _ B0) as (_ & _ & S0).
  destruct (digitChar_facts _ B1) as (_ & _ & S1).
  destruct (digitChar_facts _ B2) as (_ & _ & S2).
  destruct (digitChar_facts _ B3) as (_ & _ & S3).
  cbn [Strings.containsByte]. rewrite S0, S1, S2, S3. reflexivity.
Qed.

(** X14.  A line written in the format of the log is read back as it was written:
    for a date and time in range, a level without space and any message,
    [NewLogEntry] on the formatted time, the level and the message, joined
    by single spaces, returns that time, level and message, and no
    error. *)
Theorem NewLogEntry_reads_a_formatted_line (y m d h mi s : Z) (lv msg : string) :
  0 <= y <= 9999 -> validDay (Time.isLeap y) m d ->
  0 <= h < 24 -> 0 <= mi < 60 -> 0 <= s < 60 ->
  Strings.containsByte lv " " = false ->
  let t := Time.Date y m d h mi s 0 in
  Time.Parse (Time.Format t) = Ok t /\
  NewLogEntry (Time.Format t +:+ " " +:+ lv +:+ " " +:+ msg) = (mkLogEntry t lv msg, None).
Proof.
  intros Hy Hv Hh Hmi Hs Hlv t. unfold t.
  assert (Hm : 1 <= m <= 12) by apply Hv.
  assert (Hd : 1 <= d <= 31).
  { destruct Hv as [_ Hd]. destruct (Time.isLeap y); (enumerate m 1 12%nat);
      cbn in Hd; eval_daysBefore; lia. }
  rewrite Format_Date by (try exact Hv; lia).
  pose proof (Parse_Format_fields y m d h mi s Hy Hv Hh Hmi Hs) as HP.
  split; [exact HP |].
  set (date := Time.appendInt y 4 +:+ "-" +:+ Time.appendInt m 2 +:+ "-" +:+
               Time.appendInt d 2).
  set (clock := Time.appendInt h 2 +:+ ":" +:+ Time.appendInt mi 2 +:+ ":" +:+
                Time.appendInt s 2).
  assert (HF : Time.appendInt y 4 +:+ "-" +:+ Time.appendInt m 2 +:+ "-" +:+
               Time.appendInt d 2 +:+ " " +:+ clock = date +:+ " " +:+ clock).
  { unfold date. rewrite !append_assoc. reflexivity. }
  fold clock in HP |- *. rewrite HF in HP |- *.
  assert (Hdate : Strings.containsByte date " " = false).
  { unfold date. rewrite !containsByte_app.
    rewrite appendInt_4_no_space, !appendInt_2_no_space by lia. reflexivity. }
  assert (Hclock : Strings.containsByte clock " " = false).
  { unfold clock. rewrite !containsByte_app.
    rewrite !appendInt_2_no_space by lia. reflexivity. }
  assert (Hsplit : Strings.SplitN ((date +:+ " " +:+ clock) +:+ " " +:+ lv +:+ " " +:+ msg) " " 4
                   = [date; clock; lv; msg]).
  { change (Strings.SplitN ?l " " 4) with (Strings.genSplit " " l 3).
    rewrite !append_assoc.
    change (date +:+ " " +:+ clock +:+ " " +:+ lv +:+ " " +:+ msg)
      with (date +:+ String " " (clock +:+ String " " (lv +:+ String " " msg))).
    cbn [Strings.genSplit].
    rewrite (cut_app " " date _ Hdate), (cut_app " " clock _ Hclock),
      (cut_app " " lv _ Hlv).
    reflexivity. }
  unfold NewLogEntry. rewrite Hsplit. cbn [nth]. rewrite HP. reflexivity.
Qed.

Lemma NewLogEntry_reads_a_formatted_line_witness :
  0 <= 2024 <= 9999 /\ validDay (Time.isLeap 2024) 2 29 /\
  0 <= 23 < 24 /\ 0 <= 59 < 60 /\ 0 <= 58 < 60 /\
  Strings.containsByte "WARN" " " = false /\
  NewLogEntry (Time.Format (Time.Date 2024 2 29 23 59 58 0) +:+ " " +:+ "WARN" +:+ " " +:+
               "disk almost full")
  = (mkLogEntry (Time.Date 2024 2 29 23 59 58 0) "WARN" "disk almost full", None).
Proof.
  assert (Hv : validDay (Time.isLeap 2024) 2 29) by (split; vm_compute; split; discriminate).
  repeat (split; [first [lia | exact Hv | reflexivity] |]).
  apply (NewLogEntry_reads_a_formatted_line 2024 2 29 23 59 58 "WARN" "disk almost full");
    first [lia | exact Hv | reflexivity].
Defined.

(** ** Sums over the report *)

Lemma sumFrequencies_insert (freq : gmap string Z) k v :
  sumFrequencies (<[k := v]> freq) = sumFrequencies freq - default 0 (freq !! k) + v.
Proof.
  unfold sumFrequencies.
  destruct (freq !! k) as [old |] eqn:Hk; cbn [default from_option id].
  - rewrite <- insert_delete_eq.
    rewrite map_fold_insert_L.
    + rewrite (map_fold_delete_L _ 0 k old freq).
      * lia.
      * intros. lia.
      * exact Hk.
    + intros. lia.
    + apply lookup_delete_eq.
  - rewrite map_fold_insert_L.
    + lia.
    + intros. lia.
    + exact Hk.
Qed.

Lemma fold_frequencies_add_up (f : string -> string) (entries : list LogEntry) :
  len entries <= GoInt.MaxInt ->
  sumFrequencies (MsgFrequency (fold_left (Add f) entries newReport)) = len entries.
Proof.
  induction entries as [| e es IH] using rev_ind; intros Hlen; [reflexivity |].
  rewrite len_app in *. change (len [e]) with 1 in *.
  rewrite fold_Add_snoc, MsgFrequency_Add, sumFrequencies_insert.
  rewrite (frequency_counts f es (message e)) by lia. cbv zeta.
  pose proof (countIf_bounds (fun e0 => String.eqb (message e0) (message e)) es) as Hb.
  set (n := countIf (fun e0 => String.eqb (message e0) (message e)) es) in *.
  assert (Hdef : default 0 (if n =? 0 then None else Some n) = n)
    by (destruct (Z.eqb_spec n 0) as [-> | _]; reflexivity).
  rewrite Hdef, IH, incr_small by (unfold GoInt.MinInt; lia). lia.
Qed.

(** X15.  The frequencies of the messages add up to the number of entries, which is
    [TotalEntries]. *)
Theorem Analyze_frequencies_add_up (f : string -> string) (entries : list LogEntry)
    (filter : list FilterFunc) :
  len entries <= GoInt.MaxInt ->
  sumFrequencies (MsgFrequency (Analyze f entries filter)) = len entries /\
  sumFrequencies (MsgFrequency (Analyze f entries filter))
  = TotalEntries (Analyze f entries filter).
Proof.
  intros Hlen. rewrite Analyze_fold.
  pose proof (fold_frequencies_add_up f entries Hlen) as Hsum.
  destruct (fold_Add_counted f entries Hlen) as [Htotal _].
  split; [exact Hsum | rewrite Hsum, Htotal; reflexivity].
Qed.

Lemma Analyze_frequencies_add_up_witness :
  let f := fun s : string => s in
  let entries := [mkLogEntry Time.zero "INFO" "a"; mkLogEntry Time.zero "INFO" "b";
                  mkLogEntry Time.zero "WARN" "a"] in
  len entries <= GoInt.MaxInt /\
  sumFrequencies (MsgFrequency (Analyze f entries [])) = 3.
Proof.
  intros f entries.
  assert (H : len entries <= GoInt.MaxInt) by (vm_compute; discriminate).
  split; [exact H | exact (proj1 (Analyze_frequencies_add_up f entries [] H))].
Defined.

Lemma known_level_once lv :
  (if String.eqb lv "info" then 1 else 0) + (if String.eqb lv "warn" then 1 else 0) +
  (if String.eqb lv "error" then 1 else 0) + (if String.eqb lv "debug" then 1 else 0)
  = (if knownLevel lv then 1 else 0).
Proof.
  unfold knownLevel.
  destruct (String.eqb_spec lv "info") as [-> | _]; [reflexivity |].
  destruct (String.eqb_spec lv "warn") as [-> | _]; [reflexivity |].
  destruct (String.eqb_spec lv "error") as [-> | _]; [reflexivity |].
  destruct (String.eqb lv "debug"); reflexivity.
Qed.

(** X16.  The four counters together count the entries whose lower-cased level is
    one of info, warn, error, debug; the other entries make up the rest of
    [TotalEntries]. *)
Theorem Analyze_level_sum (f : string -> string) (entries : list LogEntry)
    (filter : list FilterFunc) :
  len entries <= GoInt.MaxInt ->
  let r := Analyze f entries filter in
  levelSum r = countIf (fun e => knownLevel (ToLower f (level e))) entries /\
  TotalEntries r - levelSum r
  = countIf (fun e => negb (knownLevel (ToLower f (level e)))) entries.
Proof.
  intros Hlen r. unfold r, levelSum. rewrite Analyze_fold.
  destruct (level_counts f entries Hlen) as (-> & -> & -> & -> & ->).
  clear Hlen. unfold len.
  induction entries as [| e es [IH1 IH2]]; [split; reflexivity |].
  cbn [countIf length]. pose proof (known_level_once (ToLower f (level e))) as Hk.
  destruct (knownLevel (ToLower f (level e))); cbn [negb]; split; lia.
Qed.

Lemma Analyze_level_sum_witness :
  let f := fun s : string => s in
  let entries := [mkLogEntry Time.zero "Error" "a"; mkLogEntry Time.zero "fatal" "b";
                  mkLogEntry Time.zero "DEBUG" "c"] in
  len entries <= GoInt.MaxInt /\
  levelSum (Analyze f entries []) = 2 /\
  TotalEntries (Analyze f entries []) - levelSum (Analyze f entries []) = 1.
Proof.
  intros f entries.
  assert (H : len entries <= GoInt.MaxInt) by (vm_compute; discriminate).
  split; [exact H | exact (Analyze_level_sum f entries [] H)].
Defined.

(** ** The lines the scanner reads *)

Lemma genSplit_fuels sep n m s :
  (String.length s <= n)%nat -> (String.length s <= m)%nat ->
  Strings.genSplit sep s n = Strings.genSplit sep s m.
Proof.
  revert m s. induction n as [| n IH]; intros m s Hn Hm.
  - destruct s; [destruct m; reflexivity | cbn in Hn; lia].
  - destruct m as [| m]; [destruct s; [reflexivity | cbn in Hm; lia] |].
    cbn [Strings.genSplit].
    destruct (Strings.cut sep s) as [[a b] |] eqn:Hcut; [| reflexivity].
    apply cut_length in Hcut. rewrite (IH m b) by lia. reflexivity.
Qed.

Lemma genSplit_fuel sep n s :
  (String.length s <= n)%nat ->
  Strings.genSplit sep s n = Strings.genSplit sep s (String.length s).
Proof. intros Hn. apply genSplit_fuels; lia. Qed.

Lemma inputLines_empty : inputLines EmptyString = [].
Proof. reflexivity. Qed.

Lemma inputLines_cut data line rest :
  Strings.cut Bufio.newline data = Some (line, rest) ->
  inputLines data = line :: inputLines rest.
Proof.
  intros Hcut. pose proof (cut_length _ _ _ _ Hcut) as Hlen.
  unfold inputLines, Strings.Split, Strings.SplitN. cbn [Z.eqb Z.ltb Z.compare].
  destruct data as [| c s]; [discriminate Hcut |].
  cbn [String.length Strings.genSplit]. rewrite Hcut.
  cbn [String.length] in Hlen.
  rewrite (genSplit_fuel Bufio.newline (String.length s) rest) by lia.
  destruct (genSplit_cons Bufio.newline rest (String.length rest)) as (a & l & ->).
  rewrite last_cons_cons.
  destruct (String.eqb (List.last (a :: l) "") ""); reflexivity.
Qed.

Lemma inputLines_whole data :
  data <> EmptyString ->
  Strings.cut Bufio.newline data = None ->
  inputLines data = [data].
Proof.
  intros Hne Hcut.
  unfold inputLines, Strings.Split, Strings.SplitN. cbn [Z.eqb Z.ltb Z.compare].
  destruct data as [| c s]; [contradiction |].
  cbn [String.length Strings.genSplit]. rewrite Hcut. reflexivity.
Qed.

Lemma inputLines_nil_iff data : inputLines data = [] <-> data = EmptyString.
Proof.
  split; [| intros ->; reflexivity].
  destruct data as [| c s]; [reflexivity |]. intros H.
  destruct (Strings.cut Bufio.newline (String c s)) as [[line rest] |] eqn:Hcut.
  - rewrite (inputLines_cut _ _ _ Hcut) in H. discriminate H.
  - rewrite inputLines_whole in H by (discriminate || exact Hcut). discriminate H.
Qed.

(** The tokens of the scanner are the lines of the input up to the first
    one that does not fit the buffer, each without its carriage return. *)
Lemma scan_inputLines fuel data :
  (String.length data <= fuel)%nat ->
  Bufio.scan fuel data = map Bufio.dropCR (takeWhile fitsScanner (inputLines data)).
Proof.
  revert data. induction fuel as [| fuel IH]; intros data Hfuel.
  - destruct data; [reflexivity | cbn in Hfuel; lia].
  - destruct data as [| c s]; [reflexivity |].
    cbn [Bufio.scan].
    destruct (Strings.cut Bufio.newline (String c s)) as [[line rest] |] eqn:Hcut.
    + rewrite (inputLines_cut _ _ _ Hcut). cbn [takeWhile].
      unfold fitsScanner at 1.
      destruct (Z.of_nat (String.length line) <? Bufio.MaxScanTokenSize); [| reflexivity].
      cbn [map]. rewrite IH; [reflexivity |].
      apply cut_length in Hcut. cbn [String.length] in Hcut, Hfuel. lia.
    + rewrite inputLines_whole by (discriminate || exact Hcut). cbn [takeWhile].
      unfold fitsScanner.
      destruct (Z.of_nat (String.length (String c s)) <? Bufio.MaxScanTokenSize);
        reflexivity.
Qed.

Lemma lines_inputLines data :
  Bufio.lines data = map Bufio.dropCR (takeWhile fitsScanner (inputLines data)).
Proof. unfold Bufio.lines. apply scan_inputLines. lia. Qed.

Lemma takeWhile_all {A} (p : A -> bool) l :
  Forall (fun x => p x = true) l -> takeWhile p l = l.
Proof.
  induction 1 as [| x l Hx _ IH]; [reflexivity |].
  cbn [takeWhile]. rewrite Hx, IH. reflexivity.
Qed.

Lemma takeWhile_nil_iff {A} (p : A -> bool) l :
  takeWhile p l = [] <-> l = [] \/ exists x rest, l = x :: rest /\ p x = false.
Proof.
  destruct l as [| x rest]; cbn [takeWhile].
  - split; [intros _; left; reflexivity | reflexivity].
  - destruct (p x) eqn:Hp; split.
    + discriminate.
    + intros [H | (y & r & H & Hy)]; [discriminate H |].
      injection H as <- <-. congruence.
    + intros _. right. eauto.
    + reflexivity.
Qed.

(** C9: [ReadFile] returns exactly one [LogEntry] per line that the scanner
    reads, in order: the parsed entry, or the zero [LogEntry] (zero time,
    empty level, empty message) for a line that fails to parse.  The lines
    read are the lines of the input up to the first one of 65536 bytes or
    more, where the scanner stops (its error is not looked at): there is
    one entry per line of the input when every line is shorter than that,
    and the slice is empty exactly when the input is empty or its first
    line has 65536 bytes or more. *)
Theorem C9_ReadFile_one_entry_per_line (f : string) :
  let entries := fst (ReadFile f) in
  let read := takeWhile fitsScanner (inputLines f) in
  entries = map (fun line => fst (NewLogEntry line)) (Bufio.lines f) /\
  length entries = length (Bufio.lines f) /\
  (forall line, snd (NewLogEntry line) <> None ->
                fst (NewLogEntry line) = mkLogEntry Time.zero "" "") /\
  Bufio.lines f = map Bufio.dropCR read /\
  (Forall (fun line => fitsScanner line = true) (inputLines f) ->
   length entries = length (inputLines f)) /\
  (length entries <= length (inputLines f))%nat /\
  (inputLines f = [] <-> f = EmptyString) /\
  (entries = [] <->
   f = EmptyString \/
   exists first rest, inputLines f = first :: rest /\
                      Bufio.MaxScanTokenSize <= Z.of_nat (String.length first)).
Proof.
  intros entries read.
  assert (He : entries = map (fun line => fst (NewLogEntry line)) (Bufio.lines f)).
  { unfold entries, ReadFile. rewrite readLoop_spec. reflexivity. }
  assert (Hl : Bufio.lines f = map Bufio.dropCR read) by apply lines_inputLines.
  assert (Hn : length entries = length read).
  { rewrite He, Hl, !length_map. reflexivity. }
  split; [exact He |].
  split; [rewrite He, length_map; reflexivity |].
  split; [apply NewLogEntry_error_zero |].
  split; [exact Hl |].
  split; [intros Hall; rewrite Hn; unfold read; rewrite takeWhile_all by exact Hall;
          reflexivity |].
  split.
  { rewrite Hn. unfold read. clear.
    induction (inputLines f) as [| x l IH]; cbn [takeWhile length]; [lia |].
    destruct (fitsScanner x); cbn [length]; lia. }
  split; [apply inputLines_nil_iff |].
  assert (Hnil : entries = [] <-> read = []).
  { split; intros H.
    - apply length_zero_iff_nil. rewrite <- Hn, H. reflexivity.
    - apply length_zero_iff_nil. rewrite Hn, H. reflexivity. }
  rewrite Hnil. unfold read. rewrite takeWhile_nil_iff, inputLines_nil_iff.
  split; (intros [H | (first & rest & H & Hlong)]; [left; exact H | right]);
    exists first, rest; (split; [exact H |]); revert Hlong; unfold fitsScanner;
    match goal with |- context [Z.ltb ?a ?b] => destruct (Z.ltb_spec a b) end;
    intros; (reflexivity || discriminate || lia).
Qed.

Lemma length_repeatByte n c : String.length (repeatByte n c) = n.
Proof. induction n as [| n IH]; cbn; [| rewrite IH]; reflexivity. Qed.

Lemma containsByte_repeatByte n c sep :
  c <> sep -> Strings.containsByte (repeatByte n c) sep = false.
Proof.
  intros Hne. induction n as [| n IH]; cbn; [reflexivity |].
  rewrite IH. destruct (Ascii.eqb_spec c sep); [contradiction | reflexivity].
Qed.

(** An input of two lines whose first line has 65536 bytes: the scanner
    stops at once, and [ReadFile] returns no entry and logs nothing,
    although the second line is a well-formed log line. *)
Lemma C9_counterexample :
  let long := repeatByte (Z.to_nat Bufio.MaxScanTokenSize) "a" in
  let f := long +:+ String Bufio.newline "2024-01-01 10:00:00 INFO started ok" in
  f <> EmptyString /\
  inputLines f = [long; "2024-01-01 10:00:00 INFO started ok"] /\
  Z.of_nat (String.length long) = 65536 /\
  NewLogEntry "2024-01-01 10:00:00 INFO started ok"
  = (mkLogEntry (Time.Date 2024 1 1 10 0 0 0) "INFO" "started ok", None) /\
  ReadFile f = ([], []).
Proof.
  intros long f.
  assert (Hlen : Z.of_nat (String.length long) = 65536).
  { unfold long. rewrite length_repeatByte. apply Z2Nat.id. discriminate. }
  assert (Hlines : inputLines f = [long; "2024-01-01 10:00:00 INFO started ok"]).
  { unfold f. rewrite (inputLines_cut _ long "2024-01-01 10:00:00 INFO started ok").
    - reflexivity.
    - apply cut_app. apply containsByte_repeatByte. discriminate. }
  split.
  { intros H. apply inputLines_nil_iff in H. rewrite Hlines in H. discriminate H. }
  split; [exact Hlines |].
  split; [exact Hlen |].
  split; [reflexivity |].
  unfold ReadFile. rewrite lines_inputLines, Hlines. cbn [takeWhile].
  unfold fitsScanner. rewrite Hlen. reflexivity.
Qed.

(** ** Whole numbers in binary64 *)

Lemma digits2_pos_log2 p : Zpos (digits2_pos p) = Z.log2 (Zpos p) + 1.
Proof.
  assert (Hsize : forall q, digits2_pos q = Pos.size q)
    by (induction q as [q IH | q IH |]; cbn; [rewrite IH .. |]; reflexivity).
  destruct p as [p | p |]; cbn [digits2_pos Z.log2]; rewrite ?Hsize; lia.
Qed.

Lemma iter_xO m d : Zpos (Pos.iter xO m d) = Zpos m * 2 ^ Zpos d.
Proof.
  rewrite (Pos.iter_swap_gen _ _ Zpos xO (Z.mul 2)) by reflexivity.
  change (Pos.iter (Z.mul 2) (Zpos m) d) with (Z.shiftl (Zpos m) (Zpos d)).
  apply Z.shiftl_mul_pow2. lia.
Qed.

Lemma iter_pos_nat {A} (f : A -> A) n x : SpecFloat.iter_pos f n x = Nat.iter (Pos.to_nat n) f x.
Proof.
  revert x. induction n as [n IH | n IH |]; intros x; cbn [SpecFloat.iter_pos].
  - rewrite !IH, Pos2Nat.inj_xI. cbn [Nat.mul].
    rewrite Nat.add_0_r, Nat.iter_succ_r, Nat.iter_add. reflexivity.
  - rewrite !IH, Pos2Nat.inj_xO. cbn [Nat.mul].
    rewrite Nat.add_0_r, Nat.iter_add. reflexivity.
  - reflexivity.
Qed.

(** Shifting out bits that are all zero loses nothing. *)
Lemma shr_exact q d :
  SpecFloat.iter_pos shr_1 d {| shr_m := Zpos q * 2 ^ Zpos d; shr_r := false; shr_s := false |}
  = {| shr_m := Zpos q; shr_r := false; shr_s := false |}.
Proof.
  rewrite iter_pos_nat, <- (positive_nat_Z d).
  induction (Pos.to_nat d) as [| k IH].
  - cbn [Nat.iter]. rewrite Z.pow_0_r, Z.mul_1_r. reflexivity.
  - rewrite Nat.iter_succ_r, Nat2Z.inj_succ, Z.pow_succ_r by lia.
    assert (Hpos : 0 < Zpos q * 2 ^ Z.of_nat k) by (apply Z.mul_pos_pos; lia).
    destruct (Zpos q * 2 ^ Z.of_nat k) as [| q' | q'] eqn:Eq; try lia.
    replace (Zpos q * (2 * 2 ^ Z.of_nat k)) with (Zpos q'~0) by lia.
    cbn [shr_1 orb]. exact IH.
Qed.

Lemma fexp_small d : -1020 <= d -> fexp prec emax d = d - 53.
Proof. intros Hd. unfold fexp, emin, prec, emax. lia. Qed.

(** A mantissa and exponent that stand for the whole number [a] below
    [2^53] round to [a] itself, with its bits at the top of the mantissa. *)
Lemma binary_round_aux_int s mz ez a :
  0 < a < 2 ^ 53 -> ez <= Z.log2 a - 52 -> Zpos mz = a * 2 ^ (- ez) ->
  binary_round_aux prec emax s (Zpos mz) ez loc_Exact
  = S754_finite s (Z.to_pos (a * 2 ^ (52 - Z.log2 a))) (Z.log2 a - 52).
Proof.
  intros Ha Hez Hmz.
  pose proof (Z.log2_nonneg a) as HL0.
  assert (HL : Z.log2 a < 53) by (apply Z.log2_lt_pow2; lia).
  set (L := Z.log2 a) in *.
  set (q := Z.to_pos (a * 2 ^ (52 - L))).
  assert (Hq : Zpos q = a * 2 ^ (52 - L)).
  { unfold q. rewrite Z2Pos.id; [reflexivity |]. apply Z.mul_pos_pos; lia. }
  assert (Hdq : Zpos (digits2_pos q) = 53).
  { rewrite digits2_pos_log2, Hq, Z.log2_mul_pow2 by lia. fold L. lia. }
  assert (Hfirst : shr_fexp prec emax (Zpos mz) ez loc_Exact
                   = ({| shr_m := Zpos q; shr_r := false; shr_s := false |}, L - 52)).
  { unfold shr_fexp. cbn [Zdigits2 shr_record_of_loc].
    rewrite digits2_pos_log2, Hmz, Z.log2_mul_pow2 by lia. fold L.
    rewrite fexp_small by lia.
    replace (- ez + L + 1 + ez - 53 - ez) with (L - 52 - ez) by lia.
    unfold shr. destruct (L - 52 - ez) as [| d | d] eqn:Ed; try lia.
    - f_equal; [| lia]. f_equal. rewrite Hq. f_equal. f_equal. lia.
    - replace (a * 2 ^ (- ez)) with (Zpos q * 2 ^ Zpos d).
      + rewrite shr_exact. f_equal. lia.
      + rewrite Hq, <- Z.mul_assoc, <- Z.pow_add_r by lia. f_equal. f_equal. lia. }
  unfold binary_round_aux. rewrite Hfirst.
  cbn [shr_m shr_r shr_s loc_of_shr_record round_nearest_even].
  unfold shr_fexp. cbn [Zdigits2 shr_record_of_loc]. rewrite Hdq.
  rewrite fexp_small by lia.
  replace (53 + (L - 52) - 53 - (L - 52)) with 0 by lia.
  cbn [shr shr_m].
  destruct (Z.leb_spec (L - 52) (emax - prec)) as [_ | Hbad]; [reflexivity |].
  unfold emax, prec in Hbad. lia.
Qed.

Lemma binary_round_int s m a k :
  0 < a < 2 ^ 53 -> 0 <= k -> Zpos m = a * 2 ^ k ->
  binary_round prec emax s m (- k)
  = S754_finite s (Z.to_pos (a * 2 ^ (52 - Z.log2 a))) (Z.log2 a - 52).
Proof.
  intros Ha Hk Hm.
  pose proof (Z.log2_nonneg a) as HL0.
  assert (HL : Z.log2 a < 53) by (apply Z.log2_lt_pow2; lia).
  unfold binary_round.
  rewrite digits2_pos_log2, Hm, Z.log2_mul_pow2 by lia.
  rewrite fexp_small by lia.
  unfold shl_align.
  destruct (k + Z.log2 a + 1 + - k - 53 - - k) as [| d | d] eqn:Ed.
  - apply binary_round_aux_int; [exact Ha | lia |].
    rewrite Hm. f_equal. f_equal. lia.
  - apply binary_round_aux_int; [exact Ha | lia |].
    rewrite Hm. f_equal. f_equal. lia.
  - apply binary_round_aux_int; [exact Ha | lia |].
    rewrite iter_xO, Hm, <- Z.mul_assoc, <- Z.pow_add_r by lia. f_equal. f_equal. lia.
Qed.

Lemma intSF_finite v :
  v <> 0 ->
  intSF v = S754_finite (v <? 0) (Z.to_pos (Z.abs v * 2 ^ (52 - Z.log2 (Z.abs v))))
                        (Z.log2 (Z.abs v) - 52).
Proof. destruct v; [contradiction | reflexivity ..]. Qed.

Lemma binary_normalize_int v k :
  Z.abs v < 2 ^ 53 -> 0 <= k ->
  binary_normalize prec emax (v * 2 ^ k) (- k) false = intSF v.
Proof.
  intros Hv Hk.
  destruct (Z.eq_dec v 0) as [-> | Hne]; [reflexivity |].
  rewrite intSF_finite by exact Hne.
  assert (Hp : 0 < 2 ^ k) by (apply Z.pow_pos_nonneg; lia).
  unfold binary_normalize.
  destruct (v * 2 ^ k) as [| m | m] eqn:Em.
  - apply Z.mul_eq_0 in Em. lia.
  - assert (0 < v) by nia.
    replace (v <? 0) with false by (symmetry; apply Z.ltb_ge; lia).
    apply binary_round_int; [lia | exact Hk |]. rewrite Z.abs_eq by lia. lia.
  - assert (v < 0) by nia.
    replace (v <? 0) with true by (symmetry; apply Z.ltb_lt; lia).
    apply binary_round_int; [lia | exact Hk |]. rewrite Z.abs_neq by lia. lia.
Qed.

Lemma shl_align_fst m e ez :
  ez <= e -> Zpos (fst (shl_align m e ez)) = Zpos m * 2 ^ (e - ez).
Proof.
  intros Hle. unfold shl_align.
  destruct (ez - e) as [| d | d] eqn:Ed; cbn [fst].
  - replace (e - ez) with 0 by lia. lia.
  - lia.
  - rewrite iter_xO. f_equal. f_equal. lia.
Qed.

(** The aligned mantissa of a whole number, with its sign. *)
Lemma aligned_int v ez :
  v <> 0 -> Z.abs v < 2 ^ 53 -> ez <= Z.log2 (Z.abs v) - 52 ->
  cond_Zopp (v <? 0)
    (Zpos (fst (shl_align (Z.to_pos (Z.abs v * 2 ^ (52 - Z.log2 (Z.abs v))))
                          (Z.log2 (Z.abs v) - 52) ez)))
  = v * 2 ^ (- ez).
Proof.
  intros Hne Hv Hez.
  pose proof (Z.log2_nonneg (Z.abs v)) as HL0.
  assert (HL : Z.log2 (Z.abs v) < 53) by (apply Z.log2_lt_pow2; lia).
  rewrite shl_align_fst by exact Hez.
  rewrite Z2Pos.id by (apply Z.mul_pos_pos; lia).
  rewrite <- Z.mul_assoc, <- Z.pow_add_r by lia.
  replace (52 - Z.log2 (Z.abs v) + (Z.log2 (Z.abs v) - 52 - ez)) with (- ez) by lia.
  unfold cond_Zopp. destruct (Z.ltb_spec v 0); lia.
Qed.

(** Adding two whole numbers is exact as long as the sum stays below
    [2^53]. *)
Lemma SFadd_int a b :
  Z.abs a < 2 ^ 53 -> Z.abs b < 2 ^ 53 -> Z.abs (a + b) < 2 ^ 53 ->
  SFadd prec emax (intSF a) (intSF b) = intSF (a + b).
Proof.
  intros Ha Hb Hab.
  destruct (Z.eq_dec a 0) as [-> | Hane].
  { rewrite Z.add_0_l. destruct b; reflexivity. }
  destruct (Z.eq_dec b 0) as [-> | Hbne].
  { rewrite Z.add_0_r. destruct a; reflexivity. }
  rewrite (intSF_finite a), (intSF_finite b) by assumption.
  cbn [SFadd]. cbv zeta.
  set (ez := Z.min (Z.log2 (Z.abs a) - 52) (Z.log2 (Z.abs b) - 52)).
  rewrite !aligned_int by (assumption || lia).
  pose proof (Z.log2_nonneg (Z.abs a)). 
  assert (Z.log2 (Z.abs a) < 53) by (apply Z.log2_lt_pow2; lia).
  rewrite <- Z.mul_add_distr_r.
  replace ez with (- - ez) at 2 by lia.
  apply binary_normalize_int; [exact Hab | lia].
Qed.

Lemma valid_intSF v : Z.abs v < 2 ^ 53 -> valid_binary prec emax (intSF v) = true.
Proof.
  intros Hv. destruct (Z.eq_dec v 0) as [-> | Hne]; [reflexivity |].
  rewrite intSF_finite by exact Hne.
  pose proof (Z.log2_nonneg (Z.abs v)) as HL0.
  assert (HL : Z.log2 (Z.abs v) < 53) by (apply Z.log2_lt_pow2; lia).
  cbn [valid_binary]. unfold bounded, canonical_mantissa.
  rewrite digits2_pos_log2, Z2Pos.id by (apply Z.mul_pos_pos; lia).
  rewrite Z.log2_mul_pow2 by lia.
  rewrite fexp_small by lia.
  apply andb_true_intro. split; [apply Z.eqb_eq; lia |].
  apply Z.leb_le. unfold emax, prec. lia.
Qed.

(** [float64(v)] is [v] itself for a whole number below [2^53]. *)
Lemma Prim2SF_floatOfInt v : Z.abs v < 2 ^ 53 -> Prim2SF (floatOfInt v) = intSF v.
Proof.
  intros Hv. unfold floatOfInt.
  replace v with (v * 2 ^ 0) at 1 by lia. change 0 with (- 0) at 2.
  rewrite binary_normalize_int by (exact Hv || lia).
  apply FloatAxioms.Prim2SF_SF2Prim. apply valid_intSF. exact Hv.
Qed.

Lemma integerValue_floatOfInt v :
  Z.abs v < 2 ^ 53 -> integerValue (floatOfInt v) = Some v.
Proof.
  intros Hv. unfold integerValue. rewrite Prim2SF_floatOfInt by exact Hv.
  destruct (Z.eq_dec v 0) as [-> | Hne]; [reflexivity |].
  rewrite intSF_finite by exact Hne.
  pose proof (Z.log2_nonneg (Z.abs v)) as HL0.
  assert (HL : Z.log2 (Z.abs v) < 53) by (apply Z.log2_lt_pow2; lia).
  rewrite Z2Pos.id by (apply Z.mul_pos_pos; lia).
  set (L := Z.log2 (Z.abs v)) in *.
  assert (Hsign : cond_Zopp (v <? 0) (Z.abs v) = v)
    by (unfold cond_Zopp; destruct (Z.ltb_spec v 0); lia).
  destruct (Z.leb_spec 0 (L - 52)) as [H0 | Hneg].
  - replace (L - 52) with 0 by lia. replace (52 - L) with 0 by lia.
    rewrite Z.pow_0_r, !Z.mul_1_r. rewrite Hsign. reflexivity.
  - replace (- (L - 52)) with (52 - L) by lia.
    assert (Hp : 0 < 2 ^ (52 - L)) by (apply Z.pow_pos_nonneg; lia).
    rewrite Z.mod_mul by lia. cbn [Z.eqb].
    rewrite Z.div_mul by lia. rewrite Hsign. reflexivity.
Qed.

(** ** The sum of whole numbers in float64 *)

Lemma sumsExact_bound vs s :
  Z.abs s < 2 ^ 53 -> sumsExact s vs = true -> Z.abs (fold_left Z.add vs s) < 2 ^ 53.
Proof.
  revert s. induction vs as [| v vs IH]; intros s Hs Hex; [exact Hs |].
  cbn [sumsExact] in Hex. apply andb_prop in Hex as [Hex Hrest].
  apply andb_prop in Hex as [_ Hsv]. apply Z.ltb_lt in Hsv.
  cbn [fold_left]. apply IH; assumption.
Qed.

Lemma fold_add_int vs acc s :
  Prim2SF acc = intSF s -> Z.abs s < 2 ^ 53 -> sumsExact s vs = true ->
  Prim2SF (fold_left PrimFloat.add (map floatOfInt vs) acc) = intSF (fold_left Z.add vs s).
Proof.
  revert acc s. induction vs as [| v vs IH]; intros acc s Hacc Hs Hex; [exact Hacc |].
  cbn [sumsExact] in Hex. apply andb_prop in Hex as [Hex Hrest].
  apply andb_prop in Hex as [Hv Hsv]. apply Z.ltb_lt in Hv, Hsv.
  cbn [map fold_left]. apply IH; [| exact Hsv | exact Hrest].
  rewrite FloatAxioms.add_spec, Hacc, Prim2SF_floatOfInt by exact Hv.
  apply SFadd_int; assumption.
Qed.

(** Whole numbers whose running sums stay below [2^53] are added without
    any rounding. *)
Lemma sum_floatOfInt vs :
  sumsExact 0 vs = true ->
  fold_left PrimFloat.add (map floatOfInt vs) 0%float = floatOfInt (sumZ vs).
Proof.
  intros Hex. apply FloatAxioms.Prim2SF_inj.
  rewrite (fold_add_int vs 0%float 0) by (reflexivity || exact Hex).
  rewrite Prim2SF_floatOfInt; [reflexivity |].
  apply sumsExact_bound; [reflexivity | exact Hex].
Qed.

(** ** A sample that is not a number *)

Lemma isNaN_add_l x y : isNaN x = true -> isNaN (x + y) = true.
Proof.
  unfold isNaN. rewrite FloatAxioms.add_spec. unfold FloatAxioms.SF64add.
  destruct (Prim2SF x); try discriminate. reflexivity.
Qed.

Lemma isNaN_add_r x y : isNaN y = true -> isNaN (x + y) = true.
Proof.
  unfold isNaN. rewrite FloatAxioms.add_spec. unfold FloatAxioms.SF64add.
  destruct (Prim2SF y); try discriminate. destruct (Prim2SF x); reflexivity.
Qed.

Lemma isNaN_div_l x y : isNaN x = true -> isNaN (x / y) = true.
Proof.
  unfold isNaN. rewrite FloatAxioms.div_spec. unfold FloatAxioms.SF64div.
  destruct (Prim2SF x); try discriminate. reflexivity.
Qed.

Lemma isNaN_fold times acc :
  isNaN acc = true -> isNaN (fold_left PrimFloat.add times acc) = true.
Proof.
  revert acc. induction times as [| t times IH]; intros acc Hacc; [exact Hacc |].
  cbn [fold_left]. apply IH. apply isNaN_add_l. exact Hacc.
Qed.

Lemma isNaN_fold_In times acc x :
  In x times -> isNaN x = true -> isNaN (fold_left PrimFloat.add times acc) = true.
Proof.
  revert acc. induction times as [| t times IH]; intros acc Hin Hx; [destruct Hin |].
  cbn [fold_left]. destruct Hin as [-> | Hin].
  - apply isNaN_fold. apply isNaN_add_r. exact Hx.
  - apply IH; assumption.
Qed.

Lemma formatFixed2_NaN f : isNaN f = true -> Strconv.formatFixed2 f = "NaN".
Proof.
  unfold isNaN, Strconv.formatFixed2. destruct (Prim2SF f); try discriminate. reflexivity.
Qed.

(** ** The verb [%.2f] *)

Lemma roundHalfEven_nearest num den :
  0 < den -> 0 <= num ->
  nearestEven num den (Strconv.roundHalfEven num den) /\
  0 <= Strconv.roundHalfEven num den.
Proof.
  intros Hden Hnum. unfold Strconv.roundHalfEven, nearestEven.
  pose proof (Z.div_mod num den ltac:(lia)) as Hdm.
  pose proof (Z.mod_pos_bound num den Hden) as Hr.
  assert (Hq : 0 <= num / den) by (apply Z.div_pos; lia).
  set (q := num / den) in *. set (r := num mod den) in *.
  destruct (Z.compare_spec (2 * r) den) as [Heq | Hlt | Hgt].
  - destruct (Z.even q) eqn:Hev.
    + split; [split; [nia | intros _; exact Hev] | exact Hq].
    + split; [split; [nia |] | lia].
      intros _. rewrite Z.even_add, Hev. reflexivity.
  - split; [split; [nia | intros Htie; nia] | exact Hq].
  - split; [split; [nia | intros Htie; nia] | lia].
Qed.

Lemma nearestEven_unique num den c c' :
  0 < den -> nearestEven num den c -> nearestEven num den c' -> c = c'.
Proof.
  intros Hden [Hc Hce] [Hc' Hce'].
  assert (Hnear : c' = c \/ c' = c + 1 \/ c' = c - 1) by nia.
  destruct Hnear as [-> | [-> | ->]]; [reflexivity | exfalso ..].
  - assert (H1 : Z.abs (2 * (c * den - num)) = den) by nia.
    assert (H2 : Z.abs (2 * ((c + 1) * den - num)) = den) by nia.
    specialize (Hce H1). specialize (Hce' H2).
    rewrite Z.even_add, Hce in Hce'. discriminate Hce'.
  - assert (H1 : Z.abs (2 * (c * den - num)) = den) by nia.
    assert (H2 : Z.abs (2 * ((c - 1) * den - num)) = den) by nia.
    specialize (Hce H1). specialize (Hce' H2).
    rewrite Z.even_sub, Hce in Hce'. discriminate Hce'.
Qed.

Lemma digitVal_digitChar d : 0 <= d <= 9 -> digitVal (digitChar d) = d.
Proof.
  intros Hd.
  assert (H : d = 0 \/ d = 1 \/ d = 2 \/ d = 3 \/ d = 4 \/
              d = 5 \/ d = 6 \/ d = 7 \/ d = 8 \/ d = 9) by lia.
  repeat destruct H as [-> | H]; try subst d; reflexivity.
Qed.

Lemma readDecimal_digit d rest acc :
  0 <= d <= 9 ->
  readDecimal (String (digitChar d) rest) acc = readDecimal rest (acc * 10 + d).
Proof.
  intros Hd. cbn [readDecimal].
  rewrite digitChar_digit, digitVal_digitChar by exact Hd. reflexivity.
Qed.

(** The digits of [utod] read back as the number. *)
Lemma utodFuel_read fuel u tail :
  0 <= u < 2 ^ Z.of_nat fuel ->
  exists ds, utodFuel fuel u tail = ds +:+ tail /\
             forall rest, readDecimal (ds +:+ rest) 0 = readDecimal rest u.
Proof.
  revert u tail. induction fuel as [| fuel IH]; intros u tail Hu.
  - exists EmptyString. change (2 ^ Z.of_nat 0) with 1 in Hu.
    replace u with 0 by lia. split; reflexivity.
  - cbn [utodFuel]. pose proof (Z.mod_pos_bound u 10 ltac:(lia)) as Hm.
    destruct (Z.ltb_spec u 10) as [Hsmall | Hbig].
    + exists (String (digitChar (u mod 10)) EmptyString). split; [reflexivity |].
      intros rest. rewrite append_cons, append_nil, readDecimal_digit by lia.
      rewrite Z.mod_small by lia. reflexivity.
    + rewrite Nat2Z.inj_succ, Z.pow_succ_r in Hu by lia.
      destruct (IH (u / 10) (String (digitChar (u mod 10)) tail)) as (ds & Hds & Hread).
      { split; [apply Z.div_pos; lia |].
        apply Z.div_lt_upper_bound; lia. }
      exists (ds +:+ String (digitChar (u mod 10)) EmptyString). split.
      * rewrite Hds, append_assoc. reflexivity.
      * intros rest. rewrite append_assoc, Hread, append_cons, append_nil.
        rewrite readDecimal_digit by lia. f_equal.
        pose proof (Z.div_mod u 10 ltac:(lia)). lia.
Qed.

Lemma utod_read u rest :
  0 <= u -> readDecimal (utod u +:+ rest) 0 = readDecimal rest u.
Proof.
  intros Hu. unfold utod.
  destruct (utodFuel_read (S (Z.to_nat (Z.log2 u))) u EmptyString) as (ds & Hds & Hread).
  { split; [exact Hu |].
    rewrite Nat2Z.inj_succ, Z2Nat.id by apply Z.log2_nonneg.
    destruct (Z.eq_dec u 0) as [-> | Hne]; [reflexivity |].
    apply Z.log2_spec. lia. }
  rewrite Hds. replace (ds +:+ "") with ds; [apply Hread |].
  clear. induction ds as [| c ds IH]; [reflexivity |].
  rewrite append_cons, <- IH. reflexivity.
Qed.

(** [%.2f] of a finite number that is not zero: the digits written are
    those of the nearest number of hundredths, the even one in a tie. *)
Lemma formatFixed2_finite f s m e :
  Prim2SF f = S754_finite s m e ->
  exists c whole d1 d2,
    nearestEven (100 * Zpos m * 2 ^ Z.max e 0) (2 ^ Z.max (- e) 0) c /\
    Strconv.formatFixed2 f
    = (if s then "-" else "") +:+ whole +:+ "." +:+ String d1 (String d2 EmptyString) /\
    readDecimal (whole +:+ String d1 (String d2 EmptyString)) 0 = Some c.
Proof.
  intros Hf. unfold Strconv.formatFixed2. rewrite Hf.
  set (c := if 0 <=? e then Z.pos m * 2 ^ e * 100
            else Strconv.roundHalfEven (Z.pos m * 100) (2 ^ (- e))).
  assert (Hc : nearestEven (100 * Zpos m * 2 ^ Z.max e 0) (2 ^ Z.max (- e) 0) c /\ 0 <= c).
  { unfold c. destruct (Z.leb_spec 0 e) as [He | He].
    - rewrite Z.max_l, Z.max_r by lia. rewrite Z.pow_0_r.
      assert (0 < 2 ^ e) by (apply Z.pow_pos_nonneg; lia).
      split; [| nia]. unfold nearestEven.
      replace (2 * (Z.pos m * 2 ^ e * 100 * 1 - 100 * Z.pos m * 2 ^ e)) with 0 by lia.
      split; [cbn; lia | cbn; lia].
    - rewrite Z.max_r, Z.max_l by lia. rewrite Z.pow_0_r, Z.mul_1_r.
      replace (100 * Z.pos m) with (Z.pos m * 100) by lia.
      apply roundHalfEven_nearest; [apply Z.pow_pos_nonneg; lia | lia]. }
  destruct Hc as [Hnear Hc0].
  exists c, (utod (c / 100)), (digitChar (c mod 100 / 10)), (digitChar (c mod 10)).
  split; [exact Hnear |]. split; [reflexivity |].
  rewrite utod_read by (apply Z.div_pos; lia).
  rewrite !readDecimal_digit by (Z.div_mod_to_equations; lia).
  cbn [readDecimal]. f_equal. Z.div_mod_to_equations. lia.
Qed.

Lemma formatFixed2_not_finite f :
  isFinite f = false ->
  Strconv.formatFixed2 f = "NaN" \/ Strconv.formatFixed2 f = "+Inf" \/
  Strconv.formatFixed2 f = "-Inf".
Proof.
  unfold isFinite, Strconv.formatFixed2.
  destruct (Prim2SF f) as [s | s | | s m e]; try discriminate; intros _.
  - destruct s; auto.
  - auto.
Qed.

Lemma formatFixed2_zero f s :
  Prim2SF f = S754_zero s -> Strconv.formatFixed2 f = (if s then "-" else "") +:+ "0.00".
Proof. intros Hf. unfold Strconv.formatFixed2. rewrite Hf. reflexivity. Qed.

(** ** Division in binary64 *)

Lemma digits_53_bounds m : Zpos (digits2_pos m) = 53 -> 2 ^ 52 <= Zpos m < 2 ^ 53.
Proof.
  rewrite digits2_pos_log2. intros Hd.
  pose proof (Z.log2_spec (Zpos m) ltac:(lia)) as Hs.
  replace (Z.log2 (Zpos m)) with 52 in Hs by lia. exact Hs.
Qed.

Lemma digits_of_bounds m k : 0 <= k -> 2 ^ k <= Zpos m < 2 ^ (k + 1) -> Zpos (digits2_pos m) = k + 1.
Proof.
  intros Hk Hm. rewrite digits2_pos_log2. f_equal.
  apply Z.log2_unique; [exact Hk |]. replace (Z.succ k) with (k + 1) by lia. exact Hm.
Qed.

(** What [new_location] says about a remainder. *)
Lemma new_location_spec den r :
  0 <= r < den ->
  (new_location den r = loc_Exact /\ r = 0) \/
  (new_location den r = loc_Inexact Lt /\ 0 < r /\ 2 * r < den) \/
  (new_location den r = loc_Inexact Eq /\ 2 * r = den) \/
  (new_location den r = loc_Inexact Gt /\ den < 2 * r).
Proof.
  intros Hr. unfold new_location.
  destruct (Z.even den) eqn:Hev; unfold new_location_even, new_location_odd;
    (destruct (Z.eqb_spec r 0) as [-> | Hne]; [left; split; reflexivity | right]).
  - destruct (Z.compare_spec (2 * r) den) as [Heq | Hlt | Hgt].
    + right. left. split; [reflexivity | exact Heq].
    + left. split; [reflexivity | lia].
    + right. right. split; [reflexivity | lia].
  - assert (Hodd : Z.odd den = true) by (rewrite <- Z.negb_even, Hev; reflexivity).
    apply Z.odd_spec in Hodd as [k Hk].
    destruct (Z.compare_spec (2 * r + 1) den) as [Heq | Hlt | Hgt].
    + left. split; [reflexivity | lia].
    + left. split; [reflexivity | lia].
    + right. right. split; [reflexivity | lia].
Qed.

Lemma nearestEven_scale num den c k :
  0 < k -> nearestEven (num * k) (den * k) c <-> nearestEven num den c.
Proof.
  intros Hk. unfold nearestEven.
  replace (2 * (c * (den * k) - num * k)) with (2 * (c * den - num) * k) by lia.
  rewrite Z.abs_mul, (Z.abs_eq k) by lia.
  split; intros [Hle Htie]; split.
  - nia.
  - intros Heq. apply Htie. rewrite Heq. reflexivity.
  - nia.
  - intros Heq. apply Htie. nia.
Qed.

(** The last step of [binary_round_aux] on a mantissa of 53 bits. *)
Lemma round_finish s Q E :
  Zpos (digits2_pos Q) = 53 -> -1000 <= E <= 960 ->
  (let '(mrs, e) := shr_fexp prec emax (Zpos Q) E loc_Exact in
   match shr_m mrs with
   | Z0 => S754_zero s
   | Zpos m => if e <=? emax - prec then S754_finite s m e else S754_infinity s
   | Zneg _ => S754_nan
   end) = S754_finite s Q E.
Proof.
  intros HQ HE. unfold shr_fexp. cbn [Zdigits2 shr_record_of_loc]. rewrite HQ.
  rewrite fexp_small by lia. replace (53 + E - 53 - E) with 0 by lia.
  cbn [shr shr_m].
  destruct (Z.leb_spec E (emax - prec)) as [_ | Hbad]; [reflexivity |].
  unfold emax, prec in Hbad. lia.
Qed.

(** Rounding a mantissa of 53 bits, with the location of the rest. *)
Lemma binary_round_aux_53 s q E l Q :
  Zpos (digits2_pos q) = 53 -> -1000 <= E <= 900 ->
  round_nearest_even (Zpos q) l = Zpos Q -> Zpos (digits2_pos Q) = 53 ->
  binary_round_aux prec emax s (Zpos q) E l = S754_finite s Q E.
Proof.
  intros Hq HE Hround HQ. unfold binary_round_aux.
  unfold shr_fexp at 1. cbn [Zdigits2]. rewrite Hq.
  rewrite fexp_small by lia. replace (53 + E - 53 - E) with 0 by lia.
  cbn [shr].
  assert (Hloc : loc_of_shr_record (shr_record_of_loc (Zpos q) l) = l)
    by (destruct l as [| []]; reflexivity).
  assert (Hm : shr_m (shr_record_of_loc (Zpos q) l) = Zpos q)
    by (destruct l as [| []]; reflexivity).
  rewrite Hloc, Hm, Hround. apply round_finish; [exact HQ | lia].
Qed.

(** Rounding a mantissa of 54 bits: one bit is shifted out first. *)
Lemma binary_round_aux_54 s q E l Q :
  Zpos (digits2_pos q) = 54 -> -1000 <= E <= 900 ->
  (let mrs := shr_1 (shr_record_of_loc (Zpos q) l) in
   round_nearest_even (shr_m mrs) (loc_of_shr_record mrs)) = Zpos Q ->
  Zpos (digits2_pos Q) = 53 ->
  binary_round_aux prec emax s (Zpos q) E l = S754_finite s Q (E + 1).
Proof.
  intros Hq HE Hround HQ. unfold binary_round_aux.
  unfold shr_fexp at 1. cbn [Zdigits2]. rewrite Hq.
  rewrite fexp_small by lia. replace (54 + E - 53 - E) with 1 by lia.
  cbn [shr SpecFloat.iter_pos]. cbv zeta in Hround. rewrite Hround.
  apply round_finish; [exact HQ | lia].
Qed.

(** The quotient of two numbers with mantissas of 53 bits is the number
    with a mantissa of 53 bits that is nearest to the exact quotient, the
    even one in a tie. *)
Lemma SFdiv_nearest s1 m1 e1 s2 m2 e2 :
  Zpos (digits2_pos m1) = 53 -> Zpos (digits2_pos m2) = 53 ->
  -900 <= e1 - e2 <= 900 ->
  exists Q E,
    SFdiv prec emax (S754_finite s1 m1 e1) (S754_finite s2 m2 e2)
    = S754_finite (xorb s1 s2) Q E /\
    (E = e1 - e2 - 53 \/ E = e1 - e2 - 52) /\
    2 ^ 52 <= Zpos Q < 2 ^ 53 /\
    nearestEven (Zpos m1 * 2 ^ (e1 - e2 - E)) (Zpos m2) (Zpos Q).
Proof.
  intros Hd1 Hd2 He.
  pose proof (digits_53_bounds m1 Hd1) as Hm1.
  pose proof (digits_53_bounds m2 Hd2) as Hm2.
  cbn [SFdiv]. unfold SFdiv_core_binary. cbn [Zdigits2]. rewrite Hd1, Hd2.
  replace (53 + e1 - (53 + e2)) with (e1 - e2) by lia.
  rewrite fexp_small by lia.
  rewrite Z.min_l by lia.
  replace (e1 - e2 - (e1 - e2 - 53)) with 53 by lia.
  rewrite Z.shiftl_mul_pow2 by lia.
  pose proof (Z_div_mod (Zpos m1 * 2 ^ 53) (Zpos m2) ltac:(lia)) as Hdiv.
  destruct (Z.div_eucl (Zpos m1 * 2 ^ 53) (Zpos m2)) as [q r].
  destruct Hdiv as [Heq Hr].
  assert (H53 : 2 ^ 53 = 9007199254740992) by reflexivity.
  assert (H52 : 2 ^ 52 = 4503599627370496) by reflexivity.
  rewrite H53 in *. rewrite H52 in *.
  assert (Hq : 4503599627370496 <= q < 18014398509481984) by nia.
  destruct q as [| q | q]; try lia.
  assert (Hdig : forall Q, 4503599627370496 <= Zpos Q < 9007199254740992 ->
                           Zpos (digits2_pos Q) = 53).
  { intros Q HQ. apply (digits_of_bounds Q 52); [lia |]. rewrite H52.
    change (2 ^ (52 + 1)) with 9007199254740992. exact HQ. }
  destruct (Z_lt_le_dec (Zpos q) 9007199254740992) as [Hsmall | Hlarge].
  - (* a quotient of 53 bits *)
    assert (Hround : exists Q, round_nearest_even (Zpos q) (new_location (Zpos m2) r) = Zpos Q /\
                               4503599627370496 <= Zpos Q < 9007199254740992 /\
                               nearestEven (Zpos m1 * 9007199254740992) (Zpos m2) (Zpos Q)).
    { assert (Hup : Zpos m2 <= 2 * r -> Zpos q + 1 < 9007199254740992).
      { intros Hhalf.
        destruct (Z_lt_le_dec (Zpos q + 1) 9007199254740992) as [Hok | Hover]; [exact Hok |].
        exfalso. assert (Hqv : Zpos q = 9007199254740991) by lia.
        rewrite Hqv in Heq. lia. }
      unfold nearestEven.
      destruct (new_location_spec (Zpos m2) r Hr)
        as [[-> Hr0] | [[-> [Hr0 Hlt]] | [[-> Hhalf] | [-> Hgt]]]];
        cbn [round_nearest_even].
      - exists q. split; [reflexivity |]. split; [lia |]. split; [lia | intros Htie; lia].
      - exists q. split; [reflexivity |]. split; [lia |]. split; [lia | intros Htie; lia].
      - destruct (Z.even (Zpos q)) eqn:Hev.
        + exists q. split; [reflexivity |]. split; [lia |].
          split; [lia | intros _; exact Hev].
        + exists (q + 1)%positive. split; [reflexivity |].
          specialize (Hup ltac:(lia)). split; [lia |].
          split; [lia |]. intros _.
          change (Z.pos (q + 1)) with (Z.pos q + 1). rewrite Z.even_add, Hev. reflexivity.
      - exists (q + 1)%positive. split; [reflexivity |].
        specialize (Hup ltac:(lia)). split; [lia |]. split; [lia | intros Htie; lia]. }
    destruct Hround as (Q & Hround & HQ & Hnear).
    exists Q, (e1 - e2 - 53). split.
    + apply binary_round_aux_53; [apply Hdig; lia | lia | exact Hround | apply Hdig; exact HQ].
    + split; [left; reflexivity |]. split; [exact HQ |].
      replace (e1 - e2 - (e1 - e2 - 53)) with 53 by lia. rewrite H53. exact Hnear.
  - (* a quotient of 54 bits *)
    assert (Hround : exists Q,
               (let mrs := shr_1 (shr_record_of_loc (Zpos q) (new_location (Zpos m2) r)) in
                round_nearest_even (shr_m mrs) (loc_of_shr_record mrs)) = Zpos Q /\
               4503599627370496 <= Zpos Q < 9007199254740992 /\
               nearestEven (Zpos m1 * 4503599627370496) (Zpos m2) (Zpos Q)).
    { unfold nearestEven.
      destruct q as [h | h |]; [| | lia].
      - (* the bit shifted out is 1 *)
        assert (Hh : Zpos h~1 = 2 * Zpos h + 1) by lia. rewrite Hh in Heq, Hq, Hlarge.
        assert (Hup : Zpos h + 1 < 9007199254740992).
        { destruct (Z_lt_le_dec (Zpos h + 1) 9007199254740992) as [Hok | Hover];
            [exact Hok |].
          exfalso. assert (Hhv : Zpos h = 9007199254740991) by lia.
          rewrite Hhv in Heq. lia. }
        destruct (new_location_spec (Zpos m2) r Hr)
          as [[-> Hr0] | [[-> [Hr0 Hlt]] | [[-> Hhalf] | [-> Hgt]]]];
          cbn [shr_record_of_loc shr_1 orb shr_m shr_r shr_s loc_of_shr_record
               round_nearest_even].
        + destruct (Z.even (Zpos h)) eqn:Hev.
          * exists h. split; [reflexivity |]. split; [lia |].
            split; [lia | intros _; exact Hev].
          * exists (h + 1)%positive. split; [reflexivity |]. split; [lia |].
            split; [lia |]. intros _.
            change (Z.pos (h + 1)) with (Z.pos h + 1). rewrite Z.even_add, Hev. reflexivity.
        + exists (h + 1)%positive. split; [reflexivity |]. split; [lia |].
          split; [lia | intros Htie; lia].
        + exists (h + 1)%positive. split; [reflexivity |]. split; [lia |].
          split; [lia | intros Htie; lia].
        + exists (h + 1)%positive. split; [reflexivity |]. split; [lia |].
          split; [lia | intros Htie; lia].
      - (* the bit shifted out is 0 *)
        assert (Hh : Zpos h~0 = 2 * Zpos h) by lia. rewrite Hh in Heq, Hq, Hlarge.
        destruct (new_location_spec (Zpos m2) r Hr)
          as [[-> Hr0] | [[-> [Hr0 Hlt]] | [[-> Hhalf] | [-> Hgt]]]];
          cbn [shr_record_of_loc shr_1 orb shr_m shr_r shr_s loc_of_shr_record
               round_nearest_even];
          exists h; (split; [reflexivity |]); (split; [lia |]);
          (split; [lia | intros Htie; lia]). }
    destruct Hround as (Q & Hround & HQ & Hnear).
    exists Q, (e1 - e2 - 53 + 1). split.
    + apply binary_round_aux_54; [| lia | exact Hround | apply Hdig; exact HQ].
      apply (digits_of_bounds q 53); [lia |].
      change (2 ^ 53) with 9007199254740992.
      change (2 ^ (53 + 1)) with 18014398509481984. lia.
    + split; [right; lia |]. split; [exact HQ |].
      replace (e1 - e2 - (e1 - e2 - 53 + 1)) with 52 by lia. rewrite H52. exact Hnear.
Qed.

Lemma intSF_mantissa_digits v :
  v <> 0 -> Z.abs v < 2 ^ 53 ->
  Zpos (digits2_pos (Z.to_pos (Z.abs v * 2 ^ (52 - Z.log2 (Z.abs v))))) = 53.
Proof.
  intros Hne Hv.
  pose proof (Z.log2_nonneg (Z.abs v)) as HL0.
  assert (HL : Z.log2 (Z.abs v) < 53) by (apply Z.log2_lt_pow2; lia).
  rewrite digits2_pos_log2, Z2Pos.id by (apply Z.mul_pos_pos; lia).
  rewrite Z.log2_mul_pow2 by lia. lia.
Qed.

(** The float64 quotient of two whole numbers below [2^53]: the number with
    a mantissa of 53 bits nearest to the exact quotient, or zero. *)
Lemma div_floatOfInt_zero n :
  0 < n < 2 ^ 53 -> Prim2SF (floatOfInt 0 / floatOfInt n) = S754_zero false.
Proof.
  intros Hn. rewrite FloatAxioms.div_spec, !Prim2SF_floatOfInt by (cbn; lia).
  rewrite (intSF_finite n) by lia. cbn [intSF].
  replace (n <? 0) with false by (symmetry; apply Z.ltb_ge; lia). reflexivity.
Qed.

Lemma div_floatOfInt S n :
  S <> 0 -> Z.abs S < 2 ^ 53 -> 0 < n < 2 ^ 53 ->
  exists Q E,
    Prim2SF (floatOfInt S / floatOfInt n) = S754_finite (S <? 0) Q E /\
    E <= 0 /\ 2 ^ 52 <= Zpos Q < 2 ^ 53 /\
    nearestEven (Z.abs S * 2 ^ (- E)) n (Zpos Q).
Proof.
  intros HS Hb Hn.
  rewrite FloatAxioms.div_spec, !Prim2SF_floatOfInt by lia.
  rewrite (intSF_finite S), (intSF_finite n) by lia.
  replace (n <? 0) with false by (symmetry; apply Z.ltb_ge; lia).
  rewrite (Z.abs_eq n) by lia.
  pose proof (Z.log2_nonneg (Z.abs S)) as HL1.
  assert (HL1' : Z.log2 (Z.abs S) < 53) by (apply Z.log2_lt_pow2; lia).
  pose proof (Z.log2_nonneg n) as HL2.
  assert (HL2' : Z.log2 n < 53) by (apply Z.log2_lt_pow2; lia).
  set (L1 := Z.log2 (Z.abs S)) in *. set (L2 := Z.log2 n) in *.
  destruct (SFdiv_nearest (S <? 0) (Z.to_pos (Z.abs S * 2 ^ (52 - L1))) (L1 - 52)
              false (Z.to_pos (n * 2 ^ (52 - L2))) (L2 - 52))
    as (Q & E & Hdiv & HE & HQ & Hnear).
  { apply intSF_mantissa_digits; assumption. }
  { pose proof (intSF_mantissa_digits n ltac:(lia)) as H.
    rewrite (Z.abs_eq n) in H by lia. apply H. lia. }
  { lia. }
  exists Q, E. rewrite xorb_false_r in Hdiv.
  split; [exact Hdiv |]. split; [lia |]. split; [exact HQ |].
  rewrite !Z2Pos.id in Hnear by (apply Z.mul_pos_pos; lia).
  apply (nearestEven_scale _ _ _ (2 ^ (52 - L2))); [apply Z.pow_pos_nonneg; lia |].
  replace (Z.abs S * 2 ^ (- E) * 2 ^ (52 - L2))
    with (Z.abs S * 2 ^ (52 - L1) * 2 ^ (L1 - 52 - (L2 - 52) - E)); [exact Hnear |].
  rewrite <- !Z.mul_assoc, <- !Z.pow_add_r by lia. f_equal. f_equal. lia.
Qed.

(** ** The average line of [Print] *)

(** C7: [Print] writes the average line exactly when there is at least one
    response time; the line then is the sixth one, and no other line has
    its shape.  The value in it is computed in float64: the samples are
    added in order, starting from 0, the sum is divided by [float64] of
    their number, and the quotient is written with the verb [%.2f].
    - The number of samples is converted without rounding (below [2^53]).
    - Whole-number samples whose running sums stay below [2^53] are added
      without rounding, and the quotient is the binary64 number nearest to
      their exact mean: zero when the sum is zero, otherwise the sign of
      the sum and the mantissa of 53 bits nearest to the exact quotient,
      the even one in a tie.
    - A quotient that is finite and not zero is written as a sign, digits,
      a dot and two digits, which read as the nearest number of hundredths
      of its magnitude (the even one in a tie); zero is written 0.00.
    - A quotient that is not finite is written NaN, +Inf or -Inf, and it is
      NaN as soon as one sample is NaN.
    With the samples 100 and 200 the line reads 150.00 ms. *)
Theorem C7_Print_average_line (r : AnalysisReport) (keys1 : list string)
    (pairs2 : list (string * Z)) :
  let out := fst (Print r keys1 pairs2) in
  let times := ResponseTime r in
  let avg := (fold_left PrimFloat.add times 0 / floatOfInt (len times))%float in
  let line := "Average Response Time: " +:+ Strconv.formatFixed2 avg +:+ " ms" in
  ((exists l, In l out /\ isAverageLine l) <-> times <> []) /\
  (times <> [] -> out !! 5%nat = Some line) /\
  (forall l, In l out -> isAverageLine l -> times <> [] /\ l = line) /\
  (len times < 2 ^ 53 -> integerValue (floatOfInt (len times)) = Some (len times)) /\
  (forall vs, times = map floatOfInt vs -> sumsExact 0 vs = true ->
     fold_left PrimFloat.add times 0%float = floatOfInt (sumZ vs) /\
     integerValue (fold_left PrimFloat.add times 0%float) = Some (sumZ vs) /\
     avg = (floatOfInt (sumZ vs) / floatOfInt (len vs))%float /\
     (vs <> [] -> len vs < 2 ^ 53 ->
      (sumZ vs = 0 -> Prim2SF avg = S754_zero false) /\
      (sumZ vs <> 0 ->
       exists Q E,
         Prim2SF avg = S754_finite (sumZ vs <? 0) Q E /\
         E <= 0 /\ 2 ^ 52 <= Zpos Q < 2 ^ 53 /\
         nearestEven (Z.abs (sumZ vs) * 2 ^ (- E)) (len vs) (Zpos Q)))) /\
  (forall s m e, Prim2SF avg = S754_finite s m e ->
     exists c whole d1 d2,
       nearestEven (100 * Zpos m * 2 ^ Z.max e 0) (2 ^ Z.max (- e) 0) c /\
       (forall c', nearestEven (100 * Zpos m * 2 ^ Z.max e 0) (2 ^ Z.max (- e) 0) c' ->
                   c' = c) /\
       line = "Average Response Time: " +:+ (if s then "-" else "") +:+ whole +:+ "." +:+
              String d1 (String d2 " ms") /\
       readDecimal (whole +:+ String d1 (String d2 EmptyString)) 0 = Some c) /\
  (forall s, Prim2SF avg = S754_zero s ->
     line = "Average Response Time: " +:+ (if s then "-" else "") +:+ "0.00 ms") /\
  (isFinite avg = false ->
     line = "Average Response Time: NaN ms" \/ line = "Average Response Time: +Inf ms" \/
     line = "Average Response Time: -Inf ms") /\
  ((exists x, In x times /\ isNaN x = true) -> line = "Average Response Time: NaN ms") /\
  averageLine [100%float; 200%float] = ["Average Response Time: 150.00 ms"].
Proof.
  intros out times avg line.
  destruct (Print_average_line_position r keys1 pairs2) as (Hiff & Hsixth & Hshape).
  split; [exact Hiff |]. split; [exact Hsixth |]. split; [exact Hshape |].
  split.
  { intros Hlen. apply integerValue_floatOfInt. pose proof (len_nonneg times). lia. }
  split.
  { intros vs Htimes Hex.
    assert (Hsum : fold_left PrimFloat.add times 0%float = floatOfInt (sumZ vs))
      by (rewrite Htimes; apply sum_floatOfInt; exact Hex).
    assert (Hbound : Z.abs (sumZ vs) < 2 ^ 53)
      by (apply sumsExact_bound; [reflexivity | exact Hex]).
    assert (Havg : avg = (floatOfInt (sumZ vs) / floatOfInt (len vs))%float).
    { unfold avg. rewrite Hsum. f_equal. f_equal.
      rewrite Htimes. unfold len. rewrite length_map. reflexivity. }
    split; [exact Hsum |]. split; [| split; [exact Havg |]].
    - rewrite Hsum. apply integerValue_floatOfInt. exact Hbound.
    - intros Hne Hlen.
      assert (Hpos : 0 < len vs).
      { destruct vs; [contradiction |]. unfold len. cbn [length]. lia. }
      rewrite Havg. split.
      + intros ->. apply div_floatOfInt_zero. lia.
      + intros Hnz. apply div_floatOfInt; [exact Hnz | exact Hbound | lia]. }
  split.
  { intros s m e Hf.
    destruct (formatFixed2_finite avg s m e Hf) as (c & whole & d1 & d2 & Hc & Hfmt & Hread).
    exists c, whole, d1, d2. split; [exact Hc |]. split.
    - intros c' Hc'. refine (nearestEven_unique _ _ _ _ _ Hc' Hc).
      apply Z.pow_pos_nonneg; lia.
    - split; [| exact Hread]. unfold line. rewrite Hfmt, !append_assoc. reflexivity. }
  split.
  { intros s Hf. unfold line. rewrite (formatFixed2_zero avg s Hf).
    rewrite !append_assoc. reflexivity. }
  split.
  { intros Hnf. unfold line.
    destruct (formatFixed2_not_finite avg Hnf) as [-> | [-> | ->]]; auto. }
  split; [| vm_compute; reflexivity].
  intros (x & Hin & Hx). unfold line. rewrite formatFixed2_NaN; [reflexivity |].
  apply isNaN_div_l. apply (isNaN_fold_In times _ x Hin Hx).
Qed.

Lemma C7_witness :
  let r := Analyze (fun s : string => s)
                   [mkLogEntry Time.zero "INFO" "request a took 100 ms";
                    mkLogEntry Time.zero "INFO" "request b took 200 ms"] [] in
  let out := fst (Print r ["request a took 100 ms"; "request b took 200 ms"]
                        [("request a took 100 ms", 1); ("request b took 200 ms", 1)]) in
  let avg := (fold_left PrimFloat.add (ResponseTime r) 0
              / floatOfInt (len (ResponseTime r)))%float in
  ResponseTime r = map floatOfInt [100; 200] /\
  sumsExact 0 [100; 200] = true /\
  integerValue (fold_left PrimFloat.add (ResponseTime r) 0%float) = Some 300 /\
  (exists Q E, Prim2SF avg = S754_finite false Q E /\
               nearestEven (300 * 2 ^ (- E)) 2 (Zpos Q)) /\
  out !! 5%nat = Some "Average Response Time: 150.00 ms".
Proof.
  intros r out avg.
  assert (Htimes : ResponseTime r = map floatOfInt [100; 200]) by (vm_compute; reflexivity).
  assert (Hex : sumsExact 0 [100; 200] = true) by reflexivity.
  destruct (C7_Print_average_line r ["request a took 100 ms"; "request b took 200 ms"]
              [("request a took 100 ms", 1); ("request b took 200 ms", 1)])
    as (_ & Hsixth & _ & _ & Hwhole & _).
  destruct (Hwhole [100; 200] Htimes Hex) as (_ & Hint & _ & Hmean).
  destruct (Hmean ltac:(discriminate) ltac:(reflexivity)) as [_ Hnz].
  destruct (Hnz ltac:(discriminate)) as (Q & E & HQ & _ & _ & Hnear).
  split; [exact Htimes |]. split; [exact Hex |]. split; [exact Hint |].
  split; [exists Q, E; split; [exact HQ | exact Hnear] |].
  unfold out. rewrite Hsixth by (rewrite Htimes; discriminate).
  vm_compute. reflexivity.
Defined.

(** The value printed is not the arithmetic mean of the samples in
    general.  Two samples of 1e308, each finite, add up to an infinity:
    the line reads +Inf.  The samples 10^16, 1 and -10^16 are whole
    numbers whose sum is 1, but the first addition loses the 1: the line
    reads 0.00, and one third is written 0.33.  A message that ends with
    [nan ms] gives a sample that is not a number: the line reads NaN. *)
Lemma C7_counterexample :
  let entry := mkLogEntry Time.zero "INFO" in
  let f := fun s : string => s in
  let big := Analyze f [entry "request took 1e308 ms"; entry "request took 1e308 ms"] [] in
  let cancel := Analyze f [entry "a 10000000000000000 ms"; entry "b 1 ms";
                           entry "c -10000000000000000 ms"] [] in
  let cancelKeys := ["c -10000000000000000 ms"; "a 10000000000000000 ms"; "b 1 ms"] in
  let nan := Analyze f [entry "latency nan ms"] [] in
  (exists x, ResponseTime big = [x; x] /\ isFinite x = true /\
             Strconv.formatFixed2 x <> "+Inf") /\
  keyOrder (MsgFrequency big) ["request took 1e308 ms"] /\
  pairOrder (MsgFrequency big) [("request took 1e308 ms", 2)] /\
  fst (Print big ["request took 1e308 ms"] [("request took 1e308 ms", 2)]) !! 5%nat
  = Some "Average Response Time: +Inf ms" /\
  ResponseTime cancel = map floatOfInt [10 ^ 16; 1; - 10 ^ 16] /\
  map integerValue (ResponseTime cancel) = [Some (10 ^ 16); Some 1; Some (- 10 ^ 16)] /\
  sumZ [10 ^ 16; 1; - 10 ^ 16] = 1 /\
  keyOrder (MsgFrequency cancel) cancelKeys /\
  pairOrder (MsgFrequency cancel) (map (fun k => (k, 1)) cancelKeys) /\
  fst (Print cancel cancelKeys (map (fun k => (k, 1)) cancelKeys)) !! 5%nat
  = Some "Average Response Time: 0.00 ms" /\
  Strconv.formatFixed2 (floatOfInt 1 / floatOfInt 3) = "0.33" /\
  ResponseTime nan = [PrimFloat.nan] /\
  keyOrder (MsgFrequency nan) ["latency nan ms"] /\
  pairOrder (MsgFrequency nan) [("latency nan ms", 1)] /\
  fst (Print nan ["latency nan ms"] [("latency nan ms", 1)]) !! 5%nat
  = Some "Average Response Time: NaN ms".
Proof.
  cbv zeta.
  split.
  { eexists. split; [vm_compute; reflexivity |].
    split; [vm_compute; reflexivity | vm_compute; discriminate]. }
  repeat (split; [vm_compute; (reflexivity || apply Permutation_refl) |]).
  vm_compute. reflexivity.
Qed.
